(** * Pedestal map files of japan-MOLLER: a model of [macro/mapfile.py]

    The development embeds the [Pedestal] class of [macro/mapfile.py] and the
    weight functions of [macro/tq_weights.py] as executable Rocq functions
    and states the properties of the map-file model over them.

    - Python [str] values are lists of characters.  A character is an 8-bit
      code, read as the Unicode code point of the same number, so the model
      covers the strings whose code points are below 256; codes from 128 on
      are the characters that the ["ascii"] codec refuses.
    - Python [int] is [Z]; Python [float] is the kernel's binary64 [float].
      The interpreter's optional limit on the number of digits in the
      conversions between [int] and [str] ([sys.set_int_max_str_digits]) is
      not modelled.
    - A method is a state transformer that may raise: it runs on the object
      ([self]), the file system and the standard output, and a raised
      exception keeps every effect made before it.
    - [import_tq_rates] and the functions of [macro/tq_weights.py] are given
      the rows that [csv.DictReader] yields for their file.
    - [saveas] is given the lines typed at the terminal in answer to its
      question; the question counts as a line of the standard output. *)

From Stdlib Require Import ZArith Ascii String PrimFloat FloatOps SpecFloat Lia.
From stdpp Require Import gmap strings list fin_maps.

(* Decimal numerals such as 0.002 stand for the nearest binary64 value, as in
   Python. *)
Set Warnings "-inexact-float".

(** ** Python values *)

Abbreviation str := (list ascii).

Declare Scope str_scope.
Delimit Scope str_scope with str.

Inductive str_literal := LitNil | LitCons (c : ascii) (s : str_literal).

Fixpoint literal_of_bytes (l : list Byte.byte) : str_literal :=
  match l with
  | [] => LitNil
  | b :: l => LitCons (ascii_of_byte b) (literal_of_bytes l)
  end.

Fixpoint bytes_of_literal (s : str_literal) : list Byte.byte :=
  match s with
  | LitNil => []
  | LitCons c s => byte_of_ascii c :: bytes_of_literal s
  end.

#[warning="-via-type-remapping,-via-type-mismatch"]
String Notation list literal_of_bytes bytes_of_literal
  (via str_literal mapping [[nil] => LitNil, [cons] => LitCons]) : str_scope.

Open Scope str_scope.

(** The exceptions that the modelled code can raise or let through. *)
Inductive exn :=
  | ValueError | TypeError | KeyError | IndexError | OverflowError
  | ZeroDivisionError | RuntimeError | RuntimeWarning | OSError
  | UnicodeEncodeError | UnicodeDecodeError.

#[global] Instance exn_eq_dec : EqDecision exn.
Proof. solve_decision. Defined.

(** The result of an expression: a value, or a raised exception. *)
Inductive res (A : Type) :=
  | Ret (a : A)
  | Raise (e : exn).
Arguments Ret {A} a.
Arguments Raise {A} e.

Definition res_bind {A B} (r : res A) (k : A → res B) : res B :=
  match r with
  | Ret a => k a
  | Raise e => Raise e
  end.

Definition res_of_option {A} (e : exn) (o : option A) : res A :=
  match o with
  | Some a => Ret a
  | None => Raise e
  end.

Notation "'let?' x := r 'in' k" := (res_bind r (λ x, k))
  (at level 10, x pattern, r at level 100, k at level 200, only parsing).

Module Py.

(** *** Sequences: indexing and slicing *)

(** [s[i]] on a sequence of length [len]: the position read, when there is
    one (negative indices count from the end). *)
Definition index (len : nat) (i : Z) : option nat :=
  if (0 <=? i)%Z then
    if (i <? Z.of_nat len)%Z then Some (Z.to_nat i) else None
  else
    if (- Z.of_nat len <=? i)%Z then Some (Z.to_nat (Z.of_nat len + i)) else None.

Definition getitem {A} (s : list A) (i : Z) : res A :=
  match index (length s) i with
  | Some n => res_of_option IndexError (s !! n)
  | None => Raise IndexError
  end.

(** A slice bound: negative bounds count from the end, and every bound is
    clamped to the sequence. *)
Definition bound (len : nat) (i : Z) : nat :=
  if (i <? 0)%Z then Z.to_nat (Z.max 0 (Z.of_nat len + i))
  else Z.to_nat (Z.min i (Z.of_nat len)).

(** [s[lo:hi]]; an omitted bound is [None]. *)
Definition slice {A} (s : list A) (lo hi : option Z) : list A :=
  let l := from_option (bound (length s)) 0 lo in
  let h := from_option (bound (length s)) (length s) hi in
  take (h - l) (drop l s).

(** *** Characters *)

Definition code (c : ascii) : nat := nat_of_ascii c.

(** [str.isspace] on one character: what [str.split()] splits on. *)
Definition isspace (c : ascii) : bool :=
  let n := code c in
  ((9 <=? n) && (n <=? 13)) || ((28 <=? n) && (n <=? 32))
  || (n =? 133) || (n =? 160).

(** The white space that [int()] skips around a literal. *)
Definition int_space (c : ascii) : bool :=
  let n := code c in
  ((9 <=? n) && (n <=? 13)) || (n =? 32) || (n =? 133) || (n =? 160).

Definition digit (c : ascii) : option Z :=
  let n := code c in
  if (48 <=? n) && (n <=? 57) then Some (Z.of_nat n - 48)%Z else None.

Definition is_ascii (c : ascii) : bool := code c <? 128.

(** [str.lower] on the letters A to Z. *)
Definition lower_char (c : ascii) : ascii :=
  if (65 <=? code c) && (code c <=? 90) then ascii_of_nat (code c + 32) else c.

Definition lower (s : str) : str := lower_char <$> s.

(** *** [int] from and to [str] *)

(** The digits of a literal after its first digit: digits, each possibly
    preceded by one underscore.  Returns the value and what follows the
    literal. *)
Fixpoint int_digits (acc : Z) (s : str) : option (Z * str) :=
  match s with
  | [] => Some (acc, [])
  | c :: s' =>
      match digit c with
      | Some d => int_digits (10 * acc + d) s'
      | None =>
          if Ascii.eqb c "_" then
            match s' with
            | c' :: s'' =>
                match digit c' with
                | Some d => int_digits (10 * acc + d) s''
                | None => None
                end
            | [] => None
            end
          else Some (acc, s)
      end
  end.

Fixpoint lstrip (f : ascii → bool) (s : str) : str :=
  match s with
  | c :: s' => if f c then lstrip f s' else s
  | [] => []
  end.

Definition int_unsigned (s : str) : option Z :=
  match s with
  | c :: s' =>
      match digit c with
      | Some d =>
          match int_digits d s' with
          | Some (z, rest) =>
              if bool_decide (lstrip int_space rest = []) then Some z else None
          | None => None
          end
      | None => None
      end
  | [] => None
  end.

(** [int(s)] for a string [s] (base 10). *)
Definition int_of_str (s : str) : res Z :=
  res_of_option ValueError
    match lstrip int_space s with
    | c :: s' =>
        if Ascii.eqb c "-" then Z.opp <$> int_unsigned s'
        else if Ascii.eqb c "+" then int_unsigned s'
        else int_unsigned (c :: s')
    | [] => None
    end.

Definition digit_char (d : Z) : ascii := ascii_of_nat (48 + Z.to_nat d).

(** The decimal digits of a natural number, most significant first. *)
Fixpoint digits_fuel (fuel : nat) (z : Z) (acc : str) : str :=
  match fuel with
  | 0 => acc
  | S fuel =>
      let acc := digit_char (z mod 10) :: acc in
      if (z <? 10)%Z then acc else digits_fuel fuel (z / 10) acc
  end.

Definition digits (z : Z) : str := digits_fuel (S (Z.to_nat (Z.log2 z))) z [].

(** [str(z)] for an integer. *)
Definition str_of_int (z : Z) : str :=
  let ds := digits (Z.abs z) in
  if (z <? 0)%Z then "-" ++ ds else ds.

(** *** Format specifications *)

Definition spaces (n : nat) : str := replicate n " "%char.

(** [format(s, "<w")], the default alignment of a string. *)
Definition ljust (w : nat) (s : str) : str := s ++ spaces (w - length s).
(** [format(s, ">w")]. *)
Definition rjust (w : nat) (s : str) : str := spaces (w - length s) ++ s.
(** [format(s, "^w")]: the odd space goes to the right. *)
Definition center (w : nat) (s : str) : str :=
  let pad := w - length s in
  spaces (pad / 2) ++ s ++ spaces (pad - pad / 2).

(** [format(z, "0w")]: zeros between the sign and the digits. *)
Definition format_int_zero (w : nat) (z : Z) : str :=
  let ds := digits (Z.abs z) in
  if (z <? 0)%Z
  then "-" ++ replicate (w - 1 - length ds) "0"%char ++ ds
  else replicate (w - length ds) "0"%char ++ ds.

(** *** [float] and [int] *)

(** [float(z)] for an integer: the nearest binary64 value, ties to even. *)
Definition float_of_int (z : Z) : res float :=
  let f := SF2Prim (binary_normalize prec emax z 0 false) in
  if PrimFloat.is_infinity f then Raise OverflowError else Ret f.

(** [int(f)] for a float: truncation towards zero. *)
Definition int_of_float (f : float) : res Z :=
  match Prim2SF f with
  | S754_zero _ => Ret 0%Z
  | S754_infinity _ => Raise OverflowError
  | S754_nan => Raise ValueError
  | S754_finite s m e =>
      let a := if (0 <=? e)%Z then Z.shiftl (Z.pos m) e
               else Z.shiftr (Z.pos m) (- e) in
      Ret (if s then (- a)%Z else a)
  end.

End Py.

(** ** Tile codes

    The decoding of a six-character tile code, as [import_tq_rates] does it
    for every row of the CSV file. *)

Module Tile.

(** [flush], [num], [segment], [ring] and [pos] of a tile code. *)
Definition decode (tile : str) : res (Z * ascii * ascii) :=
  let flush := Py.slice tile None (Some 2%Z) in
  let? num := Py.int_of_str (Py.slice tile (Some 2%Z) (Some 4%Z)) in
  let segment :=
    if bool_decide (flush = "11") then (2 * num)%Z else (2 * num - 1)%Z in
  let? ring := Py.getitem tile 4 in
  let? pos := Py.getitem tile 5 in
  Ret (segment, ring, pos).

(** The detector name built from the decoded parts. *)
Definition detector (segment : Z) (ring pos : ascii) : str :=
  let detector := "TQ" ++ Py.format_int_zero 2 segment ++ "_R" ++ [ring] in
  if Ascii.eqb pos "1" then detector ++ "L"
  else if Ascii.eqb pos "2" then detector ++ "C"
  else if Ascii.eqb pos "3" then detector ++ "R"
  else detector.

Definition detector_name (tile : str) : res str :=
  let? (segment, ring, pos) := decode tile in
  Ret (detector segment ring pos).

(** *** The decoding as the specification words it *)

Definition spec_segment (FF : str) (NN : Z) : Z :=
  if bool_decide (FF = "11") then (2 * NN)%Z else (2 * NN - 1)%Z.

Definition spec_suffix (P : ascii) : str :=
  if bool_decide (P = "1"%char) then "L"
  else if bool_decide (P = "2"%char) then "C"
  else if bool_decide (P = "3"%char) then "R"
  else "".

(** The decimal numeral of an integer, with its sign. *)
Definition numeral (z : Z) : str :=
  if (z <? 0)%Z then "-" ++ Py.digits (- z) else Py.digits z.

(** The numeral filled with zeros on the left up to two characters. *)
Definition zero_padded_2_digit (z : Z) : str :=
  let s := numeral z in
  replicate (2 - length s) "0"%char ++ s.

Definition spec_detector (FF : str) (NN : Z) (R P : ascii) : str :=
  "TQ" ++ zero_padded_2_digit (spec_segment FF NN) ++ "_R" ++ [R] ++ spec_suffix P.

End Tile.

(** The same decoding in [r5weights] of [macro/tq_weights.py], which writes
    the names in lower case. *)
Module TqWeights.

Definition detector (segment : Z) (ring pos : ascii) : str :=
  let detector := "tq" ++ Py.format_int_zero 2 segment ++ "_r" ++ [ring] in
  if Ascii.eqb pos "1" then detector ++ "l"
  else if Ascii.eqb pos "2" then detector ++ "c"
  else if Ascii.eqb pos "3" then detector ++ "r"
  else detector.

Definition detector_name (tile : str) : res str :=
  let? (segment, ring, pos) := Tile.decode tile in
  Ret (detector segment ring pos).

(** The name of [Tile.spec_detector] with its letters in lower case, the
    ring character apart. *)
Definition spec_detector (FF : str) (NN : Z) (R P : ascii) : str :=
  "tq" ++ Tile.zero_padded_2_digit (Tile.spec_segment FF NN) ++ "_r" ++ [R]
  ++ Py.lower (Tile.spec_suffix P).

End TqWeights.

(** ** The table *)

(** A cell holds what was read from the file (a string) or what a setter
    stored (a string or a number). *)
Inductive cell :=
  | CStr (s : str)
  | CInt (z : Z)
  | CFloat (f : float).

(** The attributes of a [Pedestal] object. *)
Record Pedestal := mkPedestal {
  cols : gmap str nat;
  entries : list (list cell);
  headers : list str;
  name : str;
  names : list str;
  path : str;
  rows : gmap str nat;
}.

Definition set_cols (v : gmap str nat) (p : Pedestal) : Pedestal :=
  mkPedestal v (entries p) (headers p) (name p) (names p) (path p) (rows p).
Definition set_entries (v : list (list cell)) (p : Pedestal) : Pedestal :=
  mkPedestal (cols p) v (headers p) (name p) (names p) (path p) (rows p).
Definition set_headers (v : list str) (p : Pedestal) : Pedestal :=
  mkPedestal (cols p) (entries p) v (name p) (names p) (path p) (rows p).
Definition set_name (v : str) (p : Pedestal) : Pedestal :=
  mkPedestal (cols p) (entries p) (headers p) v (names p) (path p) (rows p).
Definition set_names (v : list str) (p : Pedestal) : Pedestal :=
  mkPedestal (cols p) (entries p) (headers p) (name p) v (path p) (rows p).
Definition set_path (v : str) (p : Pedestal) : Pedestal :=
  mkPedestal (cols p) (entries p) (headers p) (name p) (names p) v (rows p).
Definition set_rows (v : gmap str nat) (p : Pedestal) : Pedestal :=
  mkPedestal (cols p) (entries p) (headers p) (name p) (names p) (path p) v.

(** ** The environment *)

(** Whether a call of the [os] module returned or raised [OSError]. *)
Inductive os_status := Done | Failed.

(** The file system, as far as the class uses it.  A file holds its bytes;
    [write_text] is [open(path, "w")], the writes and the close taken together
    and [read_text] is [open(path)] and the reading of the whole file
    ([None]: [OSError]). *)
Class OS (W : Type) := {
  isfile : W → str → bool;
  rename : str → str → W → W * os_status;
  remove : str → W → W * os_status;
  write_text : str → str → W → W * os_status;
  read_text : str → W → option str;
}.

(** [float(s)] for a string and [format(f, "")] for a float are built into
    the interpreter. *)
Class FloatText := {
  float_of_str : str → option float;
  str_of_float : float → str;
}.

Record state (W : Type) := mkState {
  self : Pedestal;
  os : W;
  stdout : list str;
}.
Arguments mkState {W} self os stdout.
Arguments self {W} s.
Arguments os {W} s.
Arguments stdout {W} s.

(** A computation: from a state to the state it leaves and its result. *)
Definition M (W A : Type) : Type := state W → state W * res A.

#[global] Instance M_ret {W} : MRet (M W) := λ A a σ, (σ, Ret a).
#[global] Instance M_bind {W} : MBind (M W) := λ A B k m σ,
  match m σ with
  | (σ', Ret a) => k a σ'
  | (σ', Raise e) => (σ', Raise e)
  end.

Section Monad.
Context {W : Type}.

Definition raise {A} (e : exn) : M W A := λ σ, (σ, Raise e).

Definition lift {A} (r : res A) : M W A := λ σ, (σ, r).

Definition get_self : M W Pedestal := λ σ, (σ, Ret (self σ)).

Definition update_self (f : Pedestal → Pedestal) : M W unit :=
  λ σ, (mkState (f (self σ)) (os σ) (stdout σ), Ret ()).

Definition print (s : str) : M W unit :=
  λ σ, (mkState (self σ) (os σ) (stdout σ ++ [s]), Ret ()).

(** A query of the file system. *)
Definition os_query {A} (f : W → A) : M W A := λ σ, (σ, Ret (f (os σ))).

(** A call that changes the file system and may raise [OSError]. *)
Definition os_call (f : W → W * os_status) : M W unit := λ σ,
  let '(w, r) := f (os σ) in
  (mkState (self σ) w (stdout σ),
   match r with Done => Ret () | Failed => Raise OSError end).

(** [try: m except e: h] *)
Definition try_except {A} (m : M W A) (e : exn) (h : M W A) : M W A := λ σ,
  match m σ with
  | (σ', Raise e') => if decide (e' = e) then h σ' else (σ', Raise e')
  | r => r
  end.

(** [for x in l: body x] *)
Fixpoint for_each {A} (l : list A) (body : A → M W unit) : M W unit :=
  match l with
  | [] => mret ()
  | x :: l => body x;; for_each l body
  end.

(** What the body of a loop inside a function asks for: the next iteration,
    or the return from the function. *)
Inductive flow := Next | Return.

Fixpoint for_each_return {A} (l : list A) (body : A → M W flow) : M W flow :=
  match l with
  | [] => mret Next
  | x :: l =>
      f ← body x;
      match f with
      | Next => for_each_return l body
      | Return => mret Return
      end
  end.

End Monad.

(** ** The module [mapfile] *)

Definition LF : ascii := "010"%char.
Definition CR : ascii := "013"%char.

Definition milli : float := 1e-3%float.
Definition micro : float := 1e-6%float.

Definition current : Z := 100.
Definition num_samples : Z := 15000.
Definition time : float := (2 * milli)%float.

(** [str.split()]: the maximal runs of characters that are not white space. *)
Fixpoint split_go (cur : str) (s : str) : list str :=
  match s with
  | [] => match cur with [] => [] | _ => [cur] end
  | c :: s' =>
      if Py.isspace c then
        match cur with
        | [] => split_go [] s'
        | _ => cur :: split_go [] s'
        end
      else split_go (cur ++ [c]) s'
  end.

Definition split (s : str) : list str := split_go [] s.

(** The successive results of [readline()] on a text file opened with
    universal newlines: every line but possibly the last ends in a line feed,
    which stands for a line feed, a carriage return or the two in a row. *)
Fixpoint readlines_go (cur : str) (s : str) : list str :=
  match s with
  | [] => match cur with [] => [] | _ => [cur] end
  | c :: s' =>
      if Ascii.eqb c CR then
        match s' with
        | c' :: s'' =>
            if Ascii.eqb c' LF then (cur ++ [LF]) :: readlines_go [] s''
            else (cur ++ [LF]) :: readlines_go [] s'
        | [] => (cur ++ [LF]) :: readlines_go [] s'
        end
      else if Ascii.eqb c LF then (cur ++ [LF]) :: readlines_go [] s'
      else readlines_go (cur ++ [c]) s'
  end.

Definition readlines (s : str) : list str := readlines_go [] s.

(** [sep.join(l)] *)
Fixpoint join (sep : str) (l : list str) : str :=
  match l with
  | [] => []
  | [s] => s
  | s :: l => s ++ sep ++ join sep l
  end.

(** The evaluation of a list of expressions from left to right. *)
Fixpoint res_all {A} (l : list (res A)) : res (list A) :=
  match l with
  | [] => Ret []
  | r :: l => let? a := r in let? l' := res_all l in Ret (a :: l')
  end.

(** [{val: index for index, val in enumerate(l)}], filled in order. *)
Fixpoint enumerate_from (n : nat) (l : list str) (m : gmap str nat) : gmap str nat :=
  match l with
  | [] => m
  | val :: l => enumerate_from (S n) l (<[val := n]> m)
  end.

(** The loop that reads the file name: [name] and, when a [/] is found,
    [path].  [None] when [fuel] iterations do not end it. *)
Fixpoint name_loop (fuel : nat) (filepath : str) (i : Z) : option (res (str * option str)) :=
  match fuel with
  | 0 => None
  | S fuel =>
      let len := Z.of_nat (length filepath) in
      match Py.getitem filepath i with
      | Raise e => Some (Raise e)
      | Ret char =>
          if Ascii.eqb char "/" then
            let i := (i + 1)%Z in
            Some (Ret (Py.slice filepath (Some (len + i)%Z) (Some (-4)%Z),
                       Some (Py.slice filepath None (Some (len + i)%Z))))
          else if (Z.abs i =? len)%Z then
            Some (Ret (Py.slice filepath None (Some (-4)%Z), None))
          else if (Z.abs i >? len)%Z then Some (Raise RuntimeError)
          else name_loop fuel filepath (i - 1)
      end
  end.

(** The loop started at [i = -5]; the fuel is never used up
    (see [name_loop_fuel]). *)
Definition read_name (filepath : str) : res (str * option str) :=
  default (Raise RuntimeError) (name_loop (S (length filepath)) filepath (-5)).

(** [math.isnan(val)] *)
Definition isnan (val : cell) : res bool :=
  match val with
  | CStr _ => Raise TypeError
  | CInt z => let? _ := Py.float_of_int z in Ret false
  | CFloat f => Ret (PrimFloat.is_nan f)
  end.

(** [int(c)] for a cell. *)
Definition int_of_cell (c : cell) : res Z :=
  match c with
  | CStr s => Py.int_of_str s
  | CInt z => Ret z
  | CFloat f => Py.int_of_float f
  end.

(** [float] times [int]. *)
Definition mul_int (f : float) (z : Z) : res float :=
  let? g := Py.float_of_int z in Ret (f * g)%float.

(** [float] divided by [int]. *)
Definition div_int (f : float) (z : Z) : res float :=
  let? g := Py.float_of_int z in
  if PrimFloat.is_zero g then Raise ZeroDivisionError else Ret (f / g)%float.

(** [float] divided by [float]. *)
Definition div_float (f g : float) : res float :=
  if PrimFloat.is_zero g then Raise ZeroDivisionError else Ret (f / g)%float.

(** [math.sqrt(z)] for an integer. *)
Definition sqrt_int (z : Z) : res float :=
  let? g := Py.float_of_int z in
  if PrimFloat.ltb g 0 then Raise ValueError else Ret (PrimFloat.sqrt g).

(** One file written line by line: the text that reached the file and how
    the writing ended. *)
Fixpoint write_lines (lines : list (res str)) (written : str) : str * res unit :=
  match lines with
  | [] => (written, Ret ())
  | Ret l :: lines => write_lines lines (written ++ l)
  | Raise e :: _ => (written, Raise e)
  end.

(** The ["ascii"] codec, on writing and on reading. *)
Definition encode_ascii (s : str) : res str :=
  if forallb Py.is_ascii s then Ret s else Raise UnicodeEncodeError.
Definition decode_ascii (s : str) : res str :=
  if forallb Py.is_ascii s then Ret s else Raise UnicodeDecodeError.

Section Methods.
Context {W : Type} {os_w : OS W} {float_text : FloatText}.

(** [float(c)] for a cell. *)
Definition float_of_cell (c : cell) : res float :=
  match c with
  | CStr s => res_of_option ValueError (float_of_str s)
  | CInt z => Py.float_of_int z
  | CFloat f => Ret f
  end.

(** [f"{col:>14}"] for a cell. *)
Definition format_cell (col : cell) : res str :=
  match col with
  | CStr s => Ret (Py.rjust 14 s)
  | CInt z => Ret (Py.rjust 14 (Py.str_of_int z))
  | CFloat f => Ret (Py.rjust 14 (str_of_float f))
  end.

Definition countcols (p : Pedestal) : nat := size (cols p).

Definition countrows (p : Pedestal) : nat := size (rows p).

(** [self.entries[self.rows[row]][self.cols[col]]] *)
Definition lookup_cell (p : Pedestal) (row col : str) : res cell :=
  let? r := res_of_option KeyError (rows p !! row) in
  let? entry := Py.getitem (entries p) (Z.of_nat r) in
  let? c := res_of_option KeyError (cols p !! col) in
  Py.getitem entry (Z.of_nat c).

Definition gain (p : Pedestal) (row : str) : res float :=
  let? c := lookup_cell p row "Gain" in float_of_cell c.

Definition voltperhz (p : Pedestal) (row : str) : res float :=
  let? c := lookup_cell p row "VoltPerHz" in float_of_cell c.

Definition normrate (p : Pedestal) (row : str) : res Z :=
  let? c := lookup_cell p row "NormRate(Hz/uA)" in int_of_cell c.

Definition hwsum (p : Pedestal) (row : str) : res (float * float) :=
  let? v := voltperhz p row in
  let? n := normrate p row in
  let? vn := mul_int v n in
  let? mean := mul_int vn current in
  let? root := sqrt_int num_samples in
  let? v' := voltperhz p row in
  let? stddev := div_float (root * v') time in
  Ret (mean, stddev).

(** [self.entries[row][col] = val] *)
Definition setval (row col : Z) (val : cell) : M W unit :=
  p ← get_self;
  r ← lift (res_of_option IndexError (Py.index (length (entries p)) row));
  entry ← lift (res_of_option IndexError (entries p !! r));
  c ← lift (res_of_option IndexError (Py.index (length entry) col));
  update_self (set_entries (<[r := <[c := val]> entry]> (entries p))).

Definition setcol (col : Z) (val : cell) : M W unit :=
  nan ← lift (isnan val);
  if nan : bool then raise TypeError
  else
    p ← get_self;
    for_each (seq 0 (countrows p)) (λ row, setval (Z.of_nat row) col val).

Definition setcols (cols_ : list str) (val : cell) : M W unit :=
  nan ← lift (isnan val);
  if nan : bool then raise TypeError
  else
    for_each cols_ (λ col,
      p ← get_self;
      c ← lift (res_of_option KeyError (cols p !! col));
      setcol (Z.of_nat c) val).

(** [int(float(field) * 10**9 / current)] with the local [current = 65]. *)
Definition rate_of (field : str) : res Z :=
  let current := 65%Z in
  let? f := res_of_option ValueError (float_of_str field) in
  let? g := mul_int f (10 ^ 9) in
  let? h := div_int g current in
  Py.int_of_float h.

(** The body of the loop of [import_tq_rates], for one row of the reader. *)
Definition import_row (row : gmap str str) : M W flow :=
  tile ← lift (res_of_option KeyError (row !! "tile"));
  d ← lift (Tile.decode tile);
  let '(segment, ring, pos) := d in
  field ← lift (res_of_option KeyError (row !! "Average Rate [GHz]"));
  rate ← lift (rate_of field);
  let detector := Tile.detector segment ring pos in
  try_except
    (p ← get_self;
     r ← lift (res_of_option KeyError (rows p !! detector));
     c ← lift (res_of_option KeyError (cols p !! "NormRate(Hz/uA)"));
     setval (Z.of_nat r) (Z.of_nat c) (CInt rate);;
     mret Next)
    KeyError
    (print "There was an error constructing the detector name.";;
     print "Import failed.";;
     mret Return).

(** [import_tq_rates], on the rows that [csv.DictReader] yields for the
    file. *)
Definition import_tq_rates (reader : list (gmap str str)) : M W unit :=
  f ← for_each_return reader import_row;
  match f with
  | Return => mret ()
  | Next => print "Import successful."
  end.

Definition header_line (p : Pedestal) : res str :=
  encode_ascii
    (Py.ljust 12 "! Name" ++ join " " (Py.center 14 <$> headers p) ++ [LF]).

Definition row_line (p : Pedestal) (m : nat) : res str :=
  let? name := Py.getitem (names p) (Z.of_nat m) in
  let? entry := Py.getitem (entries p) (Z.of_nat m) in
  let? fields := res_all (format_cell <$> entry) in
  encode_ascii (Py.ljust 12 name ++ join " " fields ++ [LF]).

(** The text that [writemap] puts into the file, and how its writing ends. *)
Definition map_text (p : Pedestal) : str * res unit :=
  write_lines (header_line p :: (row_line p <$> seq 0 (countrows p))) [].

Definition writemap (fullpath : str) : M W unit :=
  p ← get_self;
  let '(text, r) := map_text p in
  os_call (write_text fullpath text);;
  lift r.

(** One iteration of the loop over the data lines. *)
Definition read_record (n : nat) (line : str) : M W unit :=
  let record := split line in
  key ← lift (Py.getitem record 0);
  update_self (λ p, set_rows (<[key := n]> (rows p)) p);;
  update_self (λ p, set_names (names p ++ [key]) p);;
  update_self (λ p, set_entries (entries p ++ [CStr <$> Py.slice record (Some 1%Z) None]) p).

Fixpoint read_records (n : nat) (lines : list str) : M W unit :=
  match lines with
  | [] => mret ()
  | line :: lines => read_record n line;; read_records (S n) lines
  end.

Definition strip_first (token : str) (l : list str) : res (list str) :=
  let? h := Py.getitem l 0 in
  Ret (if bool_decide (h = token) then Py.slice l (Some 1%Z) None else l).

(** The block [with open(filepath, encoding="ascii") as f] of [__init__]. *)
Definition read_table (filepath : str) : M W unit :=
  content ← os_query (read_text filepath);
  bytes ← lift (res_of_option OSError content);
  text ← lift (decode_ascii bytes);
  let lines := readlines text in
  hs ← lift (strip_first "!" (split (default [] (head lines))));
  hs ← lift (strip_first "Name" hs);
  update_self (set_headers hs);;
  update_self (λ p, set_cols (enumerate_from 0 hs (cols p)) p);;
  read_records 0 (tail lines).

(** [Pedestal.__init__] *)
Definition init (filepath : str) : M W unit :=
  if length filepath <? 5 then raise ValueError
  else if negb (bool_decide (Py.slice filepath (Some (-4)%Z) None = ".map"))
  then raise ValueError
  else
    exists_ ← os_query (λ w, isfile w filepath);
    if negb exists_ then raise ValueError
    else
      update_self (λ p, mkPedestal ∅ [] [] (name p) [] "" ∅);;
      nm ← lift (read_name filepath);
      update_self (set_name nm.1);;
      match nm.2 with
      | Some d => update_self (set_path d)
      | None => mret ()
      end;;
      read_table filepath;;
      p ← get_self;
      print ("Pedestal object successfully created. "
             ++ Py.str_of_int (Z.of_nat (countrows p)) ++ " rows were added.").

(** The locals [pathname], [currentfile] and [oldfile] of [save]. *)
Definition pathname (p : Pedestal) : str := path p ++ name p.
Definition currentfile (p : Pedestal) : str := pathname p ++ ".map".
Definition oldfile (p : Pedestal) : str := pathname p ++ "_old.map".

Definition save : M W unit :=
  p ← get_self;
  let currentfile := currentfile p in
  let oldfile := oldfile p in
  try_except
    (stale ← os_query (λ w, isfile w oldfile);
     (if stale : bool then raise RuntimeError else mret ());;
     os_call (rename currentfile oldfile);;
     moved ← os_query (λ w, isfile w oldfile && negb (isfile w currentfile));
     renamed ← (if moved : bool then mret true else raise RuntimeError);
     writemap currentfile;;
     created ← os_query (λ w, isfile w currentfile);
     saved ← (if created : bool then mret true
              else
                os_call (rename oldfile currentfile);;
                restored ← os_query (λ w, isfile w currentfile);
                if restored : bool then raise RuntimeError else raise RuntimeError);
     if renamed && saved then
       os_call (remove oldfile);;
       left ← os_query (λ w, isfile w oldfile);
       if left : bool then raise RuntimeWarning else print "Save successful."
     else raise RuntimeWarning)
    RuntimeError
    (print "Runtime error occurred.").

End Methods.

(** ** The notions of the statements *)

(** A relation between the object before and after, kept by a
    computation however it ends. *)
Definition keeps {W A} (R : relation Pedestal) (m : M W A) : Prop :=
  ∀ σ, R (self σ) (self (m σ).1).

(** The object keeps its file: [path] and [name] are left as they are. *)
Definition same_file : relation Pedestal :=
  λ p p', path p' = path p ∧ name p' = name p.

(** The setters change cells and nothing else: the two mappings, the
    headers, the row names, the file and the number of cells of every entry
    stay. *)
Definition same_shape : relation Pedestal := λ p p',
  cols p' = cols p ∧ headers p' = headers p ∧ name p' = name p
  ∧ names p' = names p ∧ path p' = path p ∧ rows p' = rows p
  ∧ length <$> entries p' = length <$> entries p.

(** As many entries as rows in the row-name mapping, as many cells in every
    entry as there are columns, and no row name twice. *)
Definition table_invariant (p : Pedestal) : Prop :=
  length (entries p) = size (rows p)
  ∧ Forall (λ entry, length entry = length (headers p)) (entries p)
  ∧ NoDup (names p).

(** One call of a method that changes the table. *)
Inductive mutation {W : Type} {float_text : FloatText} : relation (state W) :=
  | by_setval σ row col val : mutation σ (setval row col val σ).1
  | by_setcol σ col val : mutation σ (setcol col val σ).1
  | by_setcols σ cols_ val : mutation σ (setcols cols_ val σ).1
  | by_import_tq_rates σ reader : mutation σ (import_tq_rates reader σ).1.

(** What [import_tq_rates] prints when it gives up. *)
Definition import_failed : list str :=
  ["There was an error constructing the detector name."; "Import failed."].

(** What [import_tq_rates] works out of a row before it touches the
    table: the detector name and the rate. *)
Definition decode_row {float_text : FloatText} (row : gmap str str) : res (str * Z) :=
  let? tile := res_of_option KeyError (row !! "tile") in
  let? (segment, ring, pos) := Tile.decode tile in
  let? field := res_of_option KeyError (row !! "Average Rate [GHz]") in
  let? rate := rate_of field in
  Ret (Tile.detector segment ring pos, rate).

Definition abort_import {W} (σ : state W) : state W * res flow :=
  (mkState (self σ) (os σ) (stdout σ ++ import_failed), Ret Return).

(** The data lines of a map file, in tokens: what [__init__] reads after the
    header line. *)
Definition data_records (text : str) : list (list str) :=
  split <$> tail (readlines text).

Definition record_name (record : list str) : str := default "" (head record).

(** The table with the records of the lines read from line [n] on. *)
Definition with_records (n : nat) (records : list (list str)) (p : Pedestal) : Pedestal :=
  set_entries (entries p ++ ((λ record, CStr <$> drop 1 record) <$> records))
    (set_names (names p ++ (record_name <$> records))
       (set_rows (enumerate_from n (record_name <$> records) (rows p)) p)).

(** The table that [__init__] builds from the name, the path, the headers
    and the text of the file. *)
Definition table_of (nm : str) (d : option str) (hs : list str) (text : str) : Pedestal :=
  with_records 0 (data_records text)
    (mkPedestal (enumerate_from 0 hs ∅) [] hs nm [] (default "" d) ∅).

Definition created (p : Pedestal) : str :=
  "Pedestal object successfully created. "
  ++ Py.str_of_int (Z.of_nat (countrows p)) ++ " rows were added.".

(** A character of a token: no white space, and in the range of the
    ["ascii"] codec. *)
Definition plain (c : ascii) : Prop := Py.isspace c = false ∧ Py.is_ascii c = true.

(** A token: a string that is not empty and has only such characters. *)
Definition token (s : str) : Prop := s ≠ [] ∧ Forall plain s.

(** A character that can stand inside a line of the file. *)
Definition inline (c : ascii) : Prop := Py.is_ascii c = true ∧ c ≠ CR ∧ c ≠ LF.

(** A token between two runs of spaces. *)
Definition padded (tok s : str) : Prop :=
  ∃ a b, s = Py.spaces a ++ tok ++ Py.spaces b.

(** The lines of the file, without their line feed. *)
Definition header_body (hs : list str) : str :=
  Py.ljust 12 "! Name" ++ join " " (Py.center 14 <$> hs).

Definition row_body (name : str) (fields : list str) : str :=
  Py.ljust 12 name ++ join " " (Py.rjust 14 <$> fields).

(** The name field and the first value field do not run into each other:
    one of them is shorter than its width. *)
Definition fits (name : str) (fields : list str) : Prop :=
  length name < 12 ∨ match fields with f :: _ => length f < 14 | [] => True end.

Definition cell_text (c : cell) : str :=
  match c with CStr s => s | _ => [] end.

(** A cell that holds a token. *)
Definition cell_token (c : cell) : Prop :=
  match c with CStr s => token s | _ => False end.

(** The object is as [__init__] leaves one: the two mappings give the
    positions in the lists of headers and of row names, there is one entry
    for each row name, and no row name comes twice. *)
Definition table_ok (t : Pedestal) : Prop :=
  cols t = enumerate_from 0 (headers t) ∅
  ∧ rows t = enumerate_from 0 (names t) ∅
  ∧ NoDup (names t)
  ∧ length (entries t) = length (names t).

(** ** A file system to run the model on

    The files by path.  Removing a path in [denied] raises [OSError]; removing
    a path in [lingering] returns and leaves the file where it is. *)
Record disk := mkDisk {
  files : gmap str str;
  denied : gset str;
  lingering : gset str;
}.

Definition disk_rename (src dst : str) (d : disk) : disk * os_status :=
  match files d !! src with
  | Some bytes => (mkDisk (<[dst := bytes]> (delete src (files d))) (denied d) (lingering d), Done)
  | None => (d, Failed)
  end.

Definition disk_remove (p : str) (d : disk) : disk * os_status :=
  match files d !! p with
  | Some _ =>
      if bool_decide (p ∈ denied d) then (d, Failed)
      else if bool_decide (p ∈ lingering d) then (d, Done)
      else (mkDisk (delete p (files d)) (denied d) (lingering d), Done)
  | None => (d, Failed)
  end.

#[global] Instance disk_os : OS disk := {|
  isfile d p := bool_decide (is_Some (files d !! p));
  rename := disk_rename;
  remove := disk_remove;
  write_text p text d := (mkDisk (<[p := text]> (files d)) (denied d) (lingering d), Done);
  read_text p d := files d !! p;
|}.

(** A stand-in for the interpreter's conversions between floats and text,
    enough to run the examples: it reads the few numerals listed. *)
Definition sample_float_text : FloatText := {|
  float_of_str s :=
    if bool_decide (s = "0.5") then Some 0.5%float
    else if bool_decide (s = "0.0123") then Some 0.0123%float
    else if bool_decide (s = "nan") then Some nan
    else None;
  str_of_float f := "0.5";
|}.

(** ** A small table to run the model on *)

Definition blank : Pedestal := mkPedestal ∅ [] [] "" [] "" ∅.

Definition sample_text : str :=
  "! Name        VoltPerHz   NormRate(Hz/uA)" ++ [LF]
  ++ "TQ23_R2      0.5  12" ++ [LF]
  ++ "TQ16_R5L     0.5  7" ++ [LF].

Definition sample_disk : disk :=
  mkDisk {[ "dir/ped.map" := sample_text ]} ∅ ∅.

(** The object that [Pedestal("dir/ped.map")] makes on [sample_disk]. *)
Definition sample_table : Pedestal := {|
  cols := {[ "VoltPerHz" := 0; "NormRate(Hz/uA)" := 1 ]};
  entries := [[CStr "0.5"; CStr "12"]; [CStr "0.5"; CStr "7"]];
  headers := ["VoltPerHz"; "NormRate(Hz/uA)"];
  name := "ped";
  names := ["TQ23_R2"; "TQ16_R5L"];
  path := "dir/";
  rows := {[ "TQ23_R2" := 0; "TQ16_R5L" := 1 ]};
|}.

Definition sample_state : state disk := mkState sample_table sample_disk [].

(** The sample file system once more, with a backup that [remove] leaves. *)
Definition lingering_state : state disk :=
  mkState sample_table
    (mkDisk {[ "dir/ped.map" := sample_text ]} ∅ {[ "dir/ped_old.map" ]}) [].

(** The sample file system with a backup left by an earlier save. *)
Definition stale_state : state disk :=
  mkState sample_table
    (mkDisk {[ "dir/ped.map" := sample_text; "dir/ped_old.map" := "old" ]} ∅ ∅) [].

(** Rows of a CSV file, as [csv.DictReader] hands them over. *)
Definition csv_row (tile rate : str) : gmap str str :=
  {[ "tile" := tile; "Average Rate [GHz]" := rate ]}.

Definition sample_reader : list (gmap str str) :=
  [csv_row "151220" "0.0123"; csv_row "150110" "0.5"; csv_row "110851" "0.5"].

(** A map file with a row name given twice and a data line longer than the
    header. *)
Definition ragged_text : str :=
  "! Name A B" ++ [LF] ++ "x 1 2 3" ++ [LF] ++ "x 4 5" ++ [LF].

Definition ragged_disk : disk := mkDisk {[ "dir/ped.map" := ragged_text ]} ∅ ∅.

(** A table whose only row has a name of twelve characters and a first
    cell of fourteen. *)
Definition wide_table : Pedestal := {|
  cols := {[ "A" := 0 ]};
  entries := [[CStr "12345678901234"]];
  headers := ["A"];
  name := "ped";
  names := ["ABCDEFGHIJKL"];
  path := "dir/";
  rows := {[ "ABCDEFGHIJKL" := 0 ]};
|}.

Definition wide_state : state disk := mkState wide_table sample_disk [].

(** The table read from a file that names the row [x] twice. *)
Definition twin_table : Pedestal := {|
  cols := {[ "A" := 0 ]};
  entries := [[CStr "1"]; [CStr "2"]];
  headers := ["A"];
  name := "twin";
  names := ["x"; "x"];
  path := "dir/";
  rows := {[ "x" := 1 ]};
|}.

Definition twin_text : str := "! Name A" ++ [LF] ++ "x 1" ++ [LF] ++ "x 2" ++ [LF].

(** The sample table after [setval(0, 0, s)] for a string [s] of one
    character that is not ASCII (code 233). *)
Definition latin_table : Pedestal :=
  set_entries [[CStr ["233"%char]; CStr "12"]; [CStr "0.5"; CStr "7"]] sample_table.

(** ** The rest of the class: [help], [setvals] and [saveas] *)

Section Interactive.
Context {W : Type} {os_w : OS W} {float_text : FloatText}.

Definition help : M W unit := print "help() method not yet implemented".

(** The body of [setvals] is its docstring. *)
Definition setvals (entries_ values : list cell) : M W unit := mret ().

(** The question that [saveas] asks; [input] writes it to the standard
    output. *)
Definition overwrite_prompt : str :=
  "Are you sure you sure you wish to overwrite existing file? (y/n): ".

(** The loop [while ans not in ('y', 'n'): ans = input(...)] on the lines
    typed at the terminal: how often the question is asked and the answer
    that ends the loop.  [None] when no typed line ends it: [input] then
    waits for the next one. *)
Fixpoint read_answer (typed : list str) : option (nat * str) :=
  match typed with
  | [] => None
  | ans :: typed =>
      if bool_decide (ans = "y" ∨ ans = "n") then Some (1, ans)
      else prod_map S id <$> read_answer typed
  end.

(** The local [filepath] of [saveas]. *)
Definition saveas_filepath (p : Pedestal) (filename path_ ext : str) : str :=
  if bool_decide (Py.slice filename (Some (-4)%Z) None = ".map") then
    if bool_decide (path_ = "") then path p ++ filename else path_ ++ filename
  else path p ++ filename ++ ext.

(** The [try] statement of [saveas] with its [except] and [finally]
    clauses, once the question (if it is asked) has its answer.  The [try]
    block yields the local [saved], which stays [False] when the block
    raises. *)
Definition saveas_answered (filepath : str) (asked : nat * str) : M W unit := λ σ,
  let block : M W bool :=
    try_except
      (exists_ ← os_query (λ w, isfile w filepath);
       if exists_ : bool then
         for_each (replicate asked.1 overwrite_prompt) print;;
         if bool_decide (asked.2 = "y") then writemap filepath;; mret true
         else raise RuntimeError
       else mret false)
      RuntimeError
      (print ("Call to save " ++ filepath ++ " was cancelled.");; mret false) in
  match block σ with
  | (σ', Ret saved) =>
      print (if saved : bool then "File was saved successfully."
             else "File was not saved.") σ'
  | (σ', Raise e) => ((print "File was not saved." σ').1, Raise e)
  end.

(** [saveas(filename, path, ext)] with the lines typed at the terminal. *)
Definition saveas (filename path_ ext : str) (typed : list str) :
    state W → option (state W * res unit) := λ σ,
  let filepath := saveas_filepath (self σ) filename path_ ext in
  asked ← (if isfile (os σ) filepath then read_answer typed else Some (0, []));
  Some (saveas_answered filepath asked σ).

End Interactive.

(** ** The module [tq_weights] *)

(** [format(f, ".4f")] is built into the interpreter. *)
Class FloatFixed := {
  format_4f : float → str;
}.

Module Weights.

(** The value of [sum_cos] and [sum_sin]: the integer 0 they start from, or
    the float that [+=] makes of them. *)
Inductive num :=
  | NInt (z : Z)
  | NFloat (f : float).

(** [sum += weight] *)
Definition add (sum : num) (weight : float) : res num :=
  match sum with
  | NInt z => let? g := Py.float_of_int z in Ret (NFloat (g + weight)%float)
  | NFloat f => Ret (NFloat (f + weight)%float)
  end.

(** [f"{sum}"] *)
Definition str_of_num {float_text : FloatText} (sum : num) : str :=
  match sum with
  | NInt z => Py.str_of_int z
  | NFloat f => str_of_float f
  end.

(** The decoding of [r5otcweights], which also works out the [flavor] of
    the segment. *)
Definition decode_otc (tile : str) : res (Z * str * ascii * ascii) :=
  let flush := Py.slice tile None (Some 2%Z) in
  let? num := Py.int_of_str (Py.slice tile (Some 2%Z) (Some 4%Z)) in
  let '(segment, flavor) :=
    if bool_decide (flush = "11") then ((2 * num)%Z, "t")
    else ((2 * num - 1)%Z, if negb (num mod 2 =? 0)%Z then "c" else "o") in
  let? ring := Py.getitem tile 4 in
  let? pos := Py.getitem tile 5 in
  Ret (segment, flavor, ring, pos).

(** What the loop body works out of the tile code: the detector name and
    the test of its [if] statement.  [r5weights] tests [ring == "5"],
    [r2weights] tests [ring == "2"]. *)
Definition pick_ring (wanted : ascii) (tile : str) : res (str * bool) :=
  let? (segment, ring, pos) := Tile.decode tile in
  Ret (TqWeights.detector segment ring pos, bool_decide (ring = wanted)).

(** [r5otcweights] tests [ring == "5" and flavor == otc]. *)
Definition pick_otc (otc : str) (tile : str) : res (str * bool) :=
  let? (segment, flavor, ring, pos) := decode_otc tile in
  Ret (TqWeights.detector segment ring pos,
       bool_decide (ring = "5"%char) && bool_decide (flavor = otc)).

Definition weight_line {float_fixed : FloatFixed} (detector : str) (weight : float) : str :=
  "asym:" ++ detector ++ ", " ++ format_4f weight.

Definition name_error : str := "There was an error constructing the detector name.".

Section Loops.
Context {W : Type} {float_text : FloatText} {float_fixed : FloatFixed}.

(** The body of the loop over the rows of the reader, for the field
    [" mean_of_cos"] or [" mean_of_sin"]: the sum after the row, and whether
    the function returns. *)
Definition weight_row (field : str) (pick : str → res (str * bool))
    (row : gmap str str) (sum : num) : M W (flow * num) :=
  tile ← lift (res_of_option KeyError (row !! "detno"));
  d ← lift (pick tile);
  text ← lift (res_of_option KeyError (row !! field));
  weight ← lift (res_of_option ValueError (float_of_str text));
  try_except
    (if d.2 : bool then
       print (weight_line d.1 weight);;
       sum' ← lift (add sum weight);
       mret (Next, sum')
     else mret (Next, sum))
    KeyError
    (print name_error;; mret (Return, sum)).

Fixpoint weight_rows (field : str) (pick : str → res (str * bool))
    (reader : list (gmap str str)) (sum : num) : M W (flow * num) :=
  match reader with
  | [] => mret (Next, sum)
  | row :: reader =>
      r ← weight_row field pick row sum;
      match r.1 with
      | Next => weight_rows field pick reader r.2
      | Return => mret r
      end
  end.

(** The three functions, which differ in the test of the loop body only:
    the two passes over the rows that [csv.DictReader] yields for the file,
    and the sums. *)
Definition weights (pick : str → res (str * bool)) (reader : list (gmap str str)) : M W unit :=
  print ([LF] ++ "Cosine weights:");;
  c ← weight_rows " mean_of_cos" pick reader (NInt 0);
  match c.1 with
  | Return => mret ()
  | Next =>
      print ([LF; LF] ++ "Sine weights:");;
      s ← weight_rows " mean_of_sin" pick reader (NInt 0);
      match s.1 with
      | Return => mret ()
      | Next =>
          print [LF];;
          print ("Sum of cosine weights: " ++ str_of_num c.2);;
          print ("  Sum of sine weights: " ++ str_of_num s.2);;
          print [LF]
      end
  end.

Definition r5weights : list (gmap str str) → M W unit := weights (pick_ring "5").

Definition r2weights : list (gmap str str) → M W unit := weights (pick_ring "2").

Definition r5otcweights (otc : str) : list (gmap str str) → M W unit :=
  weights (pick_otc otc).

End Loops.

End Weights.

(** ** More notions of the statements *)

(** The cell in row [i] and column [j] of the table, when there is one. *)
Definition cell_at (p : Pedestal) (i j : nat) : option cell :=
  entries p !! i ≫= λ entry, entry !! j.

(** An entry with [val] in the place that the index [col] stands for in
    it (the entry itself when [col] is out of its range). *)
Definition set_cell (col : Z) (val : cell) (entry : list cell) : list cell :=
  match Py.index (length entry) col with
  | Some c => <[c := val]> entry
  | None => entry
  end.

(** The key [k] stands at position [i] of the list and nowhere after it. *)
Definition last_at (l : list str) (k : str) (i : nat) : Prop :=
  l !! i = Some k ∧ ∀ j, i < j → l !! j ≠ Some k.

(** The tokens of a first line that the constructor takes: there is one,
    and one more after a leading ["!"]. *)
Definition header_ok (tokens : list str) : Prop :=
  tokens ≠ [] ∧ tokens ≠ ["!"].

(** The text of a cell before [writemap] pads it. *)
Definition printed {float_text : FloatText} (c : cell) : str :=
  match c with
  | CStr s => s
  | CInt z => Py.str_of_int z
  | CFloat f => str_of_float f
  end.

(** An answer to the question of [saveas] that makes it ask again. *)
Definition unclear (ans : str) : Prop := ans ≠ "y" ∧ ans ≠ "n".

(** A computation that leaves the file system alone, however it ends. *)
Definition leaves_os {W A} (m : M W A) : Prop :=
  ∀ σ, os (m σ).1 = os σ.

(** The table after is the table before in every cell outside the column
    named [col] (in every cell, when there is no such column), with the
    same column mapping. *)
Definition same_outside (col : str) : relation Pedestal := λ p p',
  cols p' = cols p
  ∧ ∀ i j, cols p !! col ≠ Some j → cell_at p' i j = cell_at p i j.

(** The characters of a detector name before its first underscore, and
    the rest of the name. *)
Fixpoint until_underscore (s : str) : str * str :=
  match s with
  | [] => ([], [])
  | c :: s' =>
      if Ascii.eqb c "_" then ([], s)
      else let '(a, b) := until_underscore s' in (c :: a, b)
  end.

(** The two ways in which [save] gives up: its [RuntimeError] caught and
    reported, or an exception let through. *)
Definition save_failed {W} (σ : state W) (w : W) : state W * res unit :=
  (mkState (self σ) w (stdout σ ++ ["Runtime error occurred."]), Ret ()).

Definition save_raised {W} (σ : state W) (w : W) (e : exn) : state W * res unit :=
  (mkState (self σ) w (stdout σ), Raise e).

(** What the loop body of the weight functions takes from a row before it
    prints: the detector name, the outcome of the test and the weight. *)
Definition row_data {float_text : FloatText} (field : str)
    (pick : str → res (str * bool)) (row : gmap str str) : res (str * bool * float) :=
  let? tile := res_of_option KeyError (row !! "detno") in
  let? d := pick tile in
  let? text := res_of_option KeyError (row !! field) in
  let? weight := res_of_option ValueError (float_of_str text) in
  Ret (d.1, d.2, weight).

(** The rows that pass the test, in their order. *)
Definition selected (data : list (str * bool * float)) : list (str * float) :=
  omap (λ d, if d.1.2 : bool then Some (d.1.1, d.2) else None) data.

(** The sum of weights added one after the other to the integer 0. *)
Definition total (ws : list float) : Weights.num :=
  match ws with
  | [] => Weights.NInt 0
  | w :: ws => Weights.NFloat (foldl PrimFloat.add (0 + w)%float ws)
  end.

(** What a weight function prints for its rows and sums. *)
Definition weight_lines {float_fixed : FloatFixed} (rows_ : list (str * float)) : list str :=
  (λ d, Weights.weight_line d.1 d.2) <$> rows_.

Definition weights_output {float_text : FloatText} {float_fixed : FloatFixed}
    (cos sin : list (str * float)) : list str :=
  [[LF] ++ "Cosine weights:"] ++ weight_lines cos
  ++ [[LF; LF] ++ "Sine weights:"] ++ weight_lines sin
  ++ [[LF];
      "Sum of cosine weights: " ++ Weights.str_of_num (total cos.*2);
      "  Sum of sine weights: " ++ Weights.str_of_num (total sin.*2);
      [LF]].

(** ** More tables to run the model on *)

(** A table whose second entry is one cell shorter than its first. *)
Definition short_table : Pedestal := {|
  cols := {[ "A" := 0; "B" := 1; "C" := 2 ]};
  entries := [[CStr "1"; CStr "2"; CStr "3"]; [CStr "4"; CStr "5"]];
  headers := ["A"; "B"; "C"];
  name := "ped";
  names := ["x"; "y"];
  path := "dir/";
  rows := {[ "x" := 0; "y" := 1 ]};
|}.

(** A file system on which a file is taken away as soon as it is written:
    [open(path, "w")] and the writes return, and the file is not there
    afterwards. *)
Record vanishing := mkVanishing { under : disk }.

#[global] Instance vanishing_os : OS vanishing := {|
  isfile v p := isfile (under v) p;
  rename src dst v := let '(d, r) := disk_rename src dst (under v) in (mkVanishing d, r);
  remove p v := let '(d, r) := disk_remove p (under v) in (mkVanishing d, r);
  write_text p text v := (v, Done);
  read_text p v := read_text p (under v);
|}.

(** A stand-in for the interpreter's [format(f, ".4f")], and rows of a CSV
    file of weights. *)
Definition sample_float_fixed : FloatFixed := {| format_4f f := "0.5000" |}.

Definition weight_csv_row (detno cos sin : str) : gmap str str :=
  {[ "detno" := detno; " mean_of_cos" := cos; " mean_of_sin" := sin ]}.

Definition sample_weights : list (gmap str str) :=
  [weight_csv_row "150151" "0.5" "0.5"; weight_csv_row "110120" "0.5" "0.5";
   weight_csv_row "110152" "0.5" "0.0123"; weight_csv_row "150253" "0.5" "0.5"].

(** * Properties *)

(** ** The built-in operations on examples *)

Example int_of_str_examples :
  Py.int_of_str "12" = Ret 12%Z ∧ Py.int_of_str " +7 " = Ret 7%Z ∧
  Py.int_of_str "-1" = Ret (-1)%Z ∧ Py.int_of_str "1_1" = Ret 11%Z ∧
  Py.int_of_str "1_" = Raise ValueError ∧ Py.int_of_str "" = Raise ValueError ∧
  Py.int_of_str "+ 1" = Raise ValueError ∧ Py.int_of_str "1e3" = Raise ValueError.
Proof. repeat split; reflexivity. Qed.

Example format_examples :
  Py.format_int_zero 2 (-1) = "-1" ∧ Py.format_int_zero 2 5 = "05" ∧
  Py.format_int_zero 2 100 = "100" ∧ Py.format_int_zero 2 0 = "00" ∧
  Py.center 14 "abc" = "     abc      " ∧ Py.ljust 12 "x" = "x           " ∧
  Py.rjust 14 "abcdefghijklmnop" = "abcdefghijklmnop".
Proof. repeat split; reflexivity. Qed.

Example slice_examples :
  Py.slice "abc" (Some (-5)%Z) None = "abc" ∧ Py.slice "abc" (Some 1%Z) (Some (-4)%Z) = "" ∧
  Py.slice "abcdef" (Some 2%Z) (Some 4%Z) = "cd" ∧ Py.slice "abc" (Some 2%Z) (Some 4%Z) = "c" ∧
  Py.getitem "abc" (-1) = Ret "c"%char ∧ Py.getitem "abc" 3 = Raise IndexError.
Proof. repeat split; reflexivity. Qed.

Example float_int_examples :
  Py.float_of_int (2 ^ 53 + 1) = Ret 9007199254740992%float ∧
  Py.float_of_int (10 ^ 400) = Raise OverflowError ∧
  Py.int_of_float (-3.5)%float = Ret (-3)%Z ∧
  Py.int_of_float nan = Raise ValueError.
Proof. repeat split; vm_compute; reflexivity. Qed.

Example int_of_float_examples :
  Py.int_of_float 1e22 = Ret (10 ^ 22)%Z ∧ Py.int_of_float (-0.5) = Ret 0%Z
  ∧ Py.int_of_float infinity = Raise OverflowError
  ∧ Py.float_of_int (2 ^ 1024 - 2 ^ 970) = Raise OverflowError
  ∧ Py.float_of_int (2 ^ 1024 - 2 ^ 970 - 1) = Ret 0x1.fffffffffffffp+1023%float.
Proof. repeat split; vm_compute; reflexivity. Qed.

Example split_examples :
  split ("  a" ++ ["009"%char] ++ "b " ++ ["133"%char] ++ "c" ++ [LF]) = ["a"; "b"; "c"]
  ∧ split "   " = []
  ∧ readlines ("! Name A" ++ [LF] ++ "x 1" ++ [CR] ++ "y 2" ++ [CR; LF] ++ "z 3")
    = ["! Name A" ++ [LF]; "x 1" ++ [LF]; "y 2" ++ [LF]; "z 3"]
  ∧ join " " ["a"; "b"; "c"] = "a b c".
Proof. repeat split; reflexivity. Qed.

Example docstring_examples :
  Tile.detector_name "150110" = Ret "TQ01_R1" ∧
  Tile.detector_name "110851" = Ret "TQ16_R5L" ∧
  Tile.detector_name "151120" = Ret "TQ21_R2" ∧
  TqWeights.detector_name "110851" = Ret "tq16_r5l".
Proof. repeat split; reflexivity. Qed.

(** ** Tile codes *)

Lemma digit_inv c d :
  Py.digit c = Some d → c = Py.digit_char d ∧ (0 ≤ d ≤ 9)%Z.
Proof.
  destruct c as [[] [] [] [] [] [] [] []]; vm_compute; intros [= <-];
    (split; [reflexivity | split; discriminate]).
Qed.

Ltac digit_cases H :=
  let d := lazymatch type of H with Py.digit _ = Some ?d => d end in
  apply digit_inv in H as [-> ?];
  assert (d = 0 ∨ d = 1 ∨ d = 2 ∨ d = 3 ∨ d = 4 ∨ d = 5 ∨ d = 6 ∨ d = 7
          ∨ d = 8 ∨ d = 9)%Z as Hd by lia;
  repeat destruct Hd as [-> | Hd]; [..|subst d].

Lemma detector_spelled seg R P :
  Tile.detector seg R P
  = "TQ" ++ Py.format_int_zero 2 seg ++ "_R" ++ [R] ++ Tile.spec_suffix P.
Proof.
  unfold Tile.detector, Tile.spec_suffix. simpl.
  destruct (Ascii.eqb_spec P "1") as [->|?];
    [by rewrite <- app_assoc | rewrite bool_decide_eq_false_2 by assumption].
  destruct (Ascii.eqb_spec P "2") as [->|?];
    [by rewrite <- app_assoc | rewrite bool_decide_eq_false_2 by assumption].
  destruct (Ascii.eqb_spec P "3") as [->|?];
    [by rewrite <- app_assoc | rewrite bool_decide_eq_false_2 by assumption].
  reflexivity.
Qed.




(** C4, as the specification has it, fails: the tile code 151220 is decoded
    to the detector name TQ23_R2 (segment 2*12 - 1 = 23), not to TQ21_R2. *)
Lemma tile_151220_is_not_TQ21 :
  Tile.detector_name "151220" = Ret "TQ23_R2"
  ∧ Tile.detector_name "151220" ≠ Ret "TQ21_R2".
Proof. split; [reflexivity | vm_compute; discriminate]. Qed.

(** ** The file name *)

Lemma slice_suffix (s : str) (n : nat) :
  0 < n ≤ length s → Py.slice s (Some (- Z.of_nat n)%Z) None = drop (length s - n) s.
Proof.
  intros Hn. unfold Py.slice, Py.bound. simpl.
  destruct (Z.ltb_spec (- Z.of_nat n) 0); [|lia].
  replace (Z.to_nat (Z.max 0 (Z.of_nat (length s) + - Z.of_nat n)))
    with (length s - n) by lia.
  apply take_ge. rewrite length_drop. lia.
Qed.

Lemma slice_prefix (s : str) (n : nat) :
  n ≤ length s → Py.slice s None (Some (Z.of_nat n)) = take n s.
Proof.
  intros Hn. unfold Py.slice, Py.bound. simpl.
  destruct (Z.ltb_spec (Z.of_nat n) 0); [lia|].
  rewrite drop_0, Nat.sub_0_r. f_equal. lia.
Qed.

Lemma slice_drop_tail (s : str) (n : nat) :
  0 < n ≤ length s → Py.slice s None (Some (- Z.of_nat n)%Z) = take (length s - n) s.
Proof.
  intros Hn. unfold Py.slice, Py.bound. simpl.
  destruct (Z.ltb_spec (- Z.of_nat n) 0); [|lia].
  rewrite drop_0, Nat.sub_0_r. f_equal. lia.
Qed.

Lemma slice_middle (s : str) (a n : nat) :
  0 < n → a + n ≤ length s →
  Py.slice s (Some (Z.of_nat a)) (Some (- Z.of_nat n)%Z)
  = take (length s - n - a) (drop a s).
Proof.
  intros ? Hn. unfold Py.slice, Py.bound. simpl.
  destruct (Z.ltb_spec (- Z.of_nat n) 0); [|lia].
  destruct (Z.ltb_spec (Z.of_nat a) 0); [lia|].
  f_equal; [|f_equal]; lia.
Qed.

Lemma getitem_from_end (s : str) (k : nat) :
  0 < k ≤ length s → Py.getitem s (- Z.of_nat k) = res_of_option IndexError (s !! (length s - k)).
Proof.
  intros Hk. unfold Py.getitem, Py.index.
  destruct (Z.leb_spec 0 (- Z.of_nat k)); [lia|].
  destruct (Z.leb_spec (- Z.of_nat (length s)) (- Z.of_nat k)); [|lia].
  do 2 f_equal. lia.
Qed.

Lemma name_loop_S fuel filepath i :
  name_loop (S fuel) filepath i =
    let len := Z.of_nat (length filepath) in
    match Py.getitem filepath i with
    | Raise e => Some (Raise e)
    | Ret char =>
        if Ascii.eqb char "/" then
          let i := (i + 1)%Z in
          Some (Ret (Py.slice filepath (Some (len + i)%Z) (Some (-4)%Z),
                     Some (Py.slice filepath None (Some (len + i)%Z))))
        else if (Z.abs i =? len)%Z then
          Some (Ret (Py.slice filepath None (Some (-4)%Z), None))
        else if (Z.abs i >? len)%Z then Some (Raise RuntimeError)
        else name_loop fuel filepath (i - 1)
    end.
Proof. reflexivity. Qed.

(** What the loop has found when it stands [k] characters before the
    extension. *)
Lemma name_loop_spec (filepath : str) (fuel k : nat) :
  drop (length filepath - 4) filepath = ".map" →
  5 + k ≤ length filepath →
  length filepath - 4 - k ≤ fuel →
  "/"%char ∉ take k (drop (length filepath - 4 - k) filepath) →
  ∃ nm d,
    name_loop fuel filepath (- Z.of_nat (5 + k)) = Some (Ret (nm, d))
    ∧ default "" d ++ nm ++ ".map" = filepath
    ∧ ("/"%char ∉ nm)
    ∧ ("/"%char ∉ filepath → d = None).
Proof.
  intros Hext. revert k. induction fuel as [|fuel IH]; intros k Hk Hfuel Hseen; [lia|].
  rewrite name_loop_S, getitem_from_end by lia. cbv zeta.
  destruct (lookup_lt_is_Some_2 filepath (length filepath - (5 + k))) as [char Hchar]; [lia|].
  rewrite Hchar. cbn [res_of_option].
  assert (take (length filepath - 4) filepath ++ ".map" = filepath) as Hsplit.
  { rewrite <- Hext. apply take_drop. }
  destruct (Ascii.eqb_spec char "/") as [->|Hchar'].
  - replace (Z.of_nat (length filepath) + (- Z.of_nat (5 + k) + 1))%Z
      with (Z.of_nat (length filepath - 4 - k)) by lia.
    rewrite (slice_middle filepath _ 4), slice_prefix by lia.
    replace (length filepath - 4 - (length filepath - 4 - k)) with k by lia.
    do 2 eexists. split; [reflexivity|]. simpl. split; [|split].
    + rewrite app_assoc, take_take_drop.
      by replace (length filepath - 4 - k + k) with (length filepath - 4) by lia.
    + done.
    + intros Hno. exfalso. apply Hno. by eapply list_elem_of_lookup_2.
  - assert ("/"%char ∉ take (S k) (drop (length filepath - (5 + k)) filepath)) as Hseen'.
    { rewrite (drop_S _ _ _ Hchar). rewrite firstn_cons.
      apply not_elem_of_cons. split; [done|].
      by replace (S (length filepath - (5 + k))) with (length filepath - 4 - k) by lia. }
    destruct (Z.eqb_spec (Z.abs (- Z.of_nat (5 + k))) (Z.of_nat (length filepath))) as [Hall|Hmore].
    + change (-4)%Z with (- Z.of_nat 4)%Z.
      rewrite (slice_drop_tail filepath 4) by lia.
      do 2 eexists. split; [reflexivity|]. simpl. split; [done|]. split; [|done].
      replace (length filepath - (5 + k)) with 0 in Hseen' by lia.
      by replace (S k) with (length filepath - 4) in Hseen' by lia.
    + destruct (Z.gtb_spec (Z.abs (- Z.of_nat (5 + k))) (Z.of_nat (length filepath))); [lia|].
      replace (- Z.of_nat (5 + k) - 1)%Z with (- Z.of_nat (5 + S k))%Z by lia.
      apply IH; [lia..|].
      by replace (length filepath - 4 - S k) with (length filepath - (5 + k)) by lia.
Qed.

Lemma name_loop_fuel (filepath : str) (fuel k : nat) :
  0 < fuel → length filepath - 4 - k ≤ fuel →
  is_Some (name_loop fuel filepath (- Z.of_nat (5 + k))).
Proof.
  revert k. induction fuel as [|fuel IH]; intros k ? Hfuel; [lia|].
  rewrite name_loop_S. cbv zeta.
  destruct (Py.getitem _ _) as [char|]; [|by eexists].
  destruct (Ascii.eqb char "/"); [by eexists|].
  destruct (Z.eqb_spec (Z.abs (- Z.of_nat (5 + k))) (Z.of_nat (length filepath)));
    [by eexists|].
  destruct (Z.gtb_spec (Z.abs (- Z.of_nat (5 + k))) (Z.of_nat (length filepath)));
    [by eexists|].
  replace (- Z.of_nat (5 + k) - 1)%Z with (- Z.of_nat (5 + S k))%Z by lia.
  apply IH; lia.
Qed.

(** The loop of [__init__] ends for every path. *)
Lemma read_name_terminates (filepath : str) :
  is_Some (name_loop (S (length filepath)) filepath (-5)).
Proof. apply (name_loop_fuel filepath _ 0); lia. Qed.

Lemma read_name_spec (filepath : str) :
  5 ≤ length filepath →
  Py.slice filepath (Some (-4)%Z) None = ".map" →
  ∃ nm d,
    read_name filepath = Ret (nm, d)
    ∧ default "" d ++ nm ++ ".map" = filepath
    ∧ ("/"%char ∉ nm)
    ∧ ("/"%char ∉ filepath → d = None).
Proof.
  intros Hlen Hext. change (-4)%Z with (- Z.of_nat 4)%Z in Hext.
  rewrite slice_suffix in Hext by lia.
  destruct (name_loop_spec filepath (S (length filepath)) 0) as (nm & d & Hloop & ?);
    [done|lia|lia|apply not_elem_of_nil|].
  exists nm, d. split; [|done]. unfold read_name.
  change (-5)%Z with (- Z.of_nat (5 + 0))%Z. by rewrite Hloop.
Qed.

(** ** Running a method *)

Section Run.
Context {W : Type}.

Lemma run_bind {A B} (m : M W A) (k : A → M W B) σ :
  (m ≫= k) σ =
    match m σ with
    | (σ', Ret a) => k a σ'
    | (σ', Raise e) => (σ', Raise e)
    end.
Proof. reflexivity. Qed.

Context (R : relation Pedestal) `{!PreOrder R}.

Lemma keeps_ret {A} (a : A) : keeps R (mret a : M W A).
Proof. intros σ. reflexivity. Qed.

Lemma keeps_raise {A} e : keeps R (raise e : M W A).
Proof. intros σ. reflexivity. Qed.

Lemma keeps_lift {A} (r : res A) : keeps R (lift r : M W A).
Proof. intros σ. reflexivity. Qed.

Lemma keeps_get_self : keeps R (get_self : M W Pedestal).
Proof. intros σ. reflexivity. Qed.

Lemma keeps_print s : keeps R (print s : M W unit).
Proof. intros σ. reflexivity. Qed.

Lemma keeps_os_query {A} (f : W → A) : keeps R (os_query f).
Proof. intros σ. reflexivity. Qed.

Lemma keeps_os_call f : keeps R (os_call f : M W unit).
Proof. intros σ. unfold os_call. destruct (f (os σ)). reflexivity. Qed.

Lemma keeps_update_self f : (∀ p, R p (f p)) → keeps R (update_self f : M W unit).
Proof. intros Hf σ. apply Hf. Qed.

Lemma keeps_bind {A B} (m : M W A) (k : A → M W B) :
  keeps R m → (∀ a, keeps R (k a)) → keeps R (m ≫= k).
Proof.
  intros Hm Hk σ. rewrite run_bind. specialize (Hm σ).
  destruct (m σ) as [σ' [a|e]]; [|done].
  etrans; [exact Hm|]. apply Hk.
Qed.

Lemma keeps_try_except {A} (m h : M W A) e :
  keeps R m → keeps R h → keeps R (try_except m e h).
Proof.
  intros Hm Hh σ. unfold try_except. specialize (Hm σ).
  destruct (m σ) as [σ' [a|e']]; [done|].
  destruct (decide (e' = e)); [|done].
  etrans; [exact Hm|]. apply Hh.
Qed.

Lemma keeps_for_each {A} (l : list A) (body : A → M W unit) :
  (∀ x, keeps R (body x)) → keeps R (for_each l body).
Proof.
  intros Hbody. induction l as [|x l IH]; simpl.
  - apply keeps_ret.
  - apply keeps_bind; [apply Hbody | intros _; apply IH].
Qed.

Lemma keeps_for_each_return {A} (l : list A) (body : A → M W flow) :
  (∀ x, keeps R (body x)) → keeps R (for_each_return l body).
Proof.
  intros Hbody. induction l as [|x l IH]; simpl.
  - apply keeps_ret.
  - apply keeps_bind; [apply Hbody | intros []; [apply IH | apply keeps_ret]].
Qed.

End Run.

Create HintDb keeps discriminated.
#[global] Hint Resolve keeps_ret keeps_raise keeps_lift keeps_get_self keeps_print
  keeps_os_query keeps_os_call keeps_bind keeps_try_except keeps_for_each
  keeps_for_each_return : keeps.

Ltac keeps_step :=
  lazymatch goal with
  | |- PreOrder _ => apply _
  | |- keeps _ (if ?b then _ else _) => destruct b
  | |- keeps _ (match ?x with _ => _ end) => destruct x
  | |- keeps _ (let '(_, _) := ?x in _) => destruct x
  | |- keeps _ (update_self _) => apply keeps_update_self; intros ?
  | |- keeps _ (_ ≫= _) => apply keeps_bind; [apply _| |intros ?]
  | |- keeps _ (try_except _ _ _) => apply keeps_try_except; [apply _| |]
  | |- keeps _ (for_each _ _) => apply keeps_for_each; [apply _|intros ?]
  | |- keeps _ (for_each_return _ _) => apply keeps_for_each_return; [apply _|intros ?]
  | |- keeps _ _ => solve [eauto with keeps typeclass_instances]
  end.

Ltac keeps_auto := repeat keeps_step.

(** ** Setters *)

Section Setters.
Context {W : Type}.

(** C7.  [setcol] with a not-a-number value raises [TypeError] and leaves
    the state as it was, whatever the column index (nothing is written
    before the rejection), and so does [setcols] for every list of column
    names. *)
Theorem setcol_rejects_nan (σ : state W) (f : float) :
  PrimFloat.is_nan f = true →
  (∀ col : Z, setcol col (CFloat f) σ = (σ, Raise TypeError))
  ∧ (∀ cols_ : list str, setcols cols_ (CFloat f) σ = (σ, Raise TypeError)).
Proof.
  intros Hnan. split; intros ?.
  - unfold setcol. rewrite run_bind. unfold lift at 1. simpl. by rewrite Hnan.
  - unfold setcols. rewrite run_bind. unfold lift at 1. simpl. by rewrite Hnan.
Qed.

(** A value that is no number at all is refused by [math.isnan] itself,
    again before anything is written. *)
Lemma setcol_rejects_str (σ : state W) (col : Z) (s : str) :
  setcol col (CStr s) σ = (σ, Raise TypeError).
Proof. reflexivity. Qed.

End Setters.

Lemma setcol_rejects_nan_witness :
  (∀ col : Z, setcol col (CFloat nan) sample_state = (sample_state, Raise TypeError))
  ∧ (∀ cols_ : list str,
       setcols cols_ (CFloat nan) sample_state = (sample_state, Raise TypeError)).
Proof. apply (setcol_rejects_nan sample_state nan). reflexivity. Defined.

(** ** Derived statistics *)




Section Statistics.
Context {float_text : FloatText}.


End Statistics.


Example hwsum_sample :
  hwsum (float_text:=sample_float_text) sample_table "TQ23_R2"
  = Ret (600%float, 30618.621784789728%float).
Proof. vm_compute. reflexivity. Qed.

(** ** Saving *)

Section Saving.
Context {W : Type} {os_w : OS W} {float_text : FloatText}.

(** C3.  When the backup file is there, [save] stops at its first check:
    the [RuntimeError] it raises is caught and reported on the standard
    output, and the file system (the backup, the current file and all the
    rest) is what it was. *)
Theorem save_refuses_stale_backup (σ : state W) :
  isfile (os σ) (oldfile (self σ)) = true →
  save σ = (mkState (self σ) (os σ) (stdout σ ++ ["Runtime error occurred."]), Ret ()).
Proof.
  intros Hold. unfold save. rewrite run_bind. unfold get_self at 1.
  unfold try_except. rewrite run_bind. unfold os_query at 1. rewrite Hold.
  rewrite run_bind. unfold raise at 1. cbn [decide]. reflexivity.
Qed.

(** C5, as the code has it.  When the backup was made, the new file was
    written and found, and the backup is still there after [os.remove],
    [save] does not return: the [RuntimeWarning] that it raises (or the
    [OSError] of [os.remove]) is not caught by its handler of
    [RuntimeError], nothing is printed, and the file system is left as
    [os.remove] left it. *)
Theorem save_backup_left (σ : state W) (w1 w2 w3 : W) (text : str) (st : os_status) :
  isfile (os σ) (oldfile (self σ)) = false →
  rename (currentfile (self σ)) (oldfile (self σ)) (os σ) = (w1, Done) →
  isfile w1 (oldfile (self σ)) = true →
  isfile w1 (currentfile (self σ)) = false →
  map_text (self σ) = (text, Ret ()) →
  write_text (currentfile (self σ)) text w1 = (w2, Done) →
  isfile w2 (currentfile (self σ)) = true →
  remove (oldfile (self σ)) w2 = (w3, st) →
  isfile w3 (oldfile (self σ)) = true →
  save σ = (mkState (self σ) w3 (stdout σ),
            Raise (match st with Done => RuntimeWarning | Failed => OSError end)).
Proof.
  intros Hold Hren Hold1 Hcur1 Htext Hwrite Hcur2 Hrem Hold3.
  unfold save. rewrite run_bind. unfold get_self at 1.
  unfold try_except. rewrite run_bind. unfold os_query at 1. rewrite Hold.
  rewrite run_bind. unfold mret at 1, M_ret at 1.
  rewrite run_bind. unfold os_call at 1. cbn [os self stdout]. rewrite Hren.
  rewrite run_bind. unfold os_query at 1. cbn [os]. rewrite Hold1, Hcur1. cbn [negb andb].
  rewrite run_bind. unfold mret at 1, M_ret at 1.
  rewrite run_bind. unfold writemap at 1. rewrite run_bind. unfold get_self at 1.
  cbn [self]. rewrite Htext. rewrite run_bind. unfold os_call at 1. cbn [os self stdout].
  rewrite Hwrite. unfold lift at 1.
  rewrite run_bind. unfold os_query at 1. cbn [os]. rewrite Hcur2.
  rewrite run_bind. unfold mret at 1, M_ret at 1. cbn [andb].
  rewrite run_bind. unfold os_call at 1. cbn [os self stdout]. rewrite Hrem.
  destruct st; [|reflexivity].
  rewrite run_bind. unfold os_query at 1. cbn [os]. rewrite Hold3. reflexivity.
Qed.

End Saving.

Lemma save_refuses_stale_backup_witness :
  save (float_text:=sample_float_text) stale_state
  = (mkState sample_table (os stale_state) ["Runtime error occurred."], Ret ()).
Proof.
  apply (save_refuses_stale_backup (float_text:=sample_float_text) stale_state).
  vm_compute. reflexivity.
Defined.

(** C5, as the specification has it, fails: with a backup that stays after
    [os.remove], the new file and the backup are both there and [save] ends
    by a raised [RuntimeWarning], without ["Save successful."]. *)
Lemma lingering_backup_makes_save_raise :
  let r := save (float_text:=sample_float_text) lingering_state in
  isfile (os r.1) "dir/ped.map" = true
  ∧ isfile (os r.1) "dir/ped_old.map" = true
  ∧ r.2 = Raise RuntimeWarning
  ∧ r.2 ≠ Ret ()
  ∧ stdout r.1 = [].
Proof. vm_compute. repeat split; discriminate. Qed.

Lemma save_backup_left_witness :
  ∃ w3,
    save (float_text:=sample_float_text) lingering_state
    = (mkState sample_table w3 [], Raise RuntimeWarning).
Proof.
  eexists.
  eapply (save_backup_left (float_text:=sample_float_text) lingering_state _ _ _ _ Done);
    vm_compute; reflexivity.
Defined.

Example save_sample :
  let r := save (float_text:=sample_float_text) sample_state in
  r.2 = Ret ()
  ∧ stdout r.1 = ["Save successful."]
  ∧ isfile (os r.1) "dir/ped_old.map" = false
  ∧ read_text "dir/ped.map" (os r.1)
    = Some ("! Name        VoltPerHz    NormRate(Hz/uA)" ++ [LF]
            ++ "TQ23_R2                0.5             12" ++ [LF]
            ++ "TQ16_R5L               0.5              7" ++ [LF]).
Proof. vm_compute. repeat split. Qed.

(** ** Importing rates *)

Section Importing.
Context {W : Type} {float_text : FloatText}.

Lemma getitem_nat {A} (l : list A) (i : nat) :
  Py.getitem l (Z.of_nat i) = res_of_option IndexError (l !! i).
Proof.
  unfold Py.getitem, Py.index.
  destruct (Z.leb_spec 0 (Z.of_nat i)); [|lia].
  destruct (Z.ltb_spec (Z.of_nat i) (Z.of_nat (length l))).
  - by rewrite Nat2Z.id.
  - rewrite lookup_ge_None_2; [done|lia].
Qed.

Lemma index_nat (len i : nat) :
  Py.index len (Z.of_nat i) = if i <? len then Some i else None.
Proof.
  unfold Py.index.
  destruct (Z.leb_spec 0 (Z.of_nat i)); [|lia].
  destruct (Z.ltb_spec (Z.of_nat i) (Z.of_nat len)), (Nat.ltb_spec i len);
    try lia; [by rewrite Nat2Z.id | done].
Qed.

Lemma index_lt len i n : Py.index len i = Some n → n < len.
Proof.
  unfold Py.index.
  destruct (Z.leb_spec 0 i); [destruct (Z.ltb_spec i (Z.of_nat len))
                             |destruct (Z.leb_spec (- Z.of_nat len) i)];
    intros [= <-]; lia.
Qed.

Lemma setval_unfold (row col : Z) (val : cell) (σ : state W) :
  setval row col val σ =
    match Py.index (length (entries (self σ))) row with
    | None => (σ, Raise IndexError)
    | Some r =>
        match entries (self σ) !! r with
        | None => (σ, Raise IndexError)
        | Some entry =>
            match Py.index (length entry) col with
            | None => (σ, Raise IndexError)
            | Some c =>
                (mkState (set_entries (<[r := <[c := val]> entry]> (entries (self σ))) (self σ))
                   (os σ) (stdout σ), Ret ())
            end
        end
    end.
Proof.
  unfold setval, mbind, M_bind, get_self, lift, update_self.
  destruct (Py.index (length (entries (self σ))) row) as [r|]; [|done].
  cbn [res_of_option]. destruct (entries (self σ) !! r) as [entry|]; [|done].
  cbn [res_of_option]. by destruct (Py.index (length entry) col) as [c|].
Qed.

(** [setval] either writes one cell or raises [IndexError] and writes
    nothing. *)
Lemma setval_cases (row col : Z) (val : cell) (σ : state W) :
  (∃ r c entry,
      entries (self σ) !! r = Some entry ∧ c < length entry
      ∧ setval row col val σ
        = (mkState (set_entries (<[r := <[c := val]> entry]> (entries (self σ))) (self σ))
             (os σ) (stdout σ), Ret ()))
  ∨ setval row col val σ = (σ, Raise IndexError).
Proof.
  rewrite setval_unfold.
  destruct (Py.index (length (entries (self σ))) row) as [r|] eqn:Hr; [|by right].
  destruct (entries (self σ) !! r) as [entry|] eqn:He; [|by right].
  destruct (Py.index (length entry) col) as [c|] eqn:Hc; [|by right].
  left. exists r, c, entry. split; [done|]. split; [by eapply index_lt|done].
Qed.

Lemma setval_run (r c : nat) (val : cell) (σ : state W) entry :
  entries (self σ) !! r = Some entry → c < length entry →
  setval (Z.of_nat r) (Z.of_nat c) val σ
  = (mkState (set_entries (<[r := <[c := val]> entry]> (entries (self σ))) (self σ))
       (os σ) (stdout σ), Ret ()).
Proof.
  intros He Hc. pose proof (lookup_lt_Some _ _ _ He) as Hr.
  rewrite setval_unfold, index_nat.
  destruct (Nat.ltb_spec r (length (entries (self σ)))); [|lia].
  rewrite He, index_nat.
  destruct (Nat.ltb_spec c (length entry)); [|lia]. reflexivity.
Qed.

(** One row of the import, case by case. *)
Lemma import_row_run (row : gmap str str) (σ : state W) :
  import_row row σ =
    match decode_row row with
    | Raise e => (σ, Raise e)
    | Ret (detector, rate) =>
        match rows (self σ) !! detector, cols (self σ) !! "NormRate(Hz/uA)" with
        | Some r, Some c =>
            let '(σ', x) := setval (Z.of_nat r) (Z.of_nat c) (CInt rate) σ in
            (σ', match x with Ret _ => Ret Next | Raise e => Raise e end)
        | _, _ => abort_import σ
        end
    end.
Proof.
  assert (∀ s : state W,
    (print "There was an error constructing the detector name.";;
     print "Import failed.";; mret Return) s = abort_import s) as Habort.
  { intros s. unfold abort_import, import_failed, mbind, M_bind, print, mret, M_ret.
    cbn [self os stdout]. by rewrite <- app_assoc. }
  unfold import_row, decode_row.
  rewrite run_bind. unfold lift at 1.
  destruct (row !! "tile") as [tile|]; [|reflexivity]. cbn [res_of_option res_bind].
  rewrite run_bind. unfold lift at 1.
  destruct (Tile.decode tile) as [[[segment ring] pos]|]; [|reflexivity]. cbn [res_bind].
  rewrite run_bind. unfold lift at 1.
  destruct (row !! "Average Rate [GHz]") as [field|]; [|reflexivity].
  cbn [res_of_option res_bind].
  rewrite run_bind. unfold lift at 1.
  destruct (rate_of field) as [rate|]; [|reflexivity]. cbn [res_bind].
  unfold try_except. rewrite run_bind. unfold get_self at 1.
  rewrite run_bind. unfold lift at 1.
  destruct (rows (self σ) !! _) as [r|]; [|apply Habort]. cbn [res_of_option].
  rewrite run_bind. unfold lift at 1.
  destruct (cols (self σ) !! _) as [c|]; [|apply Habort]. cbn [res_of_option].
  rewrite run_bind.
  destruct (setval_cases (Z.of_nat r) (Z.of_nat c) (CInt rate) σ)
    as [(? & ? & ? & _ & _ & ->)| ->]; reflexivity.
Qed.

End Importing.

#[global] Instance same_shape_preorder : PreOrder same_shape.
Proof.
  split.
  - intros p. by repeat split.
  - intros p1 p2 p3 (?&?&?&?&?&?&?) (?&?&?&?&?&?&?). repeat split; congruence.
Qed.

Section Mutators.
Context {W : Type} {float_text : FloatText}.

Lemma setval_keeps_shape row col val :
  keeps same_shape (setval (W:=W) row col val).
Proof.
  intros σ.
  destruct (setval_cases row col val σ) as [(r & c & entry & He & Hc & ->)| ->];
    [|reflexivity].
  cbn [fst self]. repeat split.
  cbn [entries set_entries]. rewrite list_fmap_insert, length_insert.
  apply list_insert_id. by rewrite list_lookup_fmap, He.
Qed.

Lemma setcol_keeps_shape col val :
  keeps same_shape (setcol (W:=W) col val).
Proof. unfold setcol. keeps_auto. apply setval_keeps_shape. Qed.

Lemma setcols_keeps_shape cols_ val :
  keeps same_shape (setcols (W:=W) cols_ val).
Proof. unfold setcols. keeps_auto. apply setcol_keeps_shape. Qed.

Lemma import_row_keeps_shape row :
  keeps same_shape (import_row (W:=W) row).
Proof. unfold import_row. keeps_auto. apply setval_keeps_shape. Qed.

Lemma import_tq_rates_keeps_shape reader :
  keeps same_shape (import_tq_rates (W:=W) reader).
Proof. unfold import_tq_rates. keeps_auto. apply import_row_keeps_shape. Qed.

Lemma for_each_return_app {A} (l1 l2 : list A) (body : A → M W flow) σ :
  for_each_return (l1 ++ l2) body σ =
    match for_each_return l1 body σ with
    | (σ1, Ret Next) => for_each_return l2 body σ1
    | r => r
    end.
Proof.
  revert σ. induction l1 as [|x l1 IH]; intros σ; [done|].
  cbn [app for_each_return]. rewrite !run_bind.
  destruct (body x σ) as [σ' [[]|e]]; [apply IH|done..].
Qed.

(** C6.  When the rows before a row are imported and the detector name
    decoded from that row has no row in the table (or the table has no
    column [NormRate(Hz/uA)]), [import_tq_rates] stops at it and reports
    the failure: the table is what the import of the rows before made of
    it, so that row and the rows after it change no cell, and what was
    written for the rows before stays. *)
Theorem import_stops_at_unmatched
    (before after : list (gmap str str)) (row : gmap str str)
    (σ σ1 : state W) (detector : str) (rate : Z) :
  for_each_return before import_row σ = (σ1, Ret Next) →
  decode_row row = Ret (detector, rate) →
  rows (self σ) !! detector = None ∨ cols (self σ) !! "NormRate(Hz/uA)" = None →
  import_tq_rates (before ++ row :: after) σ
  = (mkState (self σ1) (os σ1) (stdout σ1 ++ import_failed), Ret ())
  ∧ import_tq_rates before σ
    = (mkState (self σ1) (os σ1) (stdout σ1 ++ ["Import successful."]), Ret ()).
Proof.
  intros Hbefore Hrow Hmiss.
  assert (keeps same_shape (for_each_return (W:=W) before import_row)) as Hshape.
  { keeps_auto. apply import_row_keeps_shape. }
  specialize (Hshape σ). rewrite Hbefore in Hshape.
  destruct Hshape as (Hcols & _ & _ & _ & _ & Hrows & _). cbn [fst] in *.
  split.
  - unfold import_tq_rates. rewrite run_bind, for_each_return_app, Hbefore.
    cbn [for_each_return]. rewrite run_bind, import_row_run, Hrow, Hrows, Hcols.
    destruct Hmiss as [-> | ->]; [done|].
    by destruct (rows (self σ) !! detector).
  - unfold import_tq_rates. by rewrite run_bind, Hbefore.
Qed.

(** C4, as the code has it.  The tile code 151220 is decoded to the
    detector name TQ23_R2 (segment 2*12 - 1 = 23, ring 2, no suffix), and a
    row of the CSV file with this tile has its rate written to the table
    row named TQ23_R2, in the column [NormRate(Hz/uA)]. *)
Theorem tile_151220_row (σ : state W) (field : str) (rate : Z) (r c : nat) entry :
  rate_of field = Ret rate →
  rows (self σ) !! "TQ23_R2" = Some r →
  cols (self σ) !! "NormRate(Hz/uA)" = Some c →
  entries (self σ) !! r = Some entry →
  c < length entry →
  Tile.detector_name "151220" = Ret "TQ23_R2"
  ∧ import_row (csv_row "151220" field) σ
    = (mkState (set_entries (<[r := <[c := CInt rate]> entry]> (entries (self σ))) (self σ))
         (os σ) (stdout σ), Ret Next).
Proof.
  intros Hrate Hr Hc He Hlt. split; [reflexivity|].
  rewrite import_row_run.
  assert (decode_row (csv_row "151220" field) = Ret ("TQ23_R2", rate)) as ->.
  { unfold decode_row, csv_row.
    rewrite lookup_insert_eq. cbn [res_of_option res_bind].
    change (Tile.decode "151220") with (Ret (A:=Z * ascii * ascii) (23%Z, "2"%char, "0"%char)).
    cbn [res_bind].
    rewrite lookup_insert_ne, lookup_singleton_eq by done. cbn [res_of_option res_bind].
    rewrite Hrate. reflexivity. }
  rewrite Hr, Hc. by rewrite (setval_run r c _ σ entry).
Qed.

Lemma mutation_same_shape (σ σ' : state W) :
  mutation σ σ' → same_shape (self σ) (self σ').
Proof.
  intros [σ0 row col val|σ0 col val|σ0 cols_ val|σ0 reader].
  - apply setval_keeps_shape.
  - apply setcol_keeps_shape.
  - apply setcols_keeps_shape.
  - apply import_tq_rates_keeps_shape.
Qed.

Lemma mutations_same_shape (σ σ' : state W) :
  rtc mutation σ σ' → same_shape (self σ) (self σ').
Proof.
  induction 1 as [|σ1 σ2 σ3 Hstep _ IH]; [reflexivity|].
  etrans; [by apply mutation_same_shape|done].
Qed.

End Mutators.

Lemma tile_151220_row_witness :
  Tile.detector_name "151220" = Ret "TQ23_R2"
  ∧ import_row (float_text:=sample_float_text) (csv_row "151220" "0.0123") sample_state
    = (mkState
         (set_entries [[CStr "0.5"; CInt 189230]; [CStr "0.5"; CStr "7"]] sample_table)
         sample_disk [], Ret Next).
Proof.
  apply (tile_151220_row (float_text:=sample_float_text)
           sample_state "0.0123" 189230 0 1 [CStr "0.5"; CStr "12"]);
    [vm_compute; reflexivity..|simpl; lia].
Defined.

Lemma import_stops_at_unmatched_witness :
  import_tq_rates (float_text:=sample_float_text) sample_reader sample_state
  = (mkState
       (set_entries [[CStr "0.5"; CInt 189230]; [CStr "0.5"; CStr "7"]] sample_table)
       sample_disk import_failed, Ret ())
  ∧ import_tq_rates (float_text:=sample_float_text) [csv_row "151220" "0.0123"] sample_state
    = (mkState
         (set_entries [[CStr "0.5"; CInt 189230]; [CStr "0.5"; CStr "7"]] sample_table)
         sample_disk ["Import successful."], Ret ()).
Proof.
  apply (import_stops_at_unmatched (float_text:=sample_float_text)
           [csv_row "151220" "0.0123"] [csv_row "110851" "0.5"] (csv_row "150110" "0.5")
           sample_state
           (mkState
              (set_entries [[CStr "0.5"; CInt 189230]; [CStr "0.5"; CStr "7"]] sample_table)
              sample_disk [])
           "TQ01_R1" 7692307);
    [vm_compute; reflexivity | vm_compute; reflexivity | left; vm_compute; reflexivity].
Defined.

(** ** Construction *)

#[global] Instance same_file_preorder : PreOrder same_file.
Proof.
  split.
  - intros p. split; reflexivity.
  - intros p1 p2 p3 [? ?] [? ?]. split; congruence.
Qed.

Section Construction.
Context {W : Type} {os_w : OS W} {float_text : FloatText}.

Lemma read_records_keeps_file n lines :
  keeps same_file (read_records (W:=W) n lines).
Proof.
  revert n. induction lines as [|line lines IH]; intros n; simpl.
  - keeps_auto.
  - apply keeps_bind; [apply _| |intros _; apply IH].
    unfold read_record. keeps_auto; done.
Qed.

Lemma read_table_keeps_file filepath :
  keeps same_file (read_table (W:=W) filepath).
Proof.
  unfold read_table. keeps_auto; try done. apply read_records_keeps_file.
Qed.

(** C10.  A path that passes the checks of the constructor is split into
    [path] and [name] with [path + name + ".map"] equal to the path given
    ([path] is empty when there is no [/]), and this is what the object
    holds when [__init__] ends and after every later call of a setter or of
    the import; so [save] works on the file the object was made from, and
    its backup is that path with ["_old.map"] for [".map"]. *)
Theorem init_decomposes_path (filepath : str) (σ : state W) :
  5 ≤ length filepath →
  Py.slice filepath (Some (-4)%Z) None = ".map" →
  isfile (os σ) filepath = true →
  ∃ nm d,
    read_name filepath = Ret (nm, d)
    ∧ default "" d ++ nm ++ ".map" = filepath
    ∧ ("/"%char ∉ filepath → d = None)
    ∧ ∀ σ' r σ'', init filepath σ = (σ', r) → rtc mutation σ' σ'' →
        path (self σ'') = default "" d
        ∧ name (self σ'') = nm
        ∧ path (self σ'') ++ name (self σ'') ++ ".map" = filepath
        ∧ currentfile (self σ'') = filepath
        ∧ oldfile (self σ'') = Py.slice filepath None (Some (-4)%Z) ++ "_old.map".
Proof.
  intros Hlen Hext Hfile.
  destruct (read_name_spec filepath Hlen Hext) as (nm & d & Hname & Hsplit & _ & Hnone).
  exists nm, d. do 3 (split; [done|]). intros σ' r σ'' Hinit Hcalls.
  apply mutations_same_shape in Hcalls as (_ & _ & Hsame_name & _ & Hsame_path & _).
  unfold currentfile, oldfile, pathname. rewrite Hsame_name, Hsame_path.
  revert Hinit. fold (pathname (self σ')).
  fold (currentfile (self σ')). fold (oldfile (self σ')).
  assert (Py.slice filepath None (Some (-4)%Z) = default "" d ++ nm) as Hstem.
  { change (-4)%Z with (- Z.of_nat 4)%Z. rewrite slice_drop_tail by lia.
    rewrite <- Hsplit at 2. rewrite app_assoc, take_app_length'; [done|].
    rewrite <- Hsplit at 1. rewrite !length_app. simpl. lia. }
  unfold init.
  destruct (Nat.ltb_spec (length filepath) 5); [lia|].
  rewrite bool_decide_eq_true_2 by done. cbn [negb].
  rewrite run_bind. unfold os_query at 1. rewrite Hfile. cbn [negb].
  rewrite run_bind. unfold update_self at 1.
  rewrite run_bind. unfold lift at 1. rewrite Hname.
  rewrite run_bind. unfold update_self at 1. cbn [self fst snd].
  assert (∀ s : state W,
    path (self s) = default "" d → name (self s) = nm →
    (read_table filepath;;
     p ← get_self;
     print ("Pedestal object successfully created. "
            ++ Py.str_of_int (Z.of_nat (countrows p)) ++ " rows were added.")) s
    = (σ', r) →
    path (self σ') = default "" d ∧ name (self σ') = nm) as Htail.
  { intros s Hp Hn Hrun.
    match type of Hrun with ?m s = _ =>
      assert (keeps same_file m) as Hkeeps; [|specialize (Hkeeps s)]
    end.
    { keeps_auto. apply read_table_keeps_file. }
    rewrite Hrun in Hkeeps. destruct Hkeeps as [? ?]. simpl in *. split; congruence. }
  intros Hrun.
  assert (path (self σ') = default "" d ∧ name (self σ') = nm) as [Hp Hn].
  { rewrite run_bind in Hrun. destruct d as [d|]; simpl in Hrun;
      (eapply Htail; [| |exact Hrun]; reflexivity). }
  unfold currentfile, oldfile, pathname. rewrite Hstem, Hp, Hn, <- !app_assoc.
  by rewrite Hsplit.
Qed.

End Construction.

Example init_sample :
  init "dir/ped.map" (mkState blank sample_disk [])
  = (mkState sample_table sample_disk
       ["Pedestal object successfully created. 2 rows were added."], Ret ()).
Proof. vm_compute. reflexivity. Qed.

Lemma init_decomposes_path_witness :
  ∃ nm d,
    read_name "dir/ped.map" = Ret (nm, d)
    ∧ default "" d ++ nm ++ ".map" = "dir/ped.map"
    ∧ ("/"%char ∉ ("dir/ped.map" : str) → d = None)
    ∧ ∀ σ' r σ'',
        init "dir/ped.map" (mkState blank sample_disk []) = (σ', r) →
        rtc (mutation (float_text:=sample_float_text)) σ' σ'' →
        path (self σ'') = default "" d
        ∧ name (self σ'') = nm
        ∧ path (self σ'') ++ name (self σ'') ++ ".map" = "dir/ped.map"
        ∧ currentfile (self σ'') = "dir/ped.map"
        ∧ oldfile (self σ'') = Py.slice "dir/ped.map" None (Some (-4)%Z) ++ "_old.map".
Proof.
  apply (init_decomposes_path (float_text:=sample_float_text)
           "dir/ped.map" (mkState blank sample_disk []));
    [simpl; lia | reflexivity | reflexivity].
Defined.

(** ** The invariant of the table *)

Lemma table_invariant_same_shape p p' :
  same_shape p p' → table_invariant p → table_invariant p'.
Proof.
  intros (_ & Hh & _ & Hn & _ & Hr & He) (Hlen & Hcells & Hdup).
  unfold table_invariant. rewrite Hh, Hn, Hr. split; [|split; [|done]].
  - rewrite <- Hlen, <- (length_fmap length (entries p')), He. apply length_fmap.
  - apply (Forall_fmap length (λ n, n = length (headers p))).
    rewrite He. by apply Forall_fmap.
Qed.

Lemma slice_tail {A} (x : A) (l : list A) : Py.slice (x :: l) (Some 1%Z) None = l.
Proof.
  unfold Py.slice, Py.bound. cbn [from_option length].
  destruct (Z.ltb_spec 1 0); [lia|].
  replace (Z.to_nat (Z.min 1 (Z.of_nat (S (length l))))) with 1 by lia.
  cbn [drop]. apply take_ge. lia.
Qed.

Section Reading.
Context {W : Type} {os_w : OS W}.

Lemma read_record_run n line (σ : state W) :
  read_record n line σ =
    match split line with
    | [] => (σ, Raise IndexError)
    | _ :: _ =>
        (mkState (with_records n [split line] (self σ)) (os σ) (stdout σ), Ret ())
    end.
Proof.
  unfold read_record. rewrite run_bind. unfold lift at 1.
  destruct (split line) as [|key rest]; [reflexivity|].
  change (Py.getitem (key :: rest) 0) with (Ret key).
  rewrite slice_tail. reflexivity.
Qed.

Lemma with_records_cons n record records p :
  with_records n (record :: records) p
  = with_records (S n) records (with_records n [record] p).
Proof.
  unfold with_records. destruct p. cbn. by rewrite <- !app_assoc.
Qed.

Lemma read_records_run n lines (σ : state W) :
  Forall (λ line, split line ≠ []) lines →
  read_records n lines σ
  = (mkState (with_records n (split <$> lines) (self σ)) (os σ) (stdout σ), Ret ()).
Proof.
  intros Hlines. revert n σ. induction Hlines as [|line lines Hline _ IH]; intros n σ.
  - destruct σ as [[]]. unfold with_records. cbn. by rewrite !app_nil_r.
  - cbn [read_records fmap list_fmap]. rewrite run_bind, read_record_run.
    destruct (split line) eqn:Hs; [done|]. rewrite IH. cbn [self os stdout].
    by rewrite <- with_records_cons.
Qed.

Lemma read_records_ret n lines (σ σ' : state W) :
  read_records n lines σ = (σ', Ret ()) →
  Forall (λ line, split line ≠ []) lines.
Proof.
  revert n σ. induction lines as [|line lines IH]; intros n σ; [by constructor|].
  cbn [read_records]. rewrite run_bind, read_record_run.
  destruct (split line) eqn:Hs; [done|].
  intros Hrun. constructor; [by rewrite Hs|]. by eapply IH.
Qed.

End Reading.

Section Constructed.
Context {W : Type} {os_w : OS W}.

Lemma read_table_unfold filepath (s : state W) :
  read_table filepath s =
    match read_text filepath (os s) with
    | None => (s, Raise OSError)
    | Some bytes =>
        match decode_ascii bytes with
        | Raise e => (s, Raise e)
        | Ret text =>
            match strip_first "!" (split (default [] (head (readlines text)))) with
            | Raise e => (s, Raise e)
            | Ret hs1 =>
                match strip_first "Name" hs1 with
                | Raise e => (s, Raise e)
                | Ret hs =>
                    read_records 0 (tail (readlines text))
                      (mkState
                         (set_cols (enumerate_from 0 hs (cols (self s)))
                            (set_headers hs (self s)))
                         (os s) (stdout s))
                end
            end
        end
    end.
Proof.
  unfold read_table. rewrite run_bind. unfold os_query at 1.
  rewrite run_bind. unfold lift at 1.
  destruct (read_text filepath (os s)) as [bytes|]; [|reflexivity].
  cbn [res_of_option]. rewrite run_bind. unfold lift at 1.
  destruct (decode_ascii bytes) as [text|]; [|reflexivity].
  rewrite run_bind. unfold lift at 1.
  destruct (strip_first "!" _) as [hs1|]; [|reflexivity].
  rewrite run_bind. unfold lift at 1.
  destruct (strip_first "Name" hs1) as [hs|]; reflexivity.
Qed.

Lemma init_unfold filepath (σ : state W) :
  init filepath σ =
    if length filepath <? 5 then (σ, Raise ValueError)
    else if negb (bool_decide (Py.slice filepath (Some (-4)%Z) None = ".map"))
    then (σ, Raise ValueError)
    else if negb (isfile (os σ) filepath) then (σ, Raise ValueError)
    else
      match read_name filepath with
      | Raise e =>
          (mkState (mkPedestal ∅ [] [] (name (self σ)) [] "" ∅) (os σ) (stdout σ),
           Raise e)
      | Ret (nm, d) =>
          match read_table filepath
                  (mkState (mkPedestal ∅ [] [] nm [] (default "" d) ∅) (os σ) (stdout σ))
          with
          | (s, Ret _) =>
              (mkState (self s) (os s) (stdout s ++ [created (self s)]), Ret ())
          | (s, Raise e) => (s, Raise e)
          end
      end.
Proof.
  unfold init.
  destruct (length filepath <? 5); [reflexivity|].
  destruct (negb (bool_decide _)); [reflexivity|].
  rewrite run_bind. unfold os_query at 1.
  destruct (negb (isfile (os σ) filepath)); [reflexivity|].
  rewrite run_bind. unfold update_self at 1.
  rewrite run_bind. unfold lift at 1.
  destruct (read_name filepath) as [[nm d]|]; [|reflexivity].
  rewrite run_bind. unfold update_self at 1. cbn [self os stdout fst snd].
  rewrite run_bind.
  destruct d as [d|]; cbn [default from_option id];
    [unfold update_self at 1|unfold mret at 1, M_ret at 1];
    cbn [self os stdout set_path set_name cols entries headers name names path rows];
    rewrite run_bind; destruct (read_table _ _) as [s [[]|e]]; reflexivity.
Qed.

Lemma init_run filepath (σ : state W) text nm d hs1 hs :
  5 ≤ length filepath →
  Py.slice filepath (Some (-4)%Z) None = ".map" →
  isfile (os σ) filepath = true →
  read_name filepath = Ret (nm, d) →
  read_text filepath (os σ) = Some text →
  decode_ascii text = Ret text →
  strip_first "!" (split (default [] (head (readlines text)))) = Ret hs1 →
  strip_first "Name" hs1 = Ret hs →
  Forall (λ line, split line ≠ []) (tail (readlines text)) →
  init filepath σ
  = (mkState (table_of nm d hs text) (os σ)
       (stdout σ ++ [created (table_of nm d hs text)]), Ret ()).
Proof.
  intros Hlen Hext Hfile Hname Htext Hascii Hs1 Hs Hlines.
  rewrite init_unfold.
  destruct (Nat.ltb_spec (length filepath) 5); [lia|].
  rewrite bool_decide_eq_true_2 by done. rewrite Hfile, Hname. cbn [negb].
  rewrite read_table_unfold. cbn [self os stdout]. rewrite Htext, Hascii, Hs1, Hs.
  by rewrite read_records_run.
Qed.

Lemma init_ret filepath (σ σ' : state W) text :
  init filepath σ = (σ', Ret ()) →
  read_text filepath (os σ) = Some text →
  ∃ nm d hs, self σ' = table_of nm d hs text.
Proof.
  intros Hinit Htext. revert Hinit. rewrite init_unfold.
  destruct (length filepath <? 5); [done|].
  destruct (negb (bool_decide _)); [done|].
  destruct (negb (isfile (os σ) filepath)); [done|].
  destruct (read_name filepath) as [[nm d]|]; [|done].
  rewrite read_table_unfold. cbn [self os stdout]. rewrite Htext.
  destruct (decode_ascii text) as [text'|] eqn:Hascii; [|done].
  assert (text' = text) as ->.
  { unfold decode_ascii in Hascii. by destruct (forallb _ _); simplify_eq. }
  destruct (strip_first "!" _) as [hs1|]; [|done].
  destruct (strip_first "Name" hs1) as [hs|]; [|done].
  destruct (read_records _ _ _) as [s [[]|e]] eqn:Hrecords; [|done].
  pose proof (read_records_ret _ _ _ _ Hrecords) as Hlines.
  rewrite read_records_run in Hrecords by done.
  intros [= <-]. exists nm, d, hs. by simplify_eq.
Qed.

End Constructed.

Lemma enumerate_from_size (l : list str) (n : nat) (m : gmap str nat) :
  NoDup l → (∀ k, k ∈ l → m !! k = None) →
  size (enumerate_from n l m) = length l + size m.
Proof.
  intros Hdup. revert n m. induction Hdup as [|k l Hk _ IH]; intros n m Hfresh; [done|].
  cbn [enumerate_from length]. rewrite IH.
  - rewrite map_size_insert_None; [lia|]. apply Hfresh, list_elem_of_here.
  - intros k' Hk'. rewrite lookup_insert_ne.
    + apply Hfresh. by apply list_elem_of_further.
    + intros ->. done.
Qed.

Section Invariant.
Context {W : Type} {os_w : OS W} {float_text : FloatText}.

(** The object made by [__init__] has one entry and one row name for each
    data line of the file. *)
Lemma table_of_invariant nm d hs text :
  NoDup (record_name <$> data_records text) →
  Forall (λ record, length record = S (length hs)) (data_records text) →
  table_invariant (table_of nm d hs text).
Proof.
  intros Hdup Hcells. unfold table_invariant, table_of, with_records.
  cbn [entries rows headers names set_entries set_names set_rows app].
  split; [|split; [|done]].
  - rewrite enumerate_from_size by done. rewrite !length_fmap, map_size_empty. lia.
  - apply Forall_fmap. eapply Forall_impl; [exact Hcells|].
    intros record Hrecord. cbn in *. rewrite length_fmap, length_drop. lia.
Qed.

(** C8, as the code has it.  After construction from a file whose data
    lines have pairwise distinct row names and one cell for each column,
    and after every later call of [setval], [setcol], [setcols] and
    [import_tq_rates] (however the call ends), the table has as many
    entries as rows in the row-name mapping, as many cells in every entry
    as columns, and no row name twice. *)
Theorem table_invariant_kept (filepath : str) (σ σ' σ'' : state W) (text : str) :
  init filepath σ = (σ', Ret ()) →
  read_text filepath (os σ) = Some text →
  NoDup (record_name <$> data_records text) →
  Forall (λ record, length record = S (length (headers (self σ'))))
    (data_records text) →
  rtc mutation σ' σ'' →
  table_invariant (self σ'').
Proof.
  intros Hinit Htext Hdup Hcells Hcalls.
  destruct (init_ret _ _ _ _ Hinit Htext) as (nm & d & hs & Hself).
  eapply table_invariant_same_shape; [by apply mutations_same_shape|].
  rewrite Hself in Hcells |- *. by apply table_of_invariant.
Qed.

End Invariant.

(** C8, as the specification has it, fails: the constructor accepts a file
    with a row name given twice and a data line of three cells under two
    headers, and the object has two entries for one row of the mapping. *)
Lemma ragged_file_breaks_invariant :
  let r := init "dir/ped.map" (mkState blank ragged_disk []) in
  r.2 = Ret ()
  ∧ length (entries (self r.1)) = 2
  ∧ size (rows (self r.1)) = 1
  ∧ entries (self r.1) !! 0 = Some [CStr "1"; CStr "2"; CStr "3"]
  ∧ headers (self r.1) = ["A"; "B"]
  ∧ names (self r.1) = ["x"; "x"]
  ∧ ¬ table_invariant (self r.1).
Proof.
  vm_compute. repeat split. intros [Hlen _]. vm_compute in Hlen. discriminate.
Qed.

Lemma table_invariant_kept_witness :
  table_invariant
    (self (setval 0 1 (CInt 5)
             (mkState sample_table sample_disk
                ["Pedestal object successfully created. 2 rows were added."])).1).
Proof.
  apply (table_invariant_kept (float_text:=sample_float_text) "dir/ped.map"
           (mkState blank sample_disk [])
           (mkState sample_table sample_disk
              ["Pedestal object successfully created. 2 rows were added."])
           _ sample_text).
  - vm_compute. reflexivity.
  - reflexivity.
  - apply (bool_decide_unpack _). vm_compute. exact I.
  - vm_compute. repeat constructor.
  - apply rtc_once, by_setval.
Defined.

(** ** Writing a table and reading it back *)

Lemma plain_inline c : plain c → inline c.
Proof.
  intros [Hspace Hascii]. split; [done|].
  split; intros ->; vm_compute in Hspace; discriminate.
Qed.

Lemma token_inline s : token s → Forall inline s.
Proof. intros [_ Hs]. eapply Forall_impl; [exact Hs|]. apply plain_inline. Qed.

Lemma spaces_inline n : Forall inline (Py.spaces n).
Proof.
  apply Forall_replicate. split; [reflexivity|]. split; discriminate.
Qed.

Lemma join_inline (sep : str) (l : list str) :
  Forall inline sep → Forall (Forall inline) l → Forall inline (join sep l).
Proof.
  intros Hsep Hl. induction Hl as [|s l Hs Hl IH]; [constructor|].
  destruct l as [|s' l]; [done|].
  change (join sep (s :: s' :: l)) with (s ++ sep ++ join sep (s' :: l)).
  rewrite !Forall_app. auto.
Qed.

Lemma split_go_token (cur tok rest : str) :
  Forall (λ c, Py.isspace c = false) tok →
  split_go cur (tok ++ rest) = split_go (cur ++ tok) rest.
Proof.
  intros Htok. revert cur. induction Htok as [|c tok Hc _ IH]; intros cur.
  - by rewrite app_nil_r.
  - cbn [app split_go]. rewrite Hc, IH. by rewrite <- app_assoc.
Qed.

Lemma split_go_spaces (n : nat) (rest : str) :
  split_go [] (Py.spaces n ++ rest) = split_go [] rest.
Proof. induction n as [|n IH]; [done|]. exact IH. Qed.

Lemma split_go_sep (cur : str) (c : ascii) (rest : str) :
  Py.isspace c = true → cur ≠ [] →
  split_go cur (c :: rest) = cur :: split_go [] (c :: rest).
Proof. intros Hc Hcur. cbn [split_go]. rewrite Hc. by destruct cur. Qed.

Lemma token_no_space s : token s → Forall (λ c, Py.isspace c = false) s.
Proof. intros [_ Hs]. eapply Forall_impl; [exact Hs|]. by intros c [? _]. Qed.

Lemma rjust_padded w s : padded s (Py.rjust w s).
Proof. exists (w - length s), 0. unfold Py.rjust. by rewrite app_nil_r. Qed.

Lemma center_padded w s : padded s (Py.center w s).
Proof. by eexists _, _. Qed.

(** A token at the head of a text that goes on with white space. *)
Lemma split_go_first (tok rest : str) (c : ascii) :
  token tok → Py.isspace c = true →
  split_go [] (tok ++ c :: rest) = tok :: split_go [] (c :: rest).
Proof.
  intros Htok Hc. rewrite split_go_token by by apply token_no_space.
  apply split_go_sep; [done|]. by destruct Htok.
Qed.

Lemma split_go_padded (tok rest : str) (a b : nat) (c : ascii) :
  token tok → Py.isspace c = true →
  split_go [] (Py.spaces a ++ tok ++ Py.spaces b ++ c :: rest)
  = tok :: split_go [] (c :: rest).
Proof.
  intros Htok Hc. rewrite split_go_spaces. destruct b as [|b].
  - by apply split_go_first.
  - change (Py.spaces (S b) ++ c :: rest) with (" "%char :: Py.spaces b ++ c :: rest).
    rewrite split_go_first by done. f_equal.
    apply (split_go_spaces (S b)).
Qed.

(** The tokens of a line of padded fields are the fields. *)
Lemma split_join_padded (toks fields : list str) :
  Forall2 padded toks fields → Forall token toks →
  split_go [] (join " " fields ++ [LF]) = toks.
Proof.
  intros Hpad. induction Hpad as [|tok s toks fields (a & b & ->) Hpad IH];
    intros Htoks; [done|].
  apply Forall_cons in Htoks as [Htok Htoks]. specialize (IH Htoks).
  destruct Hpad as [|tok' s' toks fields Hs' Hpad].
  - cbn [join]. rewrite <- !app_assoc. by rewrite split_go_padded.
  - change (join " " (?x :: s' :: fields)) with (x ++ " " ++ join " " (s' :: fields)).
    rewrite <- !app_assoc. change (" " ++ ?x) with (" "%char :: x).
    rewrite split_go_padded by done. f_equal. exact IH.
Qed.

Lemma split_header (hs : list str) :
  Forall token hs → split (header_body hs ++ [LF]) = "!" :: "Name" :: hs.
Proof.
  intros Hhs. unfold split, header_body. rewrite <- app_assoc.
  change (split_go [] (Py.ljust 12 "! Name" ++ ?x))
    with ("!" :: "Name" :: split_go [] x).
  do 2 f_equal. apply split_join_padded; [|done].
  apply Forall2_fmap_r, Forall_Forall2_diag, Forall_forall. intros. apply center_padded.
Qed.

Lemma split_row (name : str) (fields : list str) :
  token name → Forall token fields → fits name fields →
  split (row_body name fields ++ [LF]) = name :: fields.
Proof.
  intros Hname Hfields Hfits. unfold split, row_body, Py.ljust. rewrite <- !app_assoc.
  assert (split_go [] (join " " (Py.rjust 14 <$> fields) ++ [LF]) = fields) as Hrest.
  { apply split_join_padded; [|done].
    apply Forall2_fmap_r, Forall_Forall2_diag, Forall_forall. intros. apply rjust_padded. }
  assert (∃ c rest,
    Py.spaces (12 - length name) ++ join " " (Py.rjust 14 <$> fields) ++ [LF] = c :: rest
    ∧ Py.isspace c = true) as (c & rest & Heq & Hc).
  { destruct (12 - length name) as [|a] eqn:Ha; [|by eexists _, _].
    destruct Hfits as [?|Hfits]; [lia|].
    destruct fields as [|f fields]; [by eexists _, _|].
    destruct fields as [|f' fields]; cbn [fmap list_fmap join]; unfold Py.rjust;
      (destruct (14 - length f) as [|b] eqn:Hb; [lia|by eexists _, _]). }
  rewrite Heq, split_go_first by done. f_equal.
  rewrite <- Heq. by rewrite split_go_spaces.
Qed.

Lemma readlines_go_inline (cur body rest : str) :
  Forall inline body →
  readlines_go cur (body ++ LF :: rest) = (cur ++ body ++ [LF]) :: readlines_go [] rest.
Proof.
  intros Hbody. revert cur. induction Hbody as [|c body (_ & Hcr & Hlf) _ IH]; intros cur.
  - reflexivity.
  - cbn [app readlines_go].
    destruct (Ascii.eqb_spec c CR); [done|]. destruct (Ascii.eqb_spec c LF); [done|].
    rewrite IH. by rewrite <- app_assoc.
Qed.

Lemma readlines_bodies (bodies : list str) :
  Forall (Forall inline) bodies →
  readlines (concat ((λ b, b ++ [LF]) <$> bodies)) = (λ b, b ++ [LF]) <$> bodies.
Proof.
  unfold readlines. induction 1 as [|body bodies Hbody _ IH]; [done|].
  cbn [fmap list_fmap concat]. rewrite <- app_assoc. cbn [app].
  rewrite readlines_go_inline by done. by rewrite IH.
Qed.

Lemma header_body_inline hs : Forall token hs → Forall inline (header_body hs).
Proof.
  intros Hhs. unfold header_body. apply Forall_app. split.
  - repeat constructor; discriminate.
  - apply join_inline; [repeat constructor; discriminate|].
    apply Forall_fmap. eapply Forall_impl; [exact Hhs|].
    intros h Hh. change (Forall inline (Py.center 14 h)). unfold Py.center.
    rewrite !Forall_app. auto using spaces_inline, token_inline.
Qed.

Lemma row_body_inline name fields :
  token name → Forall token fields → Forall inline (row_body name fields).
Proof.
  intros Hname Hfields. unfold row_body, Py.ljust. rewrite !Forall_app.
  split; [auto using spaces_inline, token_inline|].
  apply join_inline; [repeat constructor; discriminate|].
  apply Forall_fmap. eapply Forall_impl; [exact Hfields|].
  intros f Hf. change (Forall inline (Py.rjust 14 f)). unfold Py.rjust.
  rewrite !Forall_app. auto using spaces_inline, token_inline.
Qed.

Lemma inline_is_ascii (s : str) : Forall inline s → forallb Py.is_ascii s = true.
Proof. induction 1 as [|c s [Hc _] _ IH]; [done|]. cbn [forallb]. by rewrite Hc. Qed.

Lemma line_is_ascii (body : str) :
  Forall inline body → forallb Py.is_ascii (body ++ [LF]) = true.
Proof.
  intros Hbody. rewrite forallb_app, (inline_is_ascii _ Hbody). reflexivity.
Qed.

Lemma encode_line (body : str) :
  Forall inline body → encode_ascii (body ++ [LF]) = Ret (body ++ [LF]).
Proof. intros Hbody. unfold encode_ascii. by rewrite line_is_ascii. Qed.

Lemma lines_are_ascii (bodies : list str) :
  Forall (Forall inline) bodies →
  forallb Py.is_ascii (concat ((λ b, b ++ [LF]) <$> bodies)) = true.
Proof.
  induction 1 as [|body bodies Hbody _ IH]; [done|].
  cbn [fmap list_fmap concat]. by rewrite forallb_app, line_is_ascii, IH.
Qed.

Lemma write_lines_ret (lines : list str) (written : str) :
  write_lines (Ret <$> lines) written = (written ++ concat lines, Ret ()).
Proof.
  revert written. induction lines as [|l lines IH]; intros written.
  - cbn. by rewrite app_nil_r.
  - cbn [fmap list_fmap write_lines concat]. rewrite IH. by rewrite <- app_assoc.
Qed.

Lemma cell_text_inv (entry : list cell) :
  Forall cell_token entry →
  CStr <$> (cell_text <$> entry) = entry ∧ Forall token (cell_text <$> entry).
Proof.
  induction 1 as [|c entry Hc _ [IH1 IH2]]; [by split|].
  destruct c as [s| |]; try done. cbn. rewrite IH1. split; [done|by constructor].
Qed.

Section RoundTrip.
Context {W : Type} {os_w : OS W} {float_text : FloatText}.

Lemma format_cells (entry : list cell) :
  Forall cell_token entry →
  res_all (format_cell <$> entry) = Ret (Py.rjust 14 <$> (cell_text <$> entry)).
Proof.
  induction 1 as [|c entry Hc _ IH]; [done|].
  destruct c as [s| |]; try done. cbn [fmap list_fmap res_all format_cell res_bind].
  change (list_fmap _ _ format_cell entry) with (format_cell <$> entry).
  by rewrite IH.
Qed.

Lemma header_line_ret (t : Pedestal) :
  Forall token (headers t) →
  header_line t = Ret (header_body (headers t) ++ [LF]).
Proof.
  intros Hhs. unfold header_line.
  change (Py.ljust 12 "! Name" ++ join " " (Py.center 14 <$> headers t) ++ [LF])
    with (Py.ljust 12 "! Name" ++ (join " " (Py.center 14 <$> headers t) ++ [LF])).
  rewrite app_assoc. apply encode_line. by apply header_body_inline.
Qed.

Lemma row_line_ret (t : Pedestal) (m : nat) name entry :
  names t !! m = Some name → entries t !! m = Some entry →
  token name → Forall cell_token entry →
  row_line t m = Ret (row_body name (cell_text <$> entry) ++ [LF]).
Proof.
  intros Hname Hentry Htok Hcells. unfold row_line.
  rewrite !getitem_nat, Hname, Hentry. cbn [res_of_option res_bind].
  rewrite format_cells by done. cbn [res_bind].
  rewrite app_assoc. apply encode_line.
  apply row_body_inline; [done|]. by apply cell_text_inv.
Qed.

(** The lines of the file for the rows from [k] on. *)
Lemma row_lines_ret (t : Pedestal) (k : nat) (ns : list str) (es : list (list cell)) :
  (∀ i name, ns !! i = Some name → names t !! (k + i) = Some name) →
  (∀ i entry, es !! i = Some entry → entries t !! (k + i) = Some entry) →
  length es = length ns →
  Forall token ns → Forall (Forall cell_token) es →
  row_line t <$> seq k (length ns)
  = Ret <$> ((λ b : str, b ++ [LF]) <$>
               zip_with row_body ns (fmap (M:=list) cell_text <$> es)).
Proof.
  revert k es. induction ns as [|name ns IH]; intros k es Hns Hes Hlen Htok Hcells;
    [done|].
  destruct es as [|entry es]; [done|].
  apply Forall_cons in Htok as [Hname Htok].
  apply Forall_cons in Hcells as [Hentry Hcells].
  cbn [length seq fmap list_fmap zip_with]. f_equal.
  - apply row_line_ret; [|by rewrite <- (Hes 0 entry eq_refl), Nat.add_0_r|done..].
    by rewrite <- (Hns 0 name eq_refl), Nat.add_0_r.
  - apply IH; [| |by simplify_eq/=|done..].
    + intros i nm Hi. replace (S k + i) with (k + S i) by lia. by apply (Hns (S i)).
    + intros i e Hi. replace (S k + i) with (k + S i) by lia. by apply (Hes (S i)).
Qed.

(** The text of the file [writemap] writes for a table of tokens. *)
Lemma map_text_ret (t : Pedestal) :
  table_ok t → Forall token (headers t) → Forall token (names t) →
  Forall (Forall cell_token) (entries t) →
  map_text t
  = (concat ((λ b : str, b ++ [LF]) <$>
              (header_body (headers t)
               :: zip_with row_body (names t) (fmap (M:=list) cell_text <$> entries t))),
     Ret ()).
Proof.
  intros (_ & Hrows & Hdup & Hlen) Hhs Hns Hes. unfold map_text, countrows.
  rewrite Hrows, enumerate_from_size, map_size_empty, Nat.add_0_r by done.
  rewrite header_line_ret by done.
  rewrite (row_lines_ret t 0 (names t) (entries t)) by done.
  apply (write_lines_ret (_ :: _) []).
Qed.

End RoundTrip.

#[global] Instance plain_dec c : Decision (plain c).
Proof. unfold plain. apply _. Defined.

#[global] Instance token_dec s : Decision (token s).
Proof. unfold token. apply _. Defined.

#[global] Instance cell_token_dec c : Decision (cell_token c).
Proof. destruct c; apply _. Defined.

#[global] Instance fits_dec name fields : Decision (fits name fields).
Proof. unfold fits. destruct fields; apply _. Defined.

#[global] Instance table_ok_dec t : Decision (table_ok t).
Proof. unfold table_ok. apply _. Defined.

Lemma rows_inline (ns : list str) (fss : list (list str)) :
  Forall token ns → Forall (Forall token) fss →
  Forall (Forall inline) (zip_with row_body ns fss).
Proof.
  intros Hns. revert fss. induction Hns as [|name ns Hname _ IH]; intros fss Hfss; [done|].
  destruct Hfss as [|fs fss Hfs Hfss]; [done|].
  cbn [zip_with]. constructor; [by apply row_body_inline|by apply IH].
Qed.

(** The data lines of the file are read as the row name and the cells. *)
Lemma rows_split (ns : list str) (fss : list (list str)) :
  Forall2 fits ns fss → Forall token ns → Forall (Forall token) fss →
  split <$> ((λ b : str, b ++ [LF]) <$> zip_with row_body ns fss)
  = zip_with cons ns fss.
Proof.
  induction 1 as [|name fs ns fss Hfits _ IH]; intros Hns Hfss; [done|].
  apply Forall_cons in Hns as [Hname Hns]. apply Forall_cons in Hfss as [Hfs Hfss].
  cbn [zip_with fmap list_fmap]. f_equal; [by apply split_row|by apply IH].
Qed.

Lemma records_names (ns : list str) (fss : list (list str)) :
  length fss = length ns → record_name <$> zip_with cons ns fss = ns.
Proof.
  revert fss. induction ns as [|name ns IH]; intros [|fs fss] Hlen; try done.
  cbn [zip_with fmap list_fmap]. f_equal. apply IH. by simplify_eq/=.
Qed.

Lemma records_entries (ns : list str) (es : list (list cell)) :
  length es = length ns → Forall (Forall cell_token) es →
  (λ record, CStr <$> drop 1 record) <$> zip_with cons ns (fmap (M:=list) cell_text <$> es)
  = es.
Proof.
  revert es. induction ns as [|name ns IH]; intros [|entry es] Hlen Hes; try done.
  apply Forall_cons in Hes as [Hentry Hes].
  cbn [zip_with fmap list_fmap drop]. f_equal.
  - by apply cell_text_inv.
  - apply IH; [by simplify_eq/=|done].
Qed.

Section WrittenAndRead.
Context {W : Type} {os_w : OS W} {float_text : FloatText}.

(** C1, as the code has it.  For a table as the constructor leaves one
    (the mappings index the lists, one entry for each row name, the row
    names pairwise distinct) whose headers, row names and cells are tokens
    (strings that are not empty, of ASCII characters that are not white
    space) and in which no row has both a name of twelve characters or
    more and a first cell of fourteen characters or more: when the file
    system takes the text that [writemap] writes to a path that the
    constructor accepts, and gives it back on reading, [writemap] returns
    and the constructor on that path returns, with the same headers, row
    names and cells in the same order and the same two mappings. *)
Theorem written_map_reads_back (fullpath : str) (σ : state W) (w1 : W) :
  table_ok (self σ) →
  Forall token (headers (self σ)) →
  Forall token (names (self σ)) →
  Forall (Forall cell_token) (entries (self σ)) →
  Forall2 fits (names (self σ)) (fmap (M:=list) cell_text <$> entries (self σ)) →
  5 ≤ length fullpath →
  Py.slice fullpath (Some (-4)%Z) None = ".map" →
  write_text fullpath (map_text (self σ)).1 (os σ) = (w1, Done) →
  isfile w1 fullpath = true →
  read_text fullpath w1 = Some (map_text (self σ)).1 →
  ∃ σ2,
    writemap fullpath σ = (mkState (self σ) w1 (stdout σ), Ret ())
    ∧ init fullpath (mkState (self σ) w1 (stdout σ)) = (σ2, Ret ())
    ∧ headers (self σ2) = headers (self σ)
    ∧ names (self σ2) = names (self σ)
    ∧ entries (self σ2) = entries (self σ)
    ∧ cols (self σ2) = cols (self σ)
    ∧ rows (self σ2) = rows (self σ).
Proof.
  intros Hok Hhs Hns Hes Hfits Hlen Hext Hwrite Hfile Hread.
  assert (writemap fullpath σ = (mkState (self σ) w1 (stdout σ), Ret ())) as Hwritten.
  { unfold writemap. rewrite run_bind. unfold get_self at 1.
    destruct (map_text (self σ)) as [text r] eqn:Htext.
    rewrite map_text_ret in Htext by done. injection Htext as <- <-.
    rewrite run_bind. unfold os_call at 1. cbn [fst] in Hwrite. by rewrite Hwrite. }
  set (σ1 := mkState (self σ) w1 (stdout σ)) in *.
  assert (isfile (os σ1) fullpath = true) as Hfile' by done.
  assert (read_text fullpath (os σ1) = Some (map_text (self σ)).1) as Hread' by done.
  clear Hfile Hread Hwrite. rename Hfile' into Hfile, Hread' into Hread.
  set (t := self σ) in *.
  rewrite map_text_ret in Hread by done. cbn [fst] in Hread.
  set (fss := fmap (M:=list) cell_text <$> entries t) in *.
  set (bodies := header_body (headers t) :: zip_with row_body (names t) fss) in *.
  set (text := concat ((λ b : str, b ++ [LF]) <$> bodies)) in *.
  destruct Hok as (Hcols & Hrows & Hdup & Hlen').
  assert (Forall (Forall token) fss) as Hfss.
  { apply Forall_fmap. eapply Forall_impl; [exact Hes|].
    intros entry Hentry. by apply cell_text_inv. }
  assert (Forall (Forall inline) bodies) as Hbodies.
  { constructor; [by apply header_body_inline|by apply rows_inline]. }
  assert (readlines text = (λ b : str, b ++ [LF]) <$> bodies) as Hlines.
  { by apply readlines_bodies. }
  assert (data_records text = zip_with cons (names t) fss) as Hrecords.
  { unfold data_records. rewrite Hlines. cbn [bodies fmap list_fmap tail].
    by apply rows_split. }
  destruct (read_name_spec fullpath Hlen Hext) as (nm & d & Hname & _).
  eexists. split; [exact Hwritten|]. split.
  - eapply (init_run fullpath σ1 text nm d ("Name" :: headers t) (headers t)); try done.
    + unfold decode_ascii. unfold text. by rewrite lines_are_ascii.
    + rewrite Hlines. cbn [bodies fmap list_fmap head default from_option id].
      rewrite split_header by done. unfold strip_first.
      change (Py.getitem ("!" :: ?l) 0) with (Ret (A:=str) "!").
      cbn [res_bind]. rewrite bool_decide_eq_true_2 by done. by rewrite slice_tail.
    + unfold strip_first.
      change (Py.getitem ("Name" :: ?l) 0) with (Ret (A:=str) "Name").
      cbn [res_bind]. rewrite bool_decide_eq_true_2 by done. by rewrite slice_tail.
    + fold (data_records text) in Hrecords.
      apply Forall_forall. intros line Hline Hsplit.
      assert ([] ∈ data_records text) as Hin.
      { unfold data_records. rewrite <- Hsplit. by apply list_elem_of_fmap_2. }
      rewrite Hrecords in Hin.
      apply list_elem_of_lookup in Hin as [i Hi].
      rewrite lookup_zip_with in Hi.
      destruct (names t !! i), (fss !! i); done.
  - assert (length fss = length (names t)) as Hlen''.
    { unfold fss. by rewrite length_fmap. }
    unfold table_of, with_records.
    cbn [self headers names entries cols rows set_entries set_names set_rows app].
    rewrite Hrecords, records_names by done.
    unfold fss. rewrite records_entries by done. done.
Qed.

End WrittenAndRead.

(** C1, as the specification has it, fails: a row name of twelve characters
    and a first cell of fourteen are written with nothing between them, and
    the file is read back with one row name of twenty-six characters and no
    cell.  Two more tables of such strings are not read back either: one
    that names a row twice (the loop of [writemap] runs over the row-name
    mapping and leaves the last row out), and one with a character that the
    ["ascii"] codec refuses ([writemap] raises). *)
Lemma wide_row_is_not_read_back :
  let σ1 := (writemap (float_text:=sample_float_text) "dir/wide.map" wide_state).1 in
  let r := init "dir/wide.map" σ1 in
  let twin := init "dir/twin.map" (mkState blank (mkDisk {[ "dir/twin.map" := twin_text ]} ∅ ∅) []) in
  let σ2 := (writemap (float_text:=sample_float_text) "dir/twin.map" twin.1).1 in
  (Forall token (headers wide_table)
   ∧ Forall token (names wide_table)
   ∧ Forall (Forall cell_token) (entries wide_table)
   ∧ table_ok wide_table
   ∧ r.2 = Ret ()
   ∧ names (self r.1) = ["ABCDEFGHIJKL12345678901234"]
   ∧ entries (self r.1) = [[]]
   ∧ names (self r.1) ≠ names wide_table
   ∧ entries (self r.1) ≠ entries wide_table)
  ∧ (twin.2 = Ret ()
     ∧ self twin.1 = twin_table
     ∧ names (self (init "dir/twin.map" σ2).1) = ["x"]
     ∧ entries (self (init "dir/twin.map" σ2).1) = [[CStr "1"]])
  ∧ (writemap (float_text:=sample_float_text) "dir/ped.map"
       (mkState latin_table sample_disk [])).2 = Raise UnicodeEncodeError.
Proof.
  cbv zeta. repeat split;
    try (apply (bool_decide_unpack _); vm_compute; exact I);
    try (vm_compute; reflexivity); vm_compute; discriminate.
Qed.

Lemma written_map_reads_back_witness :
  ∃ σ2,
    writemap (float_text:=sample_float_text) "dir/copy.map" sample_state
    = (mkState sample_table
         (write_text "dir/copy.map" (map_text (float_text:=sample_float_text) sample_table).1
            sample_disk).1 [], Ret ())
    ∧ init "dir/copy.map"
        (mkState sample_table
           (write_text "dir/copy.map" (map_text (float_text:=sample_float_text) sample_table).1
              sample_disk).1 [])
      = (σ2, Ret ())
    ∧ headers (self σ2) = headers sample_table
    ∧ names (self σ2) = names sample_table
    ∧ entries (self σ2) = entries sample_table
    ∧ cols (self σ2) = cols sample_table
    ∧ rows (self σ2) = rows sample_table.
Proof.
  apply (written_map_reads_back (float_text:=sample_float_text) "dir/copy.map" sample_state
           (write_text "dir/copy.map" (map_text (float_text:=sample_float_text) sample_table).1
              sample_disk).1);
    try (apply (bool_decide_unpack _); vm_compute; exact I);
    try (vm_compute; reflexivity).
Defined.

(** * More properties of the two modules

    ** The setters *)

Lemma index_range (len : nat) (i : Z) :
  (i < - Z.of_nat len ∨ Z.of_nat len ≤ i)%Z → Py.index len i = None.
Proof.
  intros Hi. unfold Py.index.
  destruct (Z.leb_spec 0 i); [destruct (Z.ltb_spec i (Z.of_nat len))
                             |destruct (Z.leb_spec (- Z.of_nat len) i)]; (done || lia).
Qed.

Lemma set_cells_at (es : list (list cell)) (r c : nat) (val : cell) entry (i j : nat) :
  es !! r = Some entry → c < length entry →
  <[r := <[c := val]> entry]> es !! i ≫= (λ e, e !! j)
  = if bool_decide (i = r ∧ j = c) then Some val else es !! i ≫= (λ e, e !! j).
Proof.
  intros He Hc. pose proof (lookup_lt_Some _ _ _ He) as Hr.
  destruct (decide (i = r)) as [->|Hi].
  - rewrite list_lookup_insert_eq, He by done. cbn.
    destruct (decide (j = c)) as [->|Hj].
    + rewrite list_lookup_insert_eq, bool_decide_eq_true_2 by done. done.
    + rewrite list_lookup_insert_ne by done.
      rewrite bool_decide_eq_false_2; [done|]. by intros [_ ?].
  - rewrite list_lookup_insert_ne by done.
    rewrite bool_decide_eq_false_2; [done|]. by intros [? _].
Qed.

Section CellSetters.
Context {W : Type}.

(** X1.  A call of [setval] whose indices are in range (negative indices
    count from the end) returns after writing [val] into that one cell:
    reading the cell gives [val], every other cell and position of the table
    reads as before, and the mappings, the headers, the row names, the file
    system and the standard output are left alone. *)
Theorem setval_writes_one_cell (row col : Z) (val : cell) (σ : state W) (r c : nat) entry :
  Py.index (length (entries (self σ))) row = Some r →
  entries (self σ) !! r = Some entry →
  Py.index (length entry) col = Some c →
  ∃ p', setval row col val σ = (mkState p' (os σ) (stdout σ), Ret ())
    ∧ same_shape (self σ) p'
    ∧ ∀ i j, cell_at p' i j
             = if bool_decide (i = r ∧ j = c) then Some val else cell_at (self σ) i j.
Proof.
  intros Hr He Hc. pose proof (setval_keeps_shape row col val σ) as Hshape.
  rewrite setval_unfold, Hr, He, Hc in Hshape |- *.
  eexists. split; [reflexivity|]. split; [exact Hshape|].
  intros i j. unfold cell_at. cbn [entries set_entries].
  apply set_cells_at; [done|by eapply index_lt].
Qed.

(** X2.  A row index outside [-n, n) for the [n] entries of the table, or
    a column index outside that range for the cells of the entry, makes
    [setval] raise [IndexError] with the state as it was. *)
Theorem setval_out_of_range (row col : Z) (val : cell) (σ : state W) :
  (row < - Z.of_nat (length (entries (self σ)))
   ∨ Z.of_nat (length (entries (self σ))) ≤ row
   ∨ ∃ r entry,
       Py.index (length (entries (self σ))) row = Some r
       ∧ entries (self σ) !! r = Some entry
       ∧ (col < - Z.of_nat (length entry) ∨ Z.of_nat (length entry) ≤ col))%Z →
  setval row col val σ = (σ, Raise IndexError).
Proof.
  intros Hout. rewrite setval_unfold.
  destruct Hout as [Hrow|[Hrow|(r & entry & Hr & He & Hcol)]].
  - by rewrite index_range by lia.
  - by rewrite index_range by lia.
  - by rewrite Hr, He, index_range.
Qed.

(** The loop of [setcol] over the rows from [length done] on. *)
Lemma setcol_loop (col : Z) (val : cell) (m : nat) :
  ∀ (p : Pedestal) (w : W) (out : list str) (done_ todo : list (list cell)),
  entries p = done_ ++ todo →
  m ≤ length todo →
  Forall (λ entry, is_Some (Py.index (length entry) col)) (take m todo) →
  for_each (seq (length done_) m) (λ row, setval (Z.of_nat row) col val) (mkState p w out)
  = (mkState (set_entries (done_ ++ (set_cell col val <$> take m todo) ++ drop m todo) p)
       w out, Ret ()).
Proof.
  induction m as [|m IH]; intros p w out done_ todo Hp Hm Hcols.
  - rewrite take_0, drop_0. cbn [seq for_each fmap list_fmap app]. rewrite <- Hp. by destruct p.
  - destruct todo as [|entry todo]; [cbn in Hm; lia|].
    cbn [take] in Hcols. apply Forall_cons in Hcols as [[c Hc] Hcols].
    cbn [seq for_each]. rewrite run_bind, setval_unfold. cbn [self os stdout].
    rewrite index_nat, Hp, length_app. cbn [length].
    destruct (Nat.ltb_spec (length done_) (length done_ + S (length todo))); [|lia].
    rewrite list_lookup_middle by done. rewrite Hc.
    replace (<[length done_ := <[c := val]> entry]> (done_ ++ entry :: todo))
      with ((done_ ++ [<[c := val]> entry]) ++ todo).
    2:{ rewrite insert_app_r_alt, Nat.sub_diag by lia. by rewrite <- app_assoc. }
    replace (S (length done_)) with (length (done_ ++ [<[c := val]> entry]))
      by (rewrite length_app; cbn; lia).
    rewrite (IH _ w out (done_ ++ [<[c := val]> entry]) todo);
      [|done|cbn in Hm; lia|done].
    cbn [take fmap list_fmap drop]. unfold set_cell at 2. rewrite Hc.
    f_equal. f_equal. destruct p. cbn. by rewrite <- !app_assoc.
Qed.

(** X3.  [setcol] with a number that is not a NaN, on a table with at
    least as many entries as the row-name mapping has rows and with a cell
    for the index [col] in each of them, returns after putting [val] into
    that cell of each of the first [countrows()] entries; the entries after
    them, all other cells, the file system and the standard output are left
    as they were. *)
Theorem setcol_sets_column (col : Z) (val : cell) (σ : state W) :
  isnan val = Ret false →
  countrows (self σ) ≤ length (entries (self σ)) →
  Forall (λ entry, is_Some (Py.index (length entry) col))
    (take (countrows (self σ)) (entries (self σ))) →
  setcol col val σ
  = (mkState
       (set_entries
          ((set_cell col val <$> take (countrows (self σ)) (entries (self σ)))
           ++ drop (countrows (self σ)) (entries (self σ)))
          (self σ))
       (os σ) (stdout σ), Ret ()).
Proof.
  intros Hnan Hrows Hcols. unfold setcol.
  rewrite run_bind. unfold lift at 1. rewrite Hnan.
  rewrite run_bind. unfold get_self at 1. destruct σ as [p w out]. cbn [self os stdout] in *.
  apply (setcol_loop col val (countrows p) p w out [] (entries p)); done.
Qed.

(** X4.  Nothing is undone when [setcol] fails: if the entry of row [k] has
    no cell for the index [col], while the entries before it have one, the
    call raises [IndexError] with [val] written into the rows before [k] and
    the rows from [k] on as they were. *)
Theorem setcol_stops_at_short_row (col : Z) (val : cell) (σ : state W) (k : nat) entry :
  isnan val = Ret false →
  k < countrows (self σ) →
  entries (self σ) !! k = Some entry →
  Py.index (length entry) col = None →
  Forall (λ entry, is_Some (Py.index (length entry) col)) (take k (entries (self σ))) →
  setcol col val σ
  = (mkState
       (set_entries
          ((set_cell col val <$> take k (entries (self σ))) ++ drop k (entries (self σ)))
          (self σ))
       (os σ) (stdout σ), Raise IndexError).
Proof.
  intros Hnan Hk He Hc Hcols. unfold setcol.
  rewrite run_bind. unfold lift at 1. rewrite Hnan.
  rewrite run_bind. unfold get_self at 1. destruct σ as [p w out]. cbn [self os stdout] in *.
  pose proof (lookup_lt_Some _ _ _ He) as Hlen.
  replace (countrows p) with (k + S (countrows p - S k)) by lia.
  rewrite seq_app. cbn [seq Nat.add].
  assert (∀ (l1 l2 : list nat) (body : nat → M W unit) s,
            for_each (l1 ++ l2) body s
            = match for_each l1 body s with
              | (s1, Ret _) => for_each l2 body s1
              | r => r
              end) as Happ.
  { intros l1 l2 body. induction l1 as [|x l1 IH]; intros s; [done|].
    cbn [app for_each]. rewrite !run_bind. destruct (body x s) as [s' [[]|e]]; [apply IH|done]. }
  rewrite Happ.
  pose proof (setcol_loop col val k p w out [] (entries p) eq_refl) as Hloop.
  cbn [length app] in Hloop. rewrite Hloop; [|lia|done].
  cbn [app for_each length]. rewrite run_bind, setval_unfold. cbn [self os stdout entries set_entries].
  rewrite index_nat, length_app, length_fmap, length_take, length_drop.
  destruct (Nat.ltb_spec k (k `min` length (entries p) + (length (entries p) - k))); [|lia].
  rewrite lookup_app_r; rewrite length_fmap, length_take; [|lia].
  replace (k - k `min` length (entries p)) with 0 by lia.
  rewrite lookup_drop, Nat.add_0_r, He, Hc. reflexivity.
Qed.

(** X5.  [setcols] stops at the first name that is no column of the table:
    when the columns named before it are set, the call raises [KeyError]
    with those columns written, and neither that name nor the names after
    it change anything. *)
Theorem setcols_stops_at_unknown_column
    (before after : list str) (col : str) (val : cell) (σ σ1 : state W) :
  setcols before val σ = (σ1, Ret ()) →
  cols (self σ) !! col = None →
  setcols (before ++ col :: after) val σ = (σ1, Raise KeyError).
Proof.
  intros Hbefore Hcol.
  pose proof (setcols_keeps_shape (W:=W) before val σ) as Hshape.
  rewrite Hbefore in Hshape. destruct Hshape as (Hcols & _). cbn [fst] in Hcols.
  revert Hbefore. unfold setcols. rewrite !run_bind. unfold lift at 1 3.
  destruct (isnan val) as [[]|]; [done| |done].
  set (body := λ col0 : str, _).
  assert (∀ (l1 l2 : list str) s,
            for_each l1 body s = (σ1, Ret ()) →
            for_each (l1 ++ l2) body s = for_each l2 body σ1) as Happ.
  { intros l1 l2. induction l1 as [|x l1 IH]; intros s.
    - by intros [= ->].
    - cbn [app for_each]. rewrite !run_bind. destruct (body x s) as [s' [[]|e]]; [apply IH|done]. }
  intros Hbefore. rewrite (Happ _ _ _ Hbefore).
  cbn [for_each]. rewrite run_bind. unfold body at 1.
  rewrite run_bind. unfold get_self at 1. rewrite run_bind. unfold lift at 1.
  by rewrite Hcols, Hcol.
Qed.

End CellSetters.

Lemma setval_writes_one_cell_witness :
  ∃ p', setval (-1) (-1) (CInt 5) sample_state = (mkState p' sample_disk [], Ret ())
    ∧ same_shape sample_table p'
    ∧ ∀ i j, cell_at p' i j
             = if bool_decide (i = 1 ∧ j = 1) then Some (CInt 5) else cell_at sample_table i j.
Proof.
  apply (setval_writes_one_cell (-1) (-1) (CInt 5) sample_state 1 1 [CStr "0.5"; CStr "7"]);
    reflexivity.
Defined.

Lemma setval_out_of_range_witness :
  setval 2 0 (CInt 5) sample_state = (sample_state, Raise IndexError).
Proof.
  apply (setval_out_of_range 2 0 (CInt 5) sample_state). right. left. simpl. lia.
Defined.

Lemma setcol_sets_column_witness :
  setcol 1 (CInt 5) sample_state
  = (mkState (set_entries [[CStr "0.5"; CInt 5]; [CStr "0.5"; CInt 5]] sample_table)
       sample_disk [], Ret ()).
Proof.
  apply (setcol_sets_column 1 (CInt 5) sample_state);
    [reflexivity|vm_compute; lia|].
  vm_compute. repeat constructor; by eexists.
Defined.

Lemma setcol_stops_at_short_row_witness :
  setcol 2 (CInt 5) (mkState short_table sample_disk [])
  = (mkState (set_entries [[CStr "1"; CStr "2"; CInt 5]; [CStr "4"; CStr "5"]] short_table)
       sample_disk [], Raise IndexError).
Proof.
  etrans.
  - apply (setcol_stops_at_short_row 2 (CInt 5) (mkState short_table sample_disk []) 1
             [CStr "4"; CStr "5"]);
      [reflexivity|vm_compute; lia|reflexivity|reflexivity|].
    vm_compute. repeat constructor; by eexists.
  - vm_compute. reflexivity.
Defined.

Lemma setcols_stops_at_unknown_column_witness :
  setcols (["VoltPerHz"] ++ "Gain" :: ["NormRate(Hz/uA)"]) (CInt 5) sample_state
  = (mkState (set_entries [[CInt 5; CStr "12"]; [CInt 5; CStr "7"]] sample_table)
       sample_disk [], Raise KeyError).
Proof.
  apply (setcols_stops_at_unknown_column ["VoltPerHz"] ["NormRate(Hz/uA)"] "Gain" (CInt 5)
           sample_state);
    vm_compute; reflexivity.
Defined.

(** ** The two mappings *)

(** The mapping that [enumerate_from] fills gives each key of the list its
    last position. *)
Lemma enumerate_from_lookup (l : list str) :
  ∀ (n : nat) (m : gmap str nat) (k : str) (i : nat),
  enumerate_from n l m !! k = Some i
  ↔ (∃ j, i = n + j ∧ last_at l k j) ∨ (m !! k = Some i ∧ k ∉ l).
Proof.
  unfold last_at. induction l as [|v l IH]; intros n m k i; cbn [enumerate_from].
  - split.
    + intros Hm. right. split; [done|apply not_elem_of_nil].
    + intros [(j & _ & Hj & _)|[Hm _]]; [done|done].
  - rewrite IH. rewrite not_elem_of_cons. split.
    + intros [(j & -> & Hj & Hlast)|[Hm Hk]].
      * left. exists (S j). split; [lia|]. split; [done|].
        intros [|j'] Hj'; [lia|]. cbn. apply Hlast. lia.
      * destruct (decide (k = v)) as [->|Hkv].
        -- rewrite lookup_insert_eq in Hm. injection Hm as <-.
           left. exists 0. split; [lia|]. split; [done|].
           intros [|j'] Hj' Hl; [lia|]. apply Hk. by eapply list_elem_of_lookup_2.
        -- rewrite lookup_insert_ne in Hm by done. by right.
    + intros [(j & -> & Hj & Hlast)|[Hm [Hkv Hk]]].
      * destruct j as [|j].
        -- injection Hj as ->. right. split.
           ++ rewrite lookup_insert_eq. f_equal. lia.
           ++ intros [j' Hj']%list_elem_of_lookup. by apply (Hlast (S j')); [lia|].
        -- left. exists j. split; [lia|]. split; [done|].
           intros j' Hj'. apply (Hlast (S j')). lia.
      * right. split; [by rewrite lookup_insert_ne|done].
Qed.

Lemma enumerate_from_last (l : list str) (k : str) (i : nat) :
  enumerate_from 0 l ∅ !! k = Some i ↔ last_at l k i.
Proof.
  rewrite enumerate_from_lookup. split.
  - intros [(j & -> & Hj)|[Hm _]]; [done|by rewrite lookup_empty in Hm].
  - intros Hi. left. by exists i.
Qed.

Lemma enumerate_from_None (l : list str) (k : str) :
  enumerate_from 0 l ∅ !! k = None ↔ k ∉ l.
Proof.
  split.
  - intros Hnone [i Hi]%list_elem_of_lookup.
    assert (∃ j, last_at l k j) as [j Hj].
    { clear Hnone. revert i Hi. induction l as [|v l IH]; intros i Hi; [done|].
      destruct (decide (k ∈ l)) as [[j Hj]%list_elem_of_lookup|Hk].
      - destruct (IH j Hj) as (j' & Hj' & Hlast). exists (S j'). split; [done|].
        intros [|j''] ?; [lia|]. apply Hlast. lia.
      - destruct i as [|i]; [|cbn in Hi; by apply list_elem_of_lookup_2 in Hi].
        exists 0. split; [done|]. intros [|j] ? Hl; [lia|].
        apply Hk. by eapply list_elem_of_lookup_2. }
    apply enumerate_from_last in Hj. congruence.
  - intros Hk. destruct (enumerate_from 0 l ∅ !! k) as [i|] eqn:Hi; [|done].
    apply enumerate_from_last in Hi as [Hi _]. by apply list_elem_of_lookup_2 in Hi.
Qed.

Lemma enumerate_from_dom (l : list str) :
  ∀ (n : nat) (m : gmap str nat),
  dom (enumerate_from n l m) = list_to_set l ∪ dom m.
Proof.
  induction l as [|v l IH]; intros n m; cbn [enumerate_from list_to_set].
  - by rewrite union_empty_l_L.
  - rewrite IH, dom_insert_L, !(assoc_L (∪)). f_equal. apply (comm_L (∪)).
Qed.

Lemma remove_dups_length (l : list str) :
  length (remove_dups l) ≤ length l
  ∧ (length (remove_dups l) = length l ↔ NoDup l).
Proof.
  induction l as [|v l [IH1 IH2]]; cbn [remove_dups length].
  - split; [done|]. split; [constructor|done].
  - rewrite NoDup_cons. destruct (decide_rel elem_of v l); cbn [length].
    + split; [lia|]. split; [lia|]. by intros [? _].
    + split; [lia|]. split.
      * intros Hlen. split; [done|]. apply IH2. lia.
      * intros [_ Hdup]. f_equal. by apply IH2.
Qed.

Lemma enumerate_from_count (l : list str) :
  size (enumerate_from 0 l ∅) = length (remove_dups l).
Proof.
  rewrite <- (size_dom (D:=gset str)), enumerate_from_dom, dom_empty_L, union_empty_r_L.
  rewrite <- (size_list_to_set (C:=gset str) (remove_dups l)) by apply NoDup_remove_dups.
  f_equal. apply set_eq. intros k. by rewrite !elem_of_list_to_set, elem_of_remove_dups.
Qed.

(** ** The accessors *)

Lemma float_of_cell_raises {float_text : FloatText} (c : cell) (e : exn) :
  float_of_cell c = Raise e → e = ValueError ∨ e = OverflowError.
Proof.
  destruct c as [s|z|f]; cbn.
  - destruct (float_of_str s); [done|]. intros [= <-]. by left.
  - unfold Py.float_of_int. destruct (PrimFloat.is_infinity _); [|done].
    intros [= <-]. by right.
  - done.
Qed.

Lemma int_of_cell_raises (c : cell) (e : exn) :
  int_of_cell c = Raise e → e = ValueError ∨ e = OverflowError.
Proof.
  destruct c as [s|z|f]; cbn.
  - unfold Py.int_of_str.
    destruct (match Py.lstrip _ _ with [] => _ | _ => _ end); [done|].
    intros [= <-]. by left.
  - done.
  - unfold Py.int_of_float.
    destruct (Prim2SF f) as [| | |[] ? ?]; try done; intros [= <-]; tauto.
Qed.

(** The cell that the two mappings lead to, in a table with an entry for
    each row name and a cell for each header. *)
Lemma lookup_cell_KeyError (p : Pedestal) (row col : str) :
  cols p = enumerate_from 0 (headers p) ∅ →
  rows p = enumerate_from 0 (names p) ∅ →
  length (entries p) = length (names p) →
  Forall (λ entry, length entry = length (headers p)) (entries p) →
  match lookup_cell p row col with
  | Ret c => ∃ i j, last_at (names p) row i ∧ last_at (headers p) col j
                    ∧ cell_at p i j = Some c
  | Raise e => e = KeyError ∧ (row ∉ names p ∨ col ∉ headers p)
  end.
Proof.
  intros Hcols Hrows Hlen Hcells. unfold lookup_cell.
  destruct (rows p !! row) as [r|] eqn:Hr; cbn [res_of_option res_bind].
  2:{ split; [done|]. left. apply enumerate_from_None. by rewrite <- Hrows. }
  rewrite Hrows in Hr. apply enumerate_from_last in Hr.
  destruct (Hr) as [Hname _]. apply lookup_lt_Some in Hname.
  rewrite getitem_nat.
  destruct (entries p !! r) as [entry|] eqn:He; [|apply lookup_ge_None in He; lia].
  cbn [res_of_option res_bind].
  destruct (cols p !! col) as [c|] eqn:Hc; cbn [res_of_option res_bind].
  2:{ split; [done|]. right. apply enumerate_from_None. by rewrite <- Hcols. }
  rewrite Hcols in Hc. apply enumerate_from_last in Hc.
  destruct (Hc) as [Hheader _]. apply lookup_lt_Some in Hheader.
  rewrite getitem_nat.
  assert (length entry = length (headers p)) as Hentry.
  { eapply (proj1 (Forall_forall _ _) Hcells). by eapply list_elem_of_lookup_2. }
  destruct (entry !! c) as [x|] eqn:Hx; [|apply lookup_ge_None in Hx; lia].
  cbn [res_of_option]. exists r, c. unfold cell_at. by rewrite He.
Qed.

(** An accessor: the cell, and a conversion that raises neither
    [KeyError] nor [IndexError]. *)
Lemma accessor_errors {A} (conv : cell → res A) (p : Pedestal) (row col : str) :
  cols p = enumerate_from 0 (headers p) ∅ →
  rows p = enumerate_from 0 (names p) ∅ →
  length (entries p) = length (names p) →
  Forall (λ entry, length entry = length (headers p)) (entries p) →
  (∀ c e, conv c = Raise e → e = ValueError ∨ e = OverflowError) →
  ((let? c := lookup_cell p row col in conv c) = Raise KeyError
   ↔ row ∉ names p ∨ col ∉ headers p)
  ∧ (let? c := lookup_cell p row col in conv c) ≠ Raise IndexError.
Proof.
  intros Hcols Hrows Hlen Hcells Hconv.
  pose proof (lookup_cell_KeyError p row col Hcols Hrows Hlen Hcells) as Hcell.
  destruct (lookup_cell p row col) as [c|e]; cbn [res_bind].
  - destruct Hcell as (i & j & [Hi _] & [Hj _] & _).
    apply list_elem_of_lookup_2 in Hi, Hj. split; [split|].
    + intros [|]%Hconv; done.
    + tauto.
    + intros [|]%Hconv; done.
  - destruct Hcell as [-> Hmiss]. split; [|done]. by split.
Qed.

Section Accessors.
Context {float_text : FloatText}.

(** X6.  In a table as the constructor makes it from a file with one cell
    for each header in every data line, [gain], [voltperhz] and [normrate]
    raise [KeyError] exactly when the row name is none of the table's row
    names or the column of the accessor is none of its headers; they never
    raise [IndexError]. *)
Theorem accessors_raise_KeyError (p : Pedestal) (row : str) :
  cols p = enumerate_from 0 (headers p) ∅ →
  rows p = enumerate_from 0 (names p) ∅ →
  length (entries p) = length (names p) →
  Forall (λ entry, length entry = length (headers p)) (entries p) →
  (gain p row = Raise KeyError ↔ row ∉ names p ∨ "Gain" ∉ headers p)
  ∧ (voltperhz p row = Raise KeyError ↔ row ∉ names p ∨ "VoltPerHz" ∉ headers p)
  ∧ (normrate p row = Raise KeyError ↔ row ∉ names p ∨ "NormRate(Hz/uA)" ∉ headers p)
  ∧ gain p row ≠ Raise IndexError
  ∧ voltperhz p row ≠ Raise IndexError
  ∧ normrate p row ≠ Raise IndexError.
Proof.
  intros Hcols Hrows Hlen Hcells.
  destruct (accessor_errors float_of_cell p row "Gain" Hcols Hrows Hlen Hcells
              float_of_cell_raises) as [? ?].
  destruct (accessor_errors float_of_cell p row "VoltPerHz" Hcols Hrows Hlen Hcells
              float_of_cell_raises) as [? ?].
  destruct (accessor_errors int_of_cell p row "NormRate(Hz/uA)" Hcols Hrows Hlen Hcells
              int_of_cell_raises) as [? ?].
  done.
Qed.

End Accessors.

Lemma accessors_raise_KeyError_witness :
  (gain (float_text:=sample_float_text) sample_table "TQ23_R2" = Raise KeyError
   ↔ "TQ23_R2" ∉ names sample_table ∨ "Gain" ∉ headers sample_table)
  ∧ (voltperhz (float_text:=sample_float_text) sample_table "TQ23_R2" = Raise KeyError
     ↔ "TQ23_R2" ∉ names sample_table ∨ "VoltPerHz" ∉ headers sample_table)
  ∧ (normrate sample_table "TQ23_R2" = Raise KeyError
     ↔ "TQ23_R2" ∉ names sample_table ∨ "NormRate(Hz/uA)" ∉ headers sample_table)
  ∧ gain (float_text:=sample_float_text) sample_table "TQ23_R2" ≠ Raise IndexError
  ∧ voltperhz (float_text:=sample_float_text) sample_table "TQ23_R2" ≠ Raise IndexError
  ∧ normrate sample_table "TQ23_R2" ≠ Raise IndexError.
Proof.
  apply (accessors_raise_KeyError (float_text:=sample_float_text) sample_table "TQ23_R2");
    [vm_compute; reflexivity..|].
  repeat constructor.
Defined.

(** ** The constructor *)

Lemma strip_first_nil (tok : str) : strip_first tok [] = Raise IndexError.
Proof. reflexivity. Qed.

Lemma strip_first_cons (tok h : str) (t : list str) :
  strip_first tok (h :: t) = Ret (if bool_decide (h = tok) then t else h :: t).
Proof.
  unfold strip_first. change (Py.getitem (h :: t) 0) with (Ret h).
  cbn [res_bind]. by rewrite slice_tail.
Qed.

Lemma header_ok_strip (l : list str) :
  header_ok l
  ↔ ∃ hs1 hs, strip_first "!" l = Ret hs1 ∧ strip_first "Name" hs1 = Ret hs.
Proof.
  unfold header_ok. destruct l as [|h t].
  - split; [by intros [? _]|]. by intros (? & ? & ? & _).
  - rewrite strip_first_cons. destruct (decide (h = "!")) as [->|Hh].
    + rewrite bool_decide_eq_true_2 by done. destruct t as [|h' t].
      * split; [by intros [_ ?]|]. intros (? & ? & [= <-] & ?). done.
      * split; [|done]. intros _. eexists _, _. split; [done|]. apply strip_first_cons.
    + rewrite bool_decide_eq_false_2 by done. split.
      * intros _. eexists _, _. split; [done|]. apply strip_first_cons.
      * intros _. split; [done|]. by intros [= ->].
Qed.

Section Constructor.
Context {W : Type} {os_w : OS W}.

Lemma read_records_frame (lines : list str) :
  ∀ (n : nat) (σ : state W),
  os (read_records n lines σ).1 = os σ ∧ stdout (read_records n lines σ).1 = stdout σ.
Proof.
  induction lines as [|line lines IH]; intros n σ; [done|].
  cbn [read_records]. rewrite run_bind, read_record_run.
  destruct (split line) as [|key rest]; [done|].
  match goal with |- context [read_records ?k lines ?s] =>
    destruct (IH k s) as [-> ->] end.
  done.
Qed.

(** What a call of the constructor that returns has done. *)
Lemma init_inv (filepath : str) (σ σ' : state W) :
  init filepath σ = (σ', Ret ()) →
  ∃ text nm d hs1 hs,
    5 ≤ length filepath
    ∧ Py.slice filepath (Some (-4)%Z) None = ".map"
    ∧ isfile (os σ) filepath = true
    ∧ read_text filepath (os σ) = Some text
    ∧ forallb Py.is_ascii text = true
    ∧ strip_first "!" (split (default [] (head (readlines text)))) = Ret hs1
    ∧ strip_first "Name" hs1 = Ret hs
    ∧ Forall (λ line, split line ≠ []) (tail (readlines text))
    ∧ σ' = mkState (table_of nm d hs text) (os σ)
             (stdout σ ++ [created (table_of nm d hs text)]).
Proof.
  rewrite init_unfold.
  destruct (Nat.ltb_spec (length filepath) 5); [done|].
  destruct (decide (Py.slice filepath (Some (-4)%Z) None = ".map")) as [Hext|Hext];
    [rewrite bool_decide_eq_true_2 by done|by rewrite bool_decide_eq_false_2 by done].
  destruct (isfile (os σ) filepath) eqn:Hfile; [|done]. cbn [negb].
  destruct (read_name filepath) as [[nm d]|]; [|done].
  rewrite read_table_unfold. cbn [self os stdout].
  destruct (read_text filepath (os σ)) as [text|]; [|done].
  unfold decode_ascii. destruct (forallb Py.is_ascii text) eqn:Hascii; [|done].
  destruct (strip_first "!" _) as [hs1|] eqn:Hs1; [|done].
  destruct (strip_first "Name" hs1) as [hs|] eqn:Hs; [|done].
  destruct (read_records _ _ _) as [s [[]|e]] eqn:Hrecords; [|done].
  pose proof (read_records_ret _ _ _ _ Hrecords) as Hlines.
  rewrite read_records_run in Hrecords by done. injection Hrecords as <-.
  intros [= <-]. by exists text, nm, d, hs1, hs.
Qed.

(** X7.  The constructor returns exactly when the path has five characters
    or more, ends in [.map] and is a file whose text can be read, is ASCII,
    has a first line with a token (and one more after a leading [!]) and
    has no blank line after it.  So an empty file, a file of the one token
    [!] and a file with a blank data line are all refused. *)
Theorem init_returns_iff (filepath : str) (σ : state W) :
  (∃ σ', init filepath σ = (σ', Ret ()))
  ↔ 5 ≤ length filepath
    ∧ Py.slice filepath (Some (-4)%Z) None = ".map"
    ∧ isfile (os σ) filepath = true
    ∧ ∃ text, read_text filepath (os σ) = Some text
        ∧ forallb Py.is_ascii text = true
        ∧ header_ok (split (default [] (head (readlines text))))
        ∧ Forall (λ line, split line ≠ []) (tail (readlines text)).
Proof.
  split.
  - intros [σ' Hinit].
    destruct (init_inv _ _ _ Hinit)
      as (text & nm & d & hs1 & hs & ? & ? & ? & ? & ? & Hs1 & Hs & ? & _).
    do 3 (split; [done|]). exists text. do 2 (split; [done|]). split; [|done].
    apply header_ok_strip. by exists hs1, hs.
  - intros (Hlen & Hext & Hfile & text & Htext & Hascii & Hheader & Hlines).
    destruct (read_name_spec filepath Hlen Hext) as (nm & d & Hname & _).
    apply header_ok_strip in Hheader as (hs1 & hs & Hs1 & Hs).
    eexists. eapply (init_run filepath σ text nm d hs1 hs); try done.
    unfold decode_ascii. by rewrite Hascii.
Qed.

(** X8.  The constructor only reads: however it ends, the file system is
    what it was, and the standard output gets its line (with the number of
    rows of the new table) when it returns and nothing when it raises. *)
Theorem init_only_reads (filepath : str) (σ : state W) :
  os (init filepath σ).1 = os σ
  ∧ match (init filepath σ).2 with
    | Ret _ => stdout (init filepath σ).1
               = stdout σ ++ [created (self (init filepath σ).1)]
    | Raise _ => stdout (init filepath σ).1 = stdout σ
    end.
Proof.
  rewrite init_unfold.
  destruct (length filepath <? 5); [done|].
  destruct (negb (bool_decide _)); [done|].
  destruct (negb (isfile (os σ) filepath)); [done|].
  destruct (read_name filepath) as [[nm d]|]; [|done].
  rewrite read_table_unfold. cbn [self os stdout].
  destruct (read_text filepath (os σ)) as [text|]; [|done].
  destruct (decode_ascii text) as [text'|]; [|done].
  destruct (strip_first "!" _) as [hs1|]; [|done].
  destruct (strip_first "Name" hs1) as [hs|]; [|done].
  match goal with |- context [read_records ?n ?l ?s] =>
    pose proof (read_records_frame l n s) as [Hos Hout];
    destruct (read_records n l s) as [s' [[]|e]] end; cbn [fst snd self os stdout] in *.
  - by rewrite Hos, Hout.
  - done.
Qed.

(** X9.  After the constructor, the row-name mapping gives each row name
    the index of the last data line that starts with it, and the column
    mapping gives each header its last position in the header line: a name
    that stands on several lines is looked up on the last of them. *)
Theorem init_maps_to_last (filepath : str) (σ σ' : state W) (key : str) (i : nat) :
  init filepath σ = (σ', Ret ()) →
  (rows (self σ') !! key = Some i ↔ last_at (names (self σ')) key i)
  ∧ (cols (self σ') !! key = Some i ↔ last_at (headers (self σ')) key i).
Proof.
  intros Hinit.
  destruct (init_inv _ _ _ Hinit) as (text & nm & d & hs1 & hs & _ & _ & _ & _ & _ & _ & _ & _ & ->).
  unfold table_of, with_records.
  cbn [self rows names cols headers set_entries set_names set_rows app].
  split; apply enumerate_from_last.
Qed.

(** X10.  After the constructor, there is one entry and one row name for
    each line of the file after the first, and [countrows()] is the number
    of different row names: it is the number of data lines when no row name
    comes twice, and smaller when one does. *)
Theorem countrows_counts_names (filepath : str) (σ σ' : state W) (text : str) :
  init filepath σ = (σ', Ret ()) →
  read_text filepath (os σ) = Some text →
  length (names (self σ')) = length (tail (readlines text))
  ∧ length (entries (self σ')) = length (tail (readlines text))
  ∧ countrows (self σ') = length (remove_dups (names (self σ')))
  ∧ countrows (self σ') ≤ length (tail (readlines text))
  ∧ (countrows (self σ') = length (tail (readlines text)) ↔ NoDup (names (self σ'))).
Proof.
  intros Hinit Htext.
  destruct (init_inv _ _ _ Hinit)
    as (text' & nm & d & hs1 & hs & _ & _ & _ & Htext' & _ & _ & _ & _ & ->).
  assert (text' = text) as -> by congruence.
  unfold countrows, table_of, with_records, data_records.
  cbn [self rows names entries set_entries set_names set_rows app].
  rewrite enumerate_from_count.
  set (ns := record_name <$> (split <$> tail (readlines text))).
  assert (length ns = length (tail (readlines text))) as Hns.
  { unfold ns. by rewrite !length_fmap. }
  destruct (remove_dups_length ns) as [Hle Hiff].
  rewrite !length_fmap, <- Hns. done.
Qed.

End Constructor.

Lemma init_maps_to_last_witness :
  let σ := mkState blank (mkDisk {[ "dir/twin.map" := twin_text ]} ∅ ∅) [] in
  (rows (self (init "dir/twin.map" σ).1) !! "x" = Some 1
   ↔ last_at (names (self (init "dir/twin.map" σ).1)) "x" 1)
  ∧ (cols (self (init "dir/twin.map" σ).1) !! "x" = Some 1
     ↔ last_at (headers (self (init "dir/twin.map" σ).1)) "x" 1).
Proof.
  cbv zeta.
  apply (init_maps_to_last "dir/twin.map"
           (mkState blank (mkDisk {[ "dir/twin.map" := twin_text ]} ∅ ∅) [])).
  vm_compute. reflexivity.
Defined.

Lemma countrows_counts_names_witness :
  let σ' := (init "dir/twin.map"
               (mkState blank (mkDisk {[ "dir/twin.map" := twin_text ]} ∅ ∅) [])).1 in
  length (names (self σ')) = length (tail (readlines twin_text))
  ∧ length (entries (self σ')) = length (tail (readlines twin_text))
  ∧ countrows (self σ') = length (remove_dups (names (self σ')))
  ∧ countrows (self σ') ≤ length (tail (readlines twin_text))
  ∧ (countrows (self σ') = length (tail (readlines twin_text)) ↔ NoDup (names (self σ'))).
Proof.
  cbv zeta.
  apply (countrows_counts_names "dir/twin.map"
           (mkState blank (mkDisk {[ "dir/twin.map" := twin_text ]} ∅ ∅) []));
    vm_compute; reflexivity.
Defined.

(** ** Saving, case by case *)

Lemma write_lines_raises (lines : list (res str)) (written : str) (e : exn) :
  (write_lines lines written).2 = Raise e → Raise e ∈ lines.
Proof.
  revert written. induction lines as [|[l|e'] lines IH]; intros written; cbn.
  - done.
  - intros H. right. by eapply IH.
  - intros [= ->]. left.
Qed.

Section SavingCases.
Context {W : Type} {os_w : OS W} {float_text : FloatText}.

Lemma format_cells_ret (entry : list cell) :
  ∃ fields, res_all (format_cell <$> entry) = Ret fields.
Proof.
  induction entry as [|c entry [fields IH]]; [by eexists|].
  cbn [fmap list_fmap res_all].
  change (list_fmap _ _ format_cell entry) with (format_cell <$> entry). rewrite IH.
  destruct c; by eexists.
Qed.

(** What the writing of the file can raise. *)
Lemma map_text_raises (p : Pedestal) (e : exn) :
  (map_text p).2 = Raise e → e = IndexError ∨ e = UnicodeEncodeError.
Proof.
  unfold map_text. intros [Hh|Hr]%write_lines_raises%elem_of_cons.
  - unfold header_line, encode_ascii in Hh. destruct (forallb _ _); [done|].
    injection Hh as ->. by right.
  - apply list_elem_of_fmap in Hr as (m & Hm & _). unfold row_line in Hm.
    destruct (Py.getitem (names p) _) as [nm|] eqn:Hnm; cbn [res_bind] in Hm.
    2:{ unfold Py.getitem in Hnm. destruct (Py.index _ _); [|by simplify_eq; left].
        destruct (names p !! _); simplify_eq/=. by left. }
    destruct (Py.getitem (entries p) _) as [entry|] eqn:Hentry; cbn [res_bind] in Hm.
    2:{ unfold Py.getitem in Hentry. destruct (Py.index _ _); [|by simplify_eq; left].
        destruct (entries p !! _); simplify_eq/=. by left. }
    destruct (format_cells_ret entry) as [fields Hfields].
    rewrite Hfields in Hm. cbn [res_bind] in Hm.
    unfold encode_ascii in Hm. destruct (forallb _ _); [done|].
    injection Hm as ->. by right.
Qed.

(** [save], step by step. *)
Lemma save_unfold (σ : state W) :
  save σ =
    let cur := currentfile (self σ) in
    let old := oldfile (self σ) in
    if isfile (os σ) old then save_failed σ (os σ)
    else
      match rename cur old (os σ) with
      | (w1, Failed) => save_raised σ w1 OSError
      | (w1, Done) =>
          if isfile w1 old && negb (isfile w1 cur) then
            match write_text cur (map_text (self σ)).1 w1 with
            | (w2, Failed) => save_raised σ w2 OSError
            | (w2, Done) =>
                match (map_text (self σ)).2 with
                | Raise e => save_raised σ w2 e
                | Ret _ =>
                    if isfile w2 cur then
                      match remove old w2 with
                      | (w3, Failed) => save_raised σ w3 OSError
                      | (w3, Done) =>
                          if isfile w3 old then save_raised σ w3 RuntimeWarning
                          else (mkState (self σ) w3 (stdout σ ++ ["Save successful."]), Ret ())
                      end
                    else
                      match rename old cur w2 with
                      | (w3, Failed) => save_raised σ w3 OSError
                      | (w3, Done) => save_failed σ w3
                      end
                end
            end
          else save_failed σ w1
      end.
Proof.
  cbv zeta. unfold save_failed, save_raised.
  unfold save. rewrite run_bind. unfold get_self at 1.
  unfold try_except. rewrite run_bind. unfold os_query at 1.
  destruct (isfile (os σ) (oldfile (self σ))); [reflexivity|].
  rewrite run_bind. unfold mret at 1, M_ret at 1.
  rewrite run_bind. unfold os_call at 1. cbn [os self stdout].
  destruct (rename _ _ (os σ)) as [w1 []]; [|reflexivity].
  rewrite run_bind. unfold os_query at 1. cbn [os].
  destruct (isfile w1 (oldfile (self σ)) && negb (isfile w1 (currentfile (self σ))));
    [|reflexivity].
  rewrite run_bind. unfold mret at 1, M_ret at 1.
  rewrite run_bind. unfold writemap at 1. rewrite run_bind. unfold get_self at 1.
  cbn [self]. pose proof (map_text_raises (self σ)) as Hraises.
  destruct (map_text (self σ)) as [text r]. cbn [fst snd] in *.
  rewrite run_bind. unfold os_call at 1. cbn [os self stdout].
  destruct (write_text _ text w1) as [w2 []]; [|reflexivity].
  unfold lift at 1. destruct r as [[]|e].
  2:{ destruct (Hraises e eq_refl) as [-> | ->]; reflexivity. }
  rewrite run_bind. unfold os_query at 1. cbn [os].
  destruct (isfile w2 (currentfile (self σ))).
  - rewrite run_bind. unfold mret at 1, M_ret at 1. cbn [andb].
    rewrite run_bind. unfold os_call at 1. cbn [os self stdout].
    destruct (remove _ w2) as [w3 []]; [|reflexivity].
    rewrite run_bind. unfold os_query at 1. cbn [os].
    destruct (isfile w3 (oldfile (self σ))); reflexivity.
  - rewrite !run_bind. unfold os_call at 1. cbn [os self stdout].
    destruct (rename _ _ w2) as [w3 []]; [|reflexivity].
    rewrite run_bind. unfold os_query at 1. cbn [os].
    destruct (isfile w3 (currentfile (self σ))); reflexivity.
Qed.

(** X11.  When the file system does each step ([os.rename] moves the
    current file to the backup name, the text of the table is written and
    the file is found, [os.remove] takes the backup away), [save] returns
    after printing [Save successful.], with the file system as [os.remove]
    left it and the table as it was. *)
Theorem save_succeeds (σ : state W) (w1 w2 w3 : W) (text : str) :
  isfile (os σ) (oldfile (self σ)) = false →
  rename (currentfile (self σ)) (oldfile (self σ)) (os σ) = (w1, Done) →
  isfile w1 (oldfile (self σ)) = true →
  isfile w1 (currentfile (self σ)) = false →
  map_text (self σ) = (text, Ret ()) →
  write_text (currentfile (self σ)) text w1 = (w2, Done) →
  isfile w2 (currentfile (self σ)) = true →
  remove (oldfile (self σ)) w2 = (w3, Done) →
  isfile w3 (oldfile (self σ)) = false →
  save σ = (mkState (self σ) w3 (stdout σ ++ ["Save successful."]), Ret ()).
Proof.
  intros Hold Hren Hold1 Hcur1 Htext Hwrite Hcur2 Hrem Hold3.
  rewrite save_unfold. cbv zeta.
  rewrite Hold, Hren, Hold1, Hcur1, Htext. cbn [fst snd andb negb].
  by rewrite Hwrite, Hcur2, Hrem, Hold3.
Qed.

(** X12.  [save] returns only after one line on the standard output, and
    leaves the table as it was.  When the line is [Save successful.], the
    whole text of the table was written to the current file, the file was
    found after the writing, and the backup is gone; otherwise the line is
    [Runtime error occurred.]. *)
Theorem save_returns_after_one_line (σ σ' : state W) :
  save σ = (σ', Ret ()) →
  self σ' = self σ
  ∧ ((stdout σ' = stdout σ ++ ["Save successful."]
      ∧ (map_text (self σ)).2 = Ret ()
      ∧ isfile (os σ') (oldfile (self σ)) = false
      ∧ ∃ w1 w2,
          write_text (currentfile (self σ)) (map_text (self σ)).1 w1 = (w2, Done)
          ∧ isfile w2 (currentfile (self σ)) = true
          ∧ remove (oldfile (self σ)) w2 = (os σ', Done))
     ∨ stdout σ' = stdout σ ++ ["Runtime error occurred."]).
Proof.
  rewrite save_unfold. cbv zeta. unfold save_failed, save_raised.
  destruct (isfile (os σ) (oldfile (self σ))); [intros [= <-]; by split; [|right]|].
  destruct (rename _ _ (os σ)) as [w1 []]; [|done].
  destruct (isfile w1 (oldfile (self σ)) && negb (isfile w1 (currentfile (self σ))));
    [|intros [= <-]; by split; [|right]].
  destruct (write_text _ _ w1) as [w2 []] eqn:Hwrite; [|done].
  destruct (map_text (self σ)).2 as [[]|e] eqn:Hr; [|done].
  destruct (isfile w2 (currentfile (self σ))) eqn:Hcur.
  - destruct (remove _ w2) as [w3 []] eqn:Hrem; [|done].
    destruct (isfile w3 (oldfile (self σ))) eqn:Hold3; [done|].
    intros [= <-]. split; [done|]. left. cbn [stdout os]. do 3 (split; [done|]).
    by exists w1, w2.
  - destruct (rename _ _ w2) as [w3 []]; [|done].
    intros [= <-]. by split; [|right].
Qed.


(** X14.  When the writing of the new file raises (a character that is not
    ASCII, a row without a name or an entry), [save] lets the exception
    through with the backup made and nothing restored; a second call of
    [save] then finds the backup and gives up at once. *)
Theorem save_twice_after_failed_write (σ : state W) (w1 w2 : W) (text : str) (e : exn) :
  isfile (os σ) (oldfile (self σ)) = false →
  rename (currentfile (self σ)) (oldfile (self σ)) (os σ) = (w1, Done) →
  isfile w1 (oldfile (self σ)) = true →
  isfile w1 (currentfile (self σ)) = false →
  map_text (self σ) = (text, Raise e) →
  write_text (currentfile (self σ)) text w1 = (w2, Done) →
  isfile w2 (oldfile (self σ)) = true →
  save σ = (mkState (self σ) w2 (stdout σ), Raise e)
  ∧ save (mkState (self σ) w2 (stdout σ))
    = (mkState (self σ) w2 (stdout σ ++ ["Runtime error occurred."]), Ret ()).
Proof.
  intros Hold Hren Hold1 Hcur1 Htext Hwrite Hold2. split.
  - rewrite save_unfold. cbv zeta.
    rewrite Hold, Hren, Hold1, Hcur1, Htext. cbn [fst snd andb negb].
    by rewrite Hwrite.
  - rewrite save_unfold. cbv zeta. cbn [self os stdout]. by rewrite Hold2.
Qed.

(** X15.  When the new file is not found after the writing, [save] renames
    the backup to the current name again and returns after printing
    [Runtime error occurred.], whether the current file is there after
    that or not: the two messages of its [RuntimeError]s are not shown. *)
Theorem save_restores_backup (σ : state W) (w1 w2 w3 : W) (text : str) :
  isfile (os σ) (oldfile (self σ)) = false →
  rename (currentfile (self σ)) (oldfile (self σ)) (os σ) = (w1, Done) →
  isfile w1 (oldfile (self σ)) = true →
  isfile w1 (currentfile (self σ)) = false →
  map_text (self σ) = (text, Ret ()) →
  write_text (currentfile (self σ)) text w1 = (w2, Done) →
  isfile w2 (currentfile (self σ)) = false →
  rename (oldfile (self σ)) (currentfile (self σ)) w2 = (w3, Done) →
  save σ = (mkState (self σ) w3 (stdout σ ++ ["Runtime error occurred."]), Ret ()).
Proof.
  intros Hold Hren Hold1 Hcur1 Htext Hwrite Hcur2 Hback.
  rewrite save_unfold. cbv zeta.
  rewrite Hold, Hren, Hold1, Hcur1, Htext. cbn [fst snd andb negb].
  by rewrite Hwrite, Hcur2, Hback.
Qed.

End SavingCases.

Lemma save_succeeds_witness :
  ∃ w3, save (float_text:=sample_float_text) sample_state
        = (mkState sample_table w3 ["Save successful."], Ret ()).
Proof.
  eexists.
  eapply (save_succeeds (float_text:=sample_float_text) sample_state);
    vm_compute; reflexivity.
Defined.

Lemma save_returns_after_one_line_witness :
  let σ' := (save (float_text:=sample_float_text) sample_state).1 in
  self σ' = sample_table
  ∧ ((stdout σ' = [] ++ ["Save successful."]
      ∧ (map_text (float_text:=sample_float_text) sample_table).2 = Ret ()
      ∧ isfile (os σ') (oldfile sample_table) = false
      ∧ ∃ w1 w2,
          write_text (currentfile sample_table)
            (map_text (float_text:=sample_float_text) sample_table).1 w1 = (w2, Done)
          ∧ isfile w2 (currentfile sample_table) = true
          ∧ remove (oldfile sample_table) w2 = (os σ', Done))
     ∨ stdout σ' = [] ++ ["Runtime error occurred."]).
Proof.
  cbv zeta.
  apply (save_returns_after_one_line (float_text:=sample_float_text) sample_state).
  vm_compute. reflexivity.
Defined.


Lemma save_twice_after_failed_write_witness :
  let σ := mkState latin_table sample_disk [] in
  let w2 := os (save (float_text:=sample_float_text) σ).1 in
  (save (float_text:=sample_float_text) σ = (mkState latin_table w2 [], Raise UnicodeEncodeError)
   ∧ save (float_text:=sample_float_text) (mkState latin_table w2 [])
     = (mkState latin_table w2 ([] ++ ["Runtime error occurred."]), Ret ()))
  ∧ read_text "dir/ped_old.map" w2 = Some sample_text.
Proof.
  cbv zeta. split.
  - eapply (save_twice_after_failed_write (float_text:=sample_float_text)
              (mkState latin_table sample_disk []));
      vm_compute; reflexivity.
  - vm_compute. reflexivity.
Defined.

Lemma save_restores_backup_witness :
  save (float_text:=sample_float_text) (mkState sample_table (mkVanishing sample_disk) [])
  = (mkState sample_table (mkVanishing sample_disk) ["Runtime error occurred."], Ret ()).
Proof.
  etrans.
  - eapply (save_restores_backup (float_text:=sample_float_text)
              (mkState sample_table (mkVanishing sample_disk) []));
      vm_compute; reflexivity.
  - vm_compute. reflexivity.
Defined.

(** ** The lines of the file *)

Lemma length_spaces (n : nat) : length (Py.spaces n) = n.
Proof. apply length_replicate. Qed.

Lemma length_ljust (w : nat) (s : str) : length s ≤ w → length (Py.ljust w s) = w.
Proof. intros Hs. unfold Py.ljust. rewrite length_app, length_spaces. lia. Qed.

Lemma length_rjust (w : nat) (s : str) : length s ≤ w → length (Py.rjust w s) = w.
Proof. intros Hs. unfold Py.rjust. rewrite length_app, length_spaces. lia. Qed.

Lemma length_center (w : nat) (s : str) : length s ≤ w → length (Py.center w s) = w.
Proof.
  intros Hs. unfold Py.center. rewrite !length_app, !length_spaces.
  assert ((w - length s) / 2 ≤ w - length s) by (apply Nat.Div0.div_le_upper_bound; lia).
  lia.
Qed.

Lemma length_join_fields (w : nat) (l : list str) :
  Forall (λ s, length s = w) l → l ≠ [] →
  length (join " " l) + 1 = S w * length l.
Proof.
  induction 1 as [|s l Hs Hl IH]; [done|]. intros _.
  destruct l as [|s' l].
  - cbn [join length]. lia.
  - change (join " " (s :: s' :: l)) with (s ++ " " ++ join " " (s' :: l)).
    rewrite !length_app. specialize (IH ltac:(done)). cbn [length] in *. nia.
Qed.

Lemma write_lines_raise (ls : list str) (e : exn) (rest : list (res str)) (written : str) :
  write_lines ((Ret <$> ls) ++ Raise e :: rest) written = (written ++ concat ls, Raise e).
Proof.
  revert written. induction ls as [|l ls IH]; intros written.
  - cbn. by rewrite app_nil_r.
  - cbn [fmap list_fmap app write_lines concat]. rewrite IH. by rewrite <- app_assoc.
Qed.

Lemma encode_ascii_ret (s t : str) : encode_ascii s = Ret t → t = s.
Proof. unfold encode_ascii. destruct (forallb _ _); [|done]. by intros [= <-]. Qed.

Section Lines.
Context {W : Type} {os_w : OS W} {float_text : FloatText}.

Lemma format_cells_printed (entry : list cell) :
  res_all (format_cell <$> entry) = Ret (Py.rjust 14 <$> (printed <$> entry)).
Proof.
  induction entry as [|c entry IH]; [done|].
  cbn [fmap list_fmap res_all].
  change (list_fmap _ _ format_cell entry) with (format_cell <$> entry). rewrite IH.
  by destruct c.
Qed.

(** X16.  The file is written in columns: when the row name has at most
    twelve characters and every header and every cell of the row at most
    fourteen, and the row has a cell for each header (there is one at
    least), the header line and the line of the row have the same number of
    characters, twelve and fifteen for each column, line feed included. *)
Theorem writemap_lines_aligned (p : Pedestal) (m : nat) (name : str) (entry : list cell)
    (h r : str) :
  names p !! m = Some name →
  entries p !! m = Some entry →
  headers p ≠ [] →
  length entry = length (headers p) →
  length name ≤ 12 →
  Forall (λ header, length header ≤ 14) (headers p) →
  Forall (λ c, length (printed c) ≤ 14) entry →
  header_line p = Ret h →
  row_line p m = Ret r →
  length h = 12 + 15 * length (headers p) ∧ length r = length h.
Proof.
  intros Hname Hentry Hhs Hcells Hn Hwidth Hcellw Hh Hr.
  assert (length h = 12 + 15 * length (headers p)) as Hlenh.
  { unfold header_line in Hh. apply encode_ascii_ret in Hh as ->.
    rewrite !length_app, length_ljust by (cbn; lia). cbn [length].
    pose proof (length_join_fields 14 (Py.center 14 <$> headers p)) as Hj.
    rewrite length_fmap in Hj. rewrite Nat.add_assoc.
    cut (length (join " " (Py.center 14 <$> headers p)) + 1 = 15 * length (headers p));
      [lia|].
    apply Hj.
    - apply Forall_fmap. eapply Forall_impl; [exact Hwidth|].
      intros s Hs. by apply length_center.
    - by destruct (headers p). }
  split; [done|]. rewrite Hlenh.
  unfold row_line in Hr. rewrite !getitem_nat, Hname, Hentry in Hr.
  cbn [res_of_option res_bind] in Hr. rewrite format_cells_printed in Hr.
  cbn [res_bind] in Hr. apply encode_ascii_ret in Hr as ->. rewrite !length_app, length_ljust by done. cbn [length].
  pose proof (length_join_fields 14 (Py.rjust 14 <$> (printed <$> entry))) as Hj.
  rewrite !length_fmap, Hcells in Hj.
  cut (length (join " " (Py.rjust 14 <$> (printed <$> entry))) + 1
       = 15 * length (headers p)); [lia|].
  apply Hj.
  - apply Forall_fmap, Forall_fmap. eapply Forall_impl; [exact Hcellw|].
    intros c Hc. by apply length_rjust.
  - destruct entry; [|done]. by destruct (headers p).
Qed.

(** X17.  [writemap] writes line by line and stops at the first row that it
    cannot write (no name or entry at its index, a character that is not
    ASCII): the file then holds the header line and the lines of the rows
    before, and the exception is raised once the file is closed. *)
Theorem writemap_stops_at_bad_row (fullpath : str) (σ : state W) (w1 : W)
    (h : str) (ls : list str) (e : exn) :
  header_line (self σ) = Ret h →
  (∀ i l, ls !! i = Some l → row_line (self σ) i = Ret l) →
  length ls < countrows (self σ) →
  row_line (self σ) (length ls) = Raise e →
  write_text fullpath (h ++ concat ls) (os σ) = (w1, Done) →
  map_text (self σ) = (h ++ concat ls, Raise e)
  ∧ writemap fullpath σ = (mkState (self σ) w1 (stdout σ), Raise e).
Proof.
  intros Hh Hls Hk He Hwrite.
  assert (map_text (self σ) = (h ++ concat ls, Raise e)) as Htext.
  { unfold map_text. rewrite Hh.
    replace (countrows (self σ))
      with (length ls + S (countrows (self σ) - S (length ls))) by lia.
    rewrite seq_app, fmap_app. cbn [seq fmap list_fmap Nat.add]. rewrite He.
    assert (row_line (self σ) <$> seq 0 (length ls) = Ret <$> ls) as ->.
    { apply list_eq. intros i. rewrite !list_lookup_fmap.
      destruct (ls !! i) as [l|] eqn:Hl.
      - rewrite lookup_seq_lt by (by eapply lookup_lt_Some). cbn. f_equal. by apply Hls.
      - rewrite lookup_seq_ge; [done|]. by apply lookup_ge_None. }
    cbn [write_lines]. change (list_fmap _ _ (row_line (self σ))) with (fmap (row_line (self σ))).
    apply (write_lines_raise ls e _ ([] ++ h)). }
  split; [done|].
  unfold writemap. rewrite run_bind. unfold get_self at 1. rewrite Htext.
  rewrite run_bind. unfold os_call at 1. by rewrite Hwrite.
Qed.

End Lines.

Lemma writemap_lines_aligned_witness :
  length ("! Name            A       " ++ [LF]) = 12 + 15 * length (headers wide_table)
  ∧ length ("ABCDEFGHIJKL12345678901234" ++ [LF])
    = length ("! Name            A       " ++ [LF]).
Proof.
  apply (writemap_lines_aligned (float_text:=sample_float_text) wide_table 0 "ABCDEFGHIJKL"
           [CStr "12345678901234"]);
    [reflexivity|reflexivity|done|reflexivity|vm_compute; lia
    |apply (bool_decide_unpack _); vm_compute; exact I
    |apply (bool_decide_unpack _); vm_compute; exact I
    |vm_compute; reflexivity|vm_compute; reflexivity].
Defined.

Lemma writemap_stops_at_bad_row_witness :
  let h := "! Name        VoltPerHz    NormRate(Hz/uA)" ++ [LF] in
  let l := "TQ23_R2                0.5             12" ++ [LF] in
  let t := set_entries [[CStr "0.5"; CStr "12"]; [CStr ["233"%char]; CStr "7"]] sample_table in
  map_text (float_text:=sample_float_text) t = (h ++ concat [l], Raise UnicodeEncodeError)
  ∧ writemap (float_text:=sample_float_text) "dir/new.map" (mkState t sample_disk [])
    = (mkState t (write_text "dir/new.map" (h ++ concat [l]) sample_disk).1 [],
       Raise UnicodeEncodeError).
Proof.
  cbv zeta.
  apply (writemap_stops_at_bad_row (float_text:=sample_float_text) "dir/new.map"
           (mkState
              (set_entries [[CStr "0.5"; CStr "12"]; [CStr ["233"%char]; CStr "7"]] sample_table)
              sample_disk [])).
  - vm_compute. reflexivity.
  - intros [|[|i]] l; [|done..]. intros [= <-]. vm_compute. reflexivity.
  - vm_compute. lia.
  - vm_compute. reflexivity.
  - vm_compute. reflexivity.
Defined.

(** ** Saving under another name *)

Lemma read_answer_app (wrong : list str) (ans : str) (rest : list str) :
  Forall unclear wrong → ans = "y" ∨ ans = "n" →
  read_answer (wrong ++ ans :: rest) = Some (S (length wrong), ans).
Proof.
  intros Hwrong Hans. induction Hwrong as [|a wrong [Hy Hn] _ IH]; cbn [app read_answer length].
  - by rewrite bool_decide_eq_true_2.
  - rewrite bool_decide_eq_false_2 by (by intros [|]). by rewrite IH.
Qed.

Lemma read_answer_unclear (typed : list str) :
  Forall unclear typed → read_answer typed = None.
Proof.
  induction 1 as [|a typed [Hy Hn] _ IH]; [done|]. cbn [read_answer].
  rewrite bool_decide_eq_false_2 by (by intros [|]). by rewrite IH.
Qed.

Section SaveAs.
Context {W : Type} {os_w : OS W} {float_text : FloatText}.

Lemma for_each_print (l : list str) (σ : state W) :
  for_each l print σ = (mkState (self σ) (os σ) (stdout σ ++ l), Ret ()).
Proof.
  revert σ. induction l as [|s l IH]; intros σ; cbn [for_each].
  - rewrite app_nil_r. by destruct σ.
  - rewrite run_bind. unfold print at 1. rewrite IH. cbn [self os stdout].
    by rewrite <- app_assoc.
Qed.

(** X18.  [saveas] writes only over a file that is there: when its target
    is not a file, nothing is written and nothing is asked, the call
    returns after printing [File was not saved.], and the file system is
    as it was. *)
Theorem saveas_writes_no_new_file (filename path_ ext : str) (typed : list str)
    (σ : state W) :
  isfile (os σ) (saveas_filepath (self σ) filename path_ ext) = false →
  saveas filename path_ ext typed σ
  = Some (mkState (self σ) (os σ) (stdout σ ++ ["File was not saved."]), Ret ()).
Proof.
  intros Hfile. unfold saveas. rewrite Hfile. cbn [mbind option_bind].
  unfold saveas_answered, try_except. rewrite run_bind. unfold os_query at 1.
  by rewrite Hfile.
Qed.

(** X19.  When the target is a file, [saveas] asks until the answer is [y]
    or [n].  On [n] it writes nothing: it prints that the call was
    cancelled and that the file was not saved, and returns with the file
    system as it was.  While no answer is [y] or [n] it does not go on. *)
Theorem saveas_cancelled (filename path_ ext : str) (wrong rest : list str) (σ : state W) :
  isfile (os σ) (saveas_filepath (self σ) filename path_ ext) = true →
  Forall unclear wrong →
  saveas filename path_ ext (wrong ++ "n" :: rest) σ
  = Some (mkState (self σ) (os σ)
            (stdout σ ++ replicate (S (length wrong)) overwrite_prompt
             ++ ["Call to save " ++ saveas_filepath (self σ) filename path_ ext
                 ++ " was cancelled."; "File was not saved."]), Ret ())
  ∧ saveas filename path_ ext wrong σ = None.
Proof.
  intros Hfile Hwrong. unfold saveas. rewrite Hfile. split.
  - rewrite read_answer_app by (done || by right). cbn [mbind option_bind].
    unfold saveas_answered, try_except. rewrite run_bind. unfold os_query at 1.
    rewrite Hfile. rewrite run_bind, for_each_print. cbn [fst snd].
    rewrite bool_decide_eq_false_2 by done.
    unfold raise at 1.
    destruct (decide (RuntimeError = RuntimeError)); [|done].
    rewrite run_bind. unfold print at 1. unfold mret at 1, M_ret at 1.
    unfold print. cbn [self os stdout].
    by rewrite <- !app_assoc.
  - by rewrite read_answer_unclear.
Qed.

(** X20.  On [y], when the table can be written and [open] takes the
    text, [saveas] writes the text of the table to the target and returns
    after printing [File was saved successfully.]; it makes no backup and
    does not look whether the file is there. *)
Theorem saveas_overwrites (filename path_ ext : str) (wrong rest : list str)
    (σ : state W) (text : str) (w1 : W) :
  isfile (os σ) (saveas_filepath (self σ) filename path_ ext) = true →
  Forall unclear wrong →
  map_text (self σ) = (text, Ret ()) →
  write_text (saveas_filepath (self σ) filename path_ ext) text (os σ) = (w1, Done) →
  saveas filename path_ ext (wrong ++ "y" :: rest) σ
  = Some (mkState (self σ) w1
            (stdout σ ++ replicate (S (length wrong)) overwrite_prompt
             ++ ["File was saved successfully."]), Ret ()).
Proof.
  intros Hfile Hwrong Htext Hwrite. unfold saveas. rewrite Hfile.
  rewrite read_answer_app by (done || by left). cbn [mbind option_bind].
  unfold saveas_answered, try_except. rewrite run_bind. unfold os_query at 1.
  rewrite Hfile. rewrite run_bind, for_each_print. cbn [fst snd].
  rewrite bool_decide_eq_true_2 by done.
  rewrite run_bind. unfold writemap at 1. rewrite run_bind. unfold get_self at 1.
  cbn [self os stdout]. rewrite Htext. rewrite run_bind. unfold os_call at 1.
  cbn [self os stdout]. rewrite Hwrite. unfold lift at 1.
  unfold mret at 1, M_ret at 1. unfold print. cbn [self os stdout].
  by rewrite <- !app_assoc.
Qed.

End SaveAs.

Lemma saveas_writes_no_new_file_witness :
  saveas (float_text:=sample_float_text) "copy" "other/" ".map" ["y"] sample_state
  = Some (mkState sample_table sample_disk ["File was not saved."], Ret ()).
Proof.
  apply (saveas_writes_no_new_file (float_text:=sample_float_text) "copy" "other/" ".map"
           ["y"] sample_state).
  vm_compute. reflexivity.
Defined.

Lemma saveas_cancelled_witness :
  saveas (float_text:=sample_float_text) "ped.map" "" ".map" (["yes"; ""] ++ "n" :: ["y"])
    sample_state
  = Some (mkState sample_table sample_disk
            ([] ++ replicate 3 overwrite_prompt
             ++ ["Call to save dir/ped.map was cancelled."; "File was not saved."]), Ret ())
  ∧ saveas (float_text:=sample_float_text) "ped.map" "" ".map" ["yes"; ""] sample_state = None.
Proof.
  apply (saveas_cancelled (float_text:=sample_float_text) "ped.map" "" ".map" ["yes"; ""] ["y"]
           sample_state).
  - vm_compute. reflexivity.
  - apply (bool_decide_unpack _). vm_compute. exact I.
Defined.

Lemma saveas_overwrites_witness :
  ∃ w1, saveas (float_text:=sample_float_text) "ped" "other/" ".map" ([] ++ "y" :: [])
          sample_state
        = Some (mkState sample_table w1
                  ([] ++ replicate 1 overwrite_prompt ++ ["File was saved successfully."]),
                Ret ()).
Proof.
  eexists.
  eapply (saveas_overwrites (float_text:=sample_float_text) "ped" "other/" ".map" [] []
            sample_state);
    [vm_compute; reflexivity|constructor|vm_compute; reflexivity..].
Defined.

(** ** What the setters and the import leave alone *)

Section LeavesOs.
Context {W : Type}.

Lemma leaves_os_bind {A B} (m : M W A) (k : A → M W B) :
  leaves_os m → (∀ a, leaves_os (k a)) → leaves_os (m ≫= k).
Proof.
  intros Hm Hk σ. rewrite run_bind. specialize (Hm σ).
  destruct (m σ) as [σ' [a|e]]; [|done]. cbn [fst] in Hm. rewrite <- Hm. apply Hk.
Qed.

Lemma leaves_os_for_each {A} (l : list A) (body : A → M W unit) :
  (∀ x, leaves_os (body x)) → leaves_os (for_each l body).
Proof.
  intros Hbody. induction l as [|x l IH]; [done|].
  cbn [for_each]. apply leaves_os_bind; [apply Hbody|intros _; apply IH].
Qed.

Lemma leaves_os_for_each_return {A} (l : list A) (body : A → M W flow) :
  (∀ x, leaves_os (body x)) → leaves_os (for_each_return l body).
Proof.
  intros Hbody. induction l as [|x l IH]; [done|].
  cbn [for_each_return]. apply leaves_os_bind; [apply Hbody|]. intros []; [apply IH|done].
Qed.

Lemma setval_leaves_os row col val : leaves_os (setval (W:=W) row col val).
Proof.
  intros σ. by destruct (setval_cases row col val σ) as [(? & ? & ? & _ & _ & ->)| ->].
Qed.

Lemma setcol_leaves_os col val : leaves_os (setcol (W:=W) col val).
Proof.
  unfold setcol. apply leaves_os_bind; [done|]. intros []; [done|].
  apply leaves_os_bind; [done|]. intros p. apply leaves_os_for_each.
  intros row. apply setval_leaves_os.
Qed.

Lemma setcols_leaves_os cols_ val : leaves_os (setcols (W:=W) cols_ val).
Proof.
  unfold setcols. apply leaves_os_bind; [done|]. intros []; [done|].
  apply leaves_os_for_each. intros col.
  apply leaves_os_bind; [done|]. intros p. apply leaves_os_bind; [done|].
  intros c. apply setcol_leaves_os.
Qed.

Context {float_text : FloatText}.

Lemma import_row_leaves_os row : leaves_os (import_row (W:=W) row).
Proof.
  intros σ. rewrite import_row_run.
  destruct (decode_row row) as [[detector rate]|]; [|done].
  destruct (rows (self σ) !! detector) as [r|]; [|done].
  destruct (cols (self σ) !! _) as [c|]; [|done].
  pose proof (setval_leaves_os (Z.of_nat r) (Z.of_nat c) (CInt rate) σ) as Hos.
  by destruct (setval _ _ _ σ) as [σ' x].
Qed.

Lemma import_tq_rates_leaves_os reader : leaves_os (import_tq_rates (W:=W) reader).
Proof.
  unfold import_tq_rates. apply leaves_os_bind.
  - apply leaves_os_for_each_return. intros row. apply import_row_leaves_os.
  - by intros [].
Qed.

(** X21.  [setval], [setcol], [setcols] and [import_tq_rates] work on the
    table in memory only: after any number of calls, however each of them
    ends, the file system is what it was. *)
Theorem mutations_leave_files (σ σ' : state W) :
  rtc mutation σ σ' → os σ' = os σ.
Proof.
  induction 1 as [|σ1 σ2 σ3 Hstep _ IH]; [done|]. rewrite IH.
  destruct Hstep as [σ0 row col val|σ0 col val|σ0 cols_ val|σ0 reader].
  - apply setval_leaves_os.
  - apply setcol_leaves_os.
  - apply setcols_leaves_os.
  - apply import_tq_rates_leaves_os.
Qed.

End LeavesOs.

#[global] Instance same_outside_preorder col : PreOrder (same_outside col).
Proof.
  split.
  - intros p. by split.
  - intros p1 p2 p3 [Hc1 H1] [Hc2 H2]. split; [congruence|].
    intros i j Hj. rewrite H2, H1; [done..|]. by rewrite Hc1.
Qed.

Section ImportFrame.
Context {W : Type} {float_text : FloatText}.

Lemma import_row_same_outside row :
  keeps (same_outside "NormRate(Hz/uA)") (import_row (W:=W) row).
Proof.
  intros σ. rewrite import_row_run.
  destruct (decode_row row) as [[detector rate]|]; [|reflexivity].
  destruct (rows (self σ) !! detector) as [r|]; [|reflexivity].
  destruct (cols (self σ) !! "NormRate(Hz/uA)") as [c|] eqn:Hc; [|reflexivity].
  rewrite setval_unfold, index_nat.
  destruct (r <? length (entries (self σ))); [|reflexivity].
  destruct (entries (self σ) !! r) as [entry|] eqn:He; [|reflexivity].
  rewrite index_nat. destruct (Nat.ltb_spec c (length entry)); [|reflexivity].
  cbn [fst self]. split; [done|]. intros i j Hj. unfold cell_at.
  cbn [entries set_entries]. rewrite (set_cells_at _ r c _ entry) by done.
  rewrite bool_decide_eq_false_2; [done|]. intros [_ ->]. by rewrite Hc in Hj.
Qed.

(** X22.  [import_tq_rates] changes no cell outside the column
    [NormRate(Hz/uA)], however it ends and whatever the rows of the CSV file
    are: every cell of another column reads as before, and when the table
    has no such column no cell changes at all. *)
Theorem import_touches_one_column (reader : list (gmap str str)) (σ : state W) (i j : nat) :
  cols (self σ) !! "NormRate(Hz/uA)" ≠ Some j →
  cell_at (self (import_tq_rates reader σ).1) i j = cell_at (self σ) i j.
Proof.
  intros Hj.
  assert (keeps (same_outside "NormRate(Hz/uA)") (import_tq_rates (W:=W) reader)) as Hkeeps.
  { unfold import_tq_rates. keeps_auto. apply import_row_same_outside. }
  destruct (Hkeeps σ) as [_ Hcells]. by apply Hcells.
Qed.

End ImportFrame.

Lemma mutations_leave_files_witness :
  os (import_tq_rates (float_text:=sample_float_text) sample_reader
        (setcol 0 (CInt 5) sample_state).1).1 = sample_disk.
Proof.
  apply (mutations_leave_files (float_text:=sample_float_text) sample_state).
  eapply rtc_l; [apply by_setcol|]. eapply rtc_l; [apply by_import_tq_rates|]. done.
Defined.

Lemma import_touches_one_column_witness :
  cell_at (self (import_tq_rates (float_text:=sample_float_text) sample_reader sample_state).1)
    0 0
  = cell_at sample_table 0 0.
Proof.
  apply (import_touches_one_column (float_text:=sample_float_text) sample_reader sample_state
           0 0).
  vm_compute. discriminate.
Defined.

(** ** Reading an imported rate *)

Lemma enumerate_from_inj (l : list str) (k k' : str) (i : nat) :
  enumerate_from 0 l ∅ !! k = Some i → enumerate_from 0 l ∅ !! k' = Some i → k = k'.
Proof. intros [Hk _]%enumerate_from_last [Hk' _]%enumerate_from_last. congruence. Qed.

Section ImportReadBack.
Context {W : Type} {float_text : FloatText}.

(** A row that is imported puts its rate into the cell of its detector. *)
Lemma import_row_writes row (σ σ1 : state W) detector rate :
  import_row row σ = (σ1, Ret Next) →
  decode_row row = Ret (detector, rate) →
  ∃ r c, rows (self σ) !! detector = Some r
         ∧ cols (self σ) !! "NormRate(Hz/uA)" = Some c
         ∧ cell_at (self σ1) r c = Some (CInt rate)
         ∧ stdout σ1 = stdout σ.
Proof.
  intros Hrun Hrow. rewrite import_row_run, Hrow in Hrun.
  destruct (rows (self σ) !! detector) as [r|]; [|done].
  destruct (cols (self σ) !! "NormRate(Hz/uA)") as [c|]; [|done].
  rewrite setval_unfold, index_nat in Hrun.
  destruct (r <? length (entries (self σ))); [|done].
  destruct (entries (self σ) !! r) as [entry|] eqn:He; [|done].
  rewrite index_nat in Hrun. destruct (Nat.ltb_spec c (length entry)); [|done].
  injection Hrun as <-. exists r, c. do 2 (split; [done|]). split; [|done].
  unfold cell_at. cbn [self entries set_entries].
  rewrite (set_cells_at _ r c _ entry) by done. by rewrite bool_decide_eq_true_2.
Qed.

(** A row for another detector leaves that cell alone. *)
Lemma import_row_other row (σ : state W) detector r c :
  rows (self σ) = enumerate_from 0 (names (self σ)) ∅ →
  rows (self σ) !! detector = Some r →
  (∀ rate, decode_row row ≠ Ret (detector, rate)) →
  cell_at (self (import_row row σ).1) r c = cell_at (self σ) r c.
Proof.
  intros Hrows Hr Hother. rewrite import_row_run.
  destruct (decode_row row) as [[detector' rate']|]; [|done].
  destruct (rows (self σ) !! detector') as [r'|] eqn:Hr'; [|done].
  destruct (cols (self σ) !! "NormRate(Hz/uA)") as [c'|]; [|done].
  rewrite setval_unfold, index_nat.
  destruct (r' <? length (entries (self σ))); [|done].
  destruct (entries (self σ) !! r') as [entry|] eqn:He; [|done].
  rewrite index_nat. destruct (Nat.ltb_spec c' (length entry)); [|done].
  unfold cell_at. cbn [fst self entries set_entries].
  rewrite (set_cells_at _ r' c' _ entry) by done.
  rewrite bool_decide_eq_false_2; [done|]. intros [-> _].
  apply (Hother rate'). f_equal. f_equal. rewrite Hrows in Hr, Hr'.
  by eapply enumerate_from_inj.
Qed.

Lemma import_rows_other (after : list (gmap str str)) detector r c :
  ∀ σ : state W,
  rows (self σ) = enumerate_from 0 (names (self σ)) ∅ →
  rows (self σ) !! detector = Some r →
  Forall (λ row, ∀ rate, decode_row row ≠ Ret (detector, rate)) after →
  cell_at (self (for_each_return after import_row σ).1) r c = cell_at (self σ) r c.
Proof.
  induction after as [|row after IH]; intros σ Hrows Hr Hafter; [done|].
  apply Forall_cons in Hafter as [Hrow Hafter].
  cbn [for_each_return]. rewrite run_bind.
  pose proof (import_row_other row σ detector r c Hrows Hr Hrow) as Hcell.
  pose proof (import_row_keeps_shape (W:=W) row σ) as (_ & _ & _ & Hnames & _ & Hrows' & _).
  destruct (import_row row σ) as [σ1 [[]|e]]; cbn [fst] in *; [|done..].
  rewrite IH; [done| |by rewrite Hrows'|done]. by rewrite Hrows', Hnames.
Qed.

(** The import says on the standard output how it ended. *)
Lemma import_rows_stdout (reader : list (gmap str str)) :
  ∀ (σ σ1 : state W) (f : flow),
  for_each_return reader import_row σ = (σ1, Ret f) →
  stdout σ1 = stdout σ ++ match f with Next => [] | Return => import_failed end.
Proof.
  induction reader as [|row reader IH]; intros σ σ1 f.
  - intros [= <- <-]. by rewrite app_nil_r.
  - cbn [for_each_return]. rewrite run_bind.
    destruct (import_row row σ) as [σ2 [[]|e]] eqn:Hrow; [| |done].
    + intros Hrest. apply IH in Hrest as ->. f_equal.
      rewrite import_row_run in Hrow.
      destruct (decode_row row) as [[detector rate]|]; [|done].
      destruct (rows (self σ) !! detector) as [r|]; [|done].
      destruct (cols (self σ) !! _) as [c|]; [|done].
      destruct (setval_cases (Z.of_nat r) (Z.of_nat c) (CInt rate) σ)
        as [(? & ? & ? & _ & _ & Hset)|Hset]; rewrite Hset in Hrow; by simplify_eq.
    + intros [= <- <-]. rewrite import_row_run in Hrow.
      destruct (decode_row row) as [[detector rate]|]; [|done].
      destruct (rows (self σ) !! detector) as [r|];
        [|unfold abort_import in Hrow; by simplify_eq].
      destruct (cols (self σ) !! _) as [c|];
        [|unfold abort_import in Hrow; by simplify_eq].
      destruct (setval_cases (Z.of_nat r) (Z.of_nat c) (CInt rate) σ)
        as [(? & ? & ? & _ & _ & Hset)|Hset]; rewrite Hset in Hrow; by simplify_eq.
Qed.

(** X23.  After an import that reports success, on a table whose row-name
    mapping is the constructor's, [normrate] of a detector named in the
    CSV file gives the rate of the last row of the file for that detector:
    of a row after which no row decodes to the same name. *)
Theorem import_then_normrate (before after : list (gmap str str)) (row : gmap str str)
    (σ σ' : state W) (detector : str) (rate : Z) :
  rows (self σ) = enumerate_from 0 (names (self σ)) ∅ →
  import_tq_rates (before ++ row :: after) σ = (σ', Ret ()) →
  stdout σ' = stdout σ ++ ["Import successful."] →
  decode_row row = Ret (detector, rate) →
  Forall (λ row', ∀ rate', decode_row row' ≠ Ret (detector, rate')) after →
  normrate (self σ') detector = Ret rate.
Proof.
  intros Hrows Hrun Hout Hrow Hafter. revert Hrun. unfold import_tq_rates.
  rewrite run_bind.
  destruct (for_each_return _ _ σ) as [σ3 [[]|e]] eqn:Hall; [| |done].
  2:{ intros [= <-]. apply import_rows_stdout in Hall. rewrite Hall in Hout.
      apply app_inv_head in Hout. done. }
  intros [= <-]. cbn [self].
  rewrite for_each_return_app in Hall.
  pose proof (keeps_for_each_return same_shape before import_row
                (import_row_keeps_shape (W:=W)) σ) as Hshape1.
  destruct (for_each_return before import_row σ) as [σ1 [[]|e]]; [|done..].
  destruct Hshape1 as (_ & _ & _ & Hnames1 & _ & Hrows1 & _). cbn [fst] in *.
  cbn [for_each_return] in Hall. rewrite run_bind in Hall.
  pose proof (import_row_keeps_shape (W:=W) row σ1) as Hshape2.
  destruct (import_row row σ1) as [σ2 [[]|e]] eqn:Hstep; [|done..].
  destruct Hshape2 as (Hcols2 & _ & _ & Hnames2 & _ & Hrows2 & _). cbn [fst] in *.
  destruct (import_row_writes _ _ _ _ _ Hstep Hrow) as (r & c & Hr & Hc & Hcell & _).
  pose proof (import_rows_other after detector r c σ2) as Hrest.
  pose proof (keeps_for_each_return same_shape after import_row
                (import_row_keeps_shape (W:=W)) σ2) as Hshape3.
  rewrite Hall in Hrest, Hshape3. cbn [fst] in *.
  destruct Hshape3 as (Hcols3 & _ & _ & _ & _ & Hrows3 & _).
  rewrite <- Hrest in Hcell; [| |by rewrite Hrows2|done].
  2:{ by rewrite Hrows2, Hnames2, Hrows1, Hnames1. }
  unfold cell_at in Hcell.
  destruct (entries (self σ3) !! r) as [entry|] eqn:He; [|done]. cbn in Hcell.
  unfold normrate, lookup_cell. rewrite Hrows3, Hrows2, Hr. cbn [res_of_option res_bind].
  rewrite getitem_nat, He. cbn [res_of_option res_bind].
  rewrite Hcols3, Hcols2, Hc. cbn [res_of_option res_bind].
  by rewrite getitem_nat, Hcell.
Qed.

End ImportReadBack.

Lemma import_then_normrate_witness :
  normrate
    (self (import_tq_rates (float_text:=sample_float_text)
             ([csv_row "110851" "0.0123"] ++ csv_row "110851" "0.5" :: [csv_row "151220" "0.5"])
             sample_state).1)
    "TQ16_R5L"
  = Ret 7692307%Z.
Proof.
  eapply (import_then_normrate (float_text:=sample_float_text)
            [csv_row "110851" "0.0123"] [csv_row "151220" "0.5"] (csv_row "110851" "0.5")
            sample_state);
    [vm_compute; reflexivity|apply surjective_pairing|vm_compute; reflexivity
    |vm_compute; reflexivity|].
  repeat constructor. intros rate'. vm_compute. discriminate.
Defined.

(** ** Tile codes, whatever they are *)

Lemma slice_range {A} (s : list A) (a b : nat) :
  a ≤ b ≤ length s →
  Py.slice s (Some (Z.of_nat a)) (Some (Z.of_nat b)) = take (b - a) (drop a s).
Proof.
  intros Hab. unfold Py.slice, Py.bound. cbn [from_option].
  destruct (Z.ltb_spec (Z.of_nat a) 0); [lia|].
  destruct (Z.ltb_spec (Z.of_nat b) 0); [lia|].
  f_equal; [|f_equal]; lia.
Qed.

Lemma slice_first {A} (s : list A) (n : nat) :
  n ≤ length s → Py.slice s None (Some (Z.of_nat n)) = take n s.
Proof.
  intros Hn. unfold Py.slice, Py.bound. cbn [from_option].
  destruct (Z.ltb_spec (Z.of_nat n) 0); [lia|].
  rewrite drop_0, Nat.sub_0_r. f_equal. lia.
Qed.


(** The decoding of a code of six characters or more. *)
Lemma decode_six (f1 f2 n1 n2 R P : ascii) (rest : str) :
  Tile.decode ([f1; f2; n1; n2; R; P] ++ rest)
  = let? num := Py.int_of_str [n1; n2] in
    Ret (if bool_decide ([f1; f2] = "11") then (2 * num)%Z else (2 * num - 1)%Z, R, P).
Proof.
  unfold Tile.decode.
  change 2%Z with (Z.of_nat 2). change 4%Z with (Z.of_nat 4). change 5%Z with (Z.of_nat 5).
  rewrite slice_first, slice_range, !getitem_nat by (cbn; lia).
  reflexivity.
Qed.

Lemma decode_exactly_six (f1 f2 n1 n2 R P : ascii) :
  Tile.decode [f1; f2; n1; n2; R; P]
  = let? num := Py.int_of_str [n1; n2] in
    Ret (if bool_decide ([f1; f2] = "11") then (2 * num)%Z else (2 * num - 1)%Z, R, P).
Proof. apply (decode_six f1 f2 n1 n2 R P []). Qed.


Lemma int_of_two_digits (n1 n2 : ascii) (d1 d2 : Z) :
  Py.digit n1 = Some d1 → Py.digit n2 = Some d2 →
  Py.int_of_str [n1; n2] = Ret (10 * d1 + d2)%Z.
Proof. intros H1 H2. digit_cases H1; digit_cases H2; vm_compute; reflexivity. Qed.

(** X24.  The decoding looks at six characters and at little of them:
    what follows the sixth character of a code is ignored, two first
    characters other than [11] count as [15], and a last character other
    than [1], [2] and [3] counts as [0]. *)
Theorem tile_decoding_is_lenient (f1 f2 n1 n2 R P : ascii) (rest : str) :
  Tile.detector_name ([f1; f2; n1; n2; R; P] ++ rest)
  = Tile.detector_name [f1; f2; n1; n2; R; P]
  ∧ ([f1; f2] ≠ "11" →
     Tile.detector_name [f1; f2; n1; n2; R; P] = Tile.detector_name ["1"; "5"; n1; n2; R; P]%char)
  ∧ (P ≠ "1"%char → P ≠ "2"%char → P ≠ "3"%char →
     Tile.detector_name [f1; f2; n1; n2; R; P] = Tile.detector_name [f1; f2; n1; n2; R; "0"%char]).
Proof.
  unfold Tile.detector_name.
  rewrite (decode_six f1 f2 n1 n2 R P rest).
  rewrite (decode_exactly_six f1 f2 n1 n2 R P), (decode_exactly_six "1" "5" n1 n2 R P),
    (decode_exactly_six f1 f2 n1 n2 R "0").
  split; [done|]. split.
  - intros Hflush. rewrite bool_decide_eq_false_2 by done. done.
  - intros H1 H2 H3. destruct (Py.int_of_str [n1; n2]) as [num|]; [|done].
    cbn [res_bind]. f_equal. rewrite !detector_spelled. unfold Tile.spec_suffix.
    rewrite !(bool_decide_eq_false_2 (P = _)) by done. done.
Qed.


(** The detector name of a code of the kind the files have. *)
Lemma detector_name_valid (FF : str) (n1 n2 R P : ascii) (d1 d2 : Z) :
  FF = "15" ∨ FF = "11" →
  Py.digit n1 = Some d1 → Py.digit n2 = Some d2 →
  Tile.detector_name (FF ++ [n1; n2; R; P])
  = Ret ("TQ" ++ Py.format_int_zero 2 (Tile.spec_segment FF (10 * d1 + d2))
         ++ "_R" ++ [R] ++ Tile.spec_suffix P).
Proof.
  intros HFF H1 H2. unfold Tile.detector_name.
  assert (Tile.decode (FF ++ [n1; n2; R; P])
          = Ret (Tile.spec_segment FF (10 * d1 + d2), R, P)) as ->.
  { destruct HFF as [-> | ->]; cbn [app];
      rewrite (decode_exactly_six _ _ n1 n2 R P), (int_of_two_digits n1 n2 d1 d2) by done;
      reflexivity. }
  cbn [res_bind]. by rewrite detector_spelled.
Qed.

(** The number of the segment is read back from the name. *)
Lemma segment_read_back (FF : str) (d1 d2 : Z) (x : str) :
  FF = "15" ∨ FF = "11" → (0 ≤ d1 ≤ 9)%Z → (0 ≤ d2 ≤ 9)%Z →
  let pad := Py.format_int_zero 2 (Tile.spec_segment FF (10 * d1 + d2)) in
  until_underscore (pad ++ "_" ++ x) = (pad, "_" ++ x)
  ∧ Py.int_of_str pad = Ret (Tile.spec_segment FF (10 * d1 + d2)).
Proof.
  intros HFF Hd1 Hd2.
  assert (d1 = 0 ∨ d1 = 1 ∨ d1 = 2 ∨ d1 = 3 ∨ d1 = 4 ∨ d1 = 5 ∨ d1 = 6 ∨ d1 = 7
          ∨ d1 = 8 ∨ d1 = 9)%Z as Hc1 by lia.
  assert (d2 = 0 ∨ d2 = 1 ∨ d2 = 2 ∨ d2 = 3 ∨ d2 = 4 ∨ d2 = 5 ∨ d2 = 6 ∨ d2 = 7
          ∨ d2 = 8 ∨ d2 = 9)%Z as Hc2 by lia.
  clear Hd1 Hd2.
  destruct HFF as [-> | ->];
    repeat destruct Hc1 as [-> | Hc1]; try subst d1;
    repeat destruct Hc2 as [-> | Hc2]; try subst d2;
    split; vm_compute; reflexivity.
Qed.

(** X26.  Two codes of the kind the files have (first characters [15] or
    [11], two digits, a ring character and a position from [0] to [3])
    with the same detector name are the same code: no two such tiles are
    imported into one row of the table. *)
Theorem tile_names_are_distinct (FF FF' : str) (n1 n2 R P n1' n2' R' P' : ascii)
    (d1 d2 d1' d2' : Z) :
  FF = "15" ∨ FF = "11" → FF' = "15" ∨ FF' = "11" →
  Py.digit n1 = Some d1 → Py.digit n2 = Some d2 →
  Py.digit n1' = Some d1' → Py.digit n2' = Some d2' →
  P ∈ ["0"; "1"; "2"; "3"]%char → P' ∈ ["0"; "1"; "2"; "3"]%char →
  Tile.detector_name (FF ++ [n1; n2; R; P]) = Tile.detector_name (FF' ++ [n1'; n2'; R'; P']) →
  FF ++ [n1; n2; R; P] = FF' ++ [n1'; n2'; R'; P'].
Proof.
  intros HFF HFF' H1 H2 H1' H2' HP HP'.
  rewrite (detector_name_valid FF n1 n2 R P d1 d2),
    (detector_name_valid FF' n1' n2' R' P' d1' d2') by done.
  apply digit_inv in H1 as [-> Hd1], H2 as [-> Hd2], H1' as [-> Hd1'], H2' as [-> Hd2'].
  destruct (segment_read_back FF d1 d2 ("R" ++ [R] ++ Tile.spec_suffix P) HFF Hd1 Hd2)
    as [Hsplit Hint].
  destruct (segment_read_back FF' d1' d2' ("R" ++ [R'] ++ Tile.spec_suffix P') HFF' Hd1' Hd2')
    as [Hsplit' Hint'].
  intros [= Hname]. cbv zeta in Hsplit, Hsplit'. cbn [app] in Hsplit, Hsplit'.
  rewrite Hname in Hsplit. rewrite Hsplit in Hsplit'.
  injection Hsplit' as Hpad HR Hsuffix. rewrite Hpad in Hint. rewrite Hint in Hint'.
  injection Hint' as Hseg.
  assert (FF = FF' ∧ d1 = d1' ∧ d2 = d2') as (-> & -> & ->).
  { revert Hseg. unfold Tile.spec_segment.
    destruct HFF as [-> | ->], HFF' as [-> | ->];
      try change (bool_decide ("11" = "11")) with true;
      try change (bool_decide ("15" = "11")) with false; cbv iota; intros Hseg;
      first [split; [done|lia] | exfalso; lia]. }
  subst R'. assert (P = P') as ->; [|done].
  revert Hsuffix. set_unfold in HP. set_unfold in HP'.
  destruct HP as [-> |[-> |[-> |[-> |[]]]]], HP' as [-> |[-> |[-> |[-> |[]]]]];
    vm_compute; intros; (done || discriminate).
Qed.

Lemma tile_decoding_is_lenient_witness :
  Tile.detector_name ("990120" ++ "xyz") = Tile.detector_name "990120"
  ∧ ("99" ≠ "11" → Tile.detector_name "990120" = Tile.detector_name "150120")
  ∧ ("7"%char ≠ "1"%char → "7"%char ≠ "2"%char → "7"%char ≠ "3"%char →
     Tile.detector_name "150127" = Tile.detector_name "150120")
  ∧ Tile.detector_name "150120" = Ret "TQ01_R2".
Proof.
  pose proof (tile_decoding_is_lenient "9" "9" "0" "1" "2" "0" "xyz") as (H1 & H2 & _).
  pose proof (tile_decoding_is_lenient "1" "5" "0" "1" "2" "7" "") as (_ & _ & H3).
  split; [exact H1|]. split; [exact H2|]. split; [exact H3|]. reflexivity.
Defined.


Lemma tile_names_are_distinct_witness :
  Tile.detector_name "110851" = Tile.detector_name ("11" ++ ["0"; "8"; "5"; "1"]%char)
  ∧ "11" ++ ["0"; "8"; "5"; "1"]%char = "11" ++ ["0"; "8"; "5"; "1"]%char.
Proof.
  split; [reflexivity|].
  apply (tile_names_are_distinct "11" "11" "0" "8" "5" "1" "0" "8" "5" "1" 0 8 0 8);
    try (by right); try reflexivity; set_unfold; tauto.
Defined.

(** ** The weights of [tq_weights] *)

(** X27.  The [flavor] that [r5otcweights] works out follows the pattern
    of the segments (closed, transition, open, transition, and so on from
    segment 1): it is [t] on the even segments, [c] on the segments that
    leave 1 when divided by 4 and [o] on those that leave 3; and the
    segment, the ring and the position are those of the other functions. *)
Theorem flavor_follows_segments (tile : str) (segment : Z) (flavor : str) (ring pos : ascii) :
  Weights.decode_otc tile = Ret (segment, flavor, ring, pos) →
  Tile.decode tile = Ret (segment, ring, pos)
  ∧ ((flavor = "t" ∧ segment mod 2 = 0)
     ∨ (flavor = "c" ∧ segment mod 4 = 1)
     ∨ (flavor = "o" ∧ segment mod 4 = 3))%Z.
Proof.
  unfold Weights.decode_otc, Tile.decode.
  destruct (Py.int_of_str _) as [num|]; [|done]. cbn [res_bind].
  destruct (bool_decide (Py.slice tile None (Some 2%Z) = "11")).
  - destruct (Py.getitem tile 4) as [r|]; [|done]. cbn [res_bind].
    destruct (Py.getitem tile 5) as [p|]; [|done]. cbn [res_bind].
    intros [= <- <- <- <-]. split; [done|]. left. split; [done|].
    Z.to_euclidean_division_equations; lia.
  - destruct (Z.eqb_spec (num mod 2) 0) as [Heven|Hodd]; cbn [negb];
      (destruct (Py.getitem tile 4) as [r|]; [|done]); cbn [res_bind];
      (destruct (Py.getitem tile 5) as [p|]; [|done]); cbn [res_bind];
      intros [= <- <- <- <-]; (split; [done|]); right.
    + right. split; [done|]. Z.to_euclidean_division_equations; lia.
    + left. split; [done|]. Z.to_euclidean_division_equations; lia.
Qed.

Lemma decode_otc_decode (tile : str) :
  match Weights.decode_otc tile with
  | Ret (segment, flavor, ring, pos) =>
      Tile.decode tile = Ret (segment, ring, pos)
      ∧ (flavor = "t" ∨ flavor = "c" ∨ flavor = "o")
  | Raise e => Tile.decode tile = Raise e
  end.
Proof.
  unfold Weights.decode_otc, Tile.decode.
  destruct (Py.int_of_str _) as [num|]; [|done]. cbn [res_bind].
  destruct (bool_decide _); [|destruct (negb _)];
    (destruct (Py.getitem tile 4) as [r|]; [|done]); cbn [res_bind];
    (destruct (Py.getitem tile 5) as [p|]; [|done]); cbn [res_bind]; tauto.
Qed.

(** X28.  The three flavours split ring 5: a row that [r5weights] prints
    is printed by [r5otcweights] for just one of [t], [c] and [o], under
    the same detector name, and a row that [r5weights] leaves out is left
    out for every value of [otc]. *)
Theorem flavours_split_ring_5 (tile : str) (detector : str) (b : bool) :
  Weights.pick_ring "5" tile = Ret (detector, b) →
  ∃ flavor, (flavor = "t" ∨ flavor = "c" ∨ flavor = "o")
    ∧ ∀ otc, Weights.pick_otc otc tile = Ret (detector, b && bool_decide (flavor = otc)).
Proof.
  unfold Weights.pick_ring, Weights.pick_otc.
  pose proof (decode_otc_decode tile) as Hotc.
  destruct (Weights.decode_otc tile) as [[[[segment flavor] ring] pos]|e].
  - destruct Hotc as [-> Hflavor]. cbn [res_bind].
    intros [= <- <-]. by exists flavor.
  - by rewrite Hotc.
Qed.

Lemma add_total (ws : list float) (w : float) :
  Weights.add (total ws) w = Ret (total (ws ++ [w])).
Proof.
  destruct ws as [|w0 ws]; [reflexivity|].
  cbn [total app Weights.add]. by rewrite foldl_app.
Qed.

Lemma selected_snoc (data : list (str * bool * float)) (d : str * bool * float) :
  selected (data ++ [d])
  = selected data ++ (if d.1.2 then [(d.1.1, d.2)] else []).
Proof. unfold selected. rewrite omap_app. cbn. by destruct d.1.2. Qed.

Section WeightLoops.
Context {W : Type} {float_text : FloatText} {float_fixed : FloatFixed}.

(** One row of a pass, case by case. *)
Lemma weight_row_run (field : str) (pick : str → res (str * bool)) (row : gmap str str)
    (sum : Weights.num) (σ : state W) :
  Weights.weight_row field pick row sum σ =
    match row_data field pick row with
    | Raise e => (σ, Raise e)
    | Ret (detector, false, weight) => (σ, Ret (Next, sum))
    | Ret (detector, true, weight) =>
        let σ1 := mkState (self σ) (os σ) (stdout σ ++ [Weights.weight_line detector weight]) in
        match Weights.add sum weight with
        | Ret sum' => (σ1, Ret (Next, sum'))
        | Raise e => (σ1, Raise e)
        end
    end.
Proof.
  unfold Weights.weight_row, row_data.
  rewrite run_bind. unfold lift at 1.
  destruct (row !! "detno") as [tile|]; [|done]. cbn [res_of_option res_bind].
  rewrite run_bind. unfold lift at 1.
  destruct (pick tile) as [[detector b]|]; [|done]. cbn [res_bind].
  rewrite run_bind. unfold lift at 1.
  destruct (row !! field) as [text|]; [|done]. cbn [res_of_option res_bind].
  rewrite run_bind. unfold lift at 1.
  destruct (float_of_str text) as [weight|]; [|done]. cbn [res_of_option res_bind fst snd].
  unfold try_except. destruct b; [|done].
  rewrite run_bind. unfold print at 1. rewrite run_bind. unfold lift at 1.
  destruct sum as [z|f]; cbn [Weights.add]; [|done].
  unfold Py.float_of_int. destruct (PrimFloat.is_infinity _); done.
Qed.

(** A pass over rows that can all be read. *)
Lemma weight_rows_run (field : str) (pick : str → res (str * bool))
    (reader : list (gmap str str)) :
  ∀ (data before : list (str * bool * float)) (σ : state W),
  res_all (row_data field pick <$> reader) = Ret data →
  Weights.weight_rows field pick reader (total (selected before).*2) σ
  = (mkState (self σ) (os σ) (stdout σ ++ weight_lines (selected data)),
     Ret (Next, total (selected (before ++ data)).*2)).
Proof.
  induction reader as [|row reader IH]; intros data before σ.
  - intros [= <-]. cbn. rewrite !app_nil_r. by destruct σ.
  - cbn [fmap list_fmap res_all].
    change (list_fmap _ _ (row_data field pick) reader) with (row_data field pick <$> reader).
    destruct (row_data field pick row) as [[[detector b] weight]|] eqn:Hrow; [|done].
    cbn [res_bind].
    destruct (res_all _) as [data'|] eqn:Hrest; [|done]. cbn [res_bind].
    intros [= <-]. cbn [Weights.weight_rows]. rewrite run_bind, weight_row_run, Hrow.
    replace (before ++ (detector, b, weight) :: data')
      with ((before ++ [(detector, b, weight)]) ++ data') by by rewrite <- app_assoc.
    destruct b.
    + cbv zeta. rewrite add_total. cbn [fst snd].
      replace ((selected before).*2 ++ [weight])
        with ((selected (before ++ [(detector, true, weight)])).*2)
        by (by rewrite selected_snoc, fmap_app).
      rewrite (IH data') by done. cbn [self os stdout].
      unfold weight_lines, selected. cbn. by rewrite <- app_assoc.
    + cbn [fst snd].
      replace ((selected before).*2)
        with ((selected (before ++ [(detector, false, weight)])).*2)
        by (by rewrite selected_snoc, app_nil_r).
      by rewrite (IH data').
Qed.

(** X29.  When every row of the file has its code, its two weights and a
    code and weights that can be read, a weight function ([r5weights],
    [r2weights] or [r5otcweights], by its test) prints the title of the
    cosine weights, a line for each row that passes the test, in the order
    of the file, the title of the sine weights, those lines again with the
    sine weights, and the two sums, each the sum of its weights added in
    that order to the integer 0: so a file in which no row passes the test
    has the sums printed as [0]. *)
Theorem weights_print_selected (pick : str → res (str * bool))
    (reader : list (gmap str str)) (σ : state W) (cos sin : list (str * bool * float)) :
  res_all (row_data " mean_of_cos" pick <$> reader) = Ret cos →
  res_all (row_data " mean_of_sin" pick <$> reader) = Ret sin →
  Weights.weights pick reader σ
  = (mkState (self σ) (os σ) (stdout σ ++ weights_output (selected cos) (selected sin)),
     Ret ()).
Proof.
  intros Hcos Hsin. unfold Weights.weights.
  rewrite run_bind. unfold print at 1.
  rewrite run_bind, (weight_rows_run _ _ _ cos [] _ Hcos). cbn [fst snd self os stdout].
  rewrite run_bind. unfold print at 1. cbn [self os stdout].
  rewrite run_bind, (weight_rows_run _ _ _ sin [] _ Hsin). cbn [fst snd self os stdout].
  rewrite !app_nil_l.
  rewrite run_bind. unfold print at 1. cbn [self os stdout].
  rewrite run_bind. unfold print at 1. cbn [self os stdout].
  rewrite run_bind. unfold print at 1. cbn [self os stdout].
  unfold print. cbn [self os stdout].
  unfold weights_output. by rewrite <- !app_assoc.
Qed.

Lemma name_error_is_no_title (s : str) : Weights.name_error ≠ LF :: s.
Proof. unfold Weights.name_error, LF. discriminate. Qed.

Lemma weight_rows_quiet (field : str) (pick : str → res (str * bool))
    (reader : list (gmap str str)) :
  ∀ (sum : Weights.num) (σ : state W),
  ∃ out, stdout (Weights.weight_rows field pick reader sum σ).1 = stdout σ ++ out
    ∧ (Weights.name_error ∉ out)
    ∧ match (Weights.weight_rows field pick reader sum σ).2 with
      | Ret (Return, _) => False
      | _ => True
      end.
Proof.
  induction reader as [|row reader IH]; intros sum σ.
  - exists []. rewrite app_nil_r. split; [done|]. split; [apply not_elem_of_nil|done].
  - cbn [Weights.weight_rows]. rewrite run_bind, weight_row_run.
    assert (∀ r : state W * res (flow * Weights.num),
      (∃ out, stdout r.1 = stdout σ ++ out ∧ (Weights.name_error ∉ out))
      → match r.2 with Ret _ => False | Raise _ => True end
      → ∃ out, stdout r.1 = stdout σ ++ out ∧ (Weights.name_error ∉ out)
          ∧ match r.2 with Ret (Return, _) => False | _ => True end) as Hraised.
    { intros [s [x|e]] (out & ? & ?) ?; [done|]. by exists out. }
    destruct (row_data field pick row) as [[[detector []] weight]|].
    + cbv zeta. destruct (Weights.add sum weight) as [sum'|e].
      * cbv beta iota. cbn [fst snd].
        destruct (IH sum' (mkState (self σ) (os σ)
                             (stdout σ ++ [Weights.weight_line detector weight])))
          as (out & Hout & Hno & Hflow).
        exists (Weights.weight_line detector weight :: out). cbn [stdout] in Hout.
        split; [by rewrite Hout, <- app_assoc|]. split; [|done].
        apply not_elem_of_cons. split; [|done]. unfold Weights.weight_line. done.
      * exists [Weights.weight_line detector weight]. split; [done|]. split; [|done].
        apply not_elem_of_cons. split; [done|apply not_elem_of_nil].
    + cbv beta iota. cbn [fst snd]. apply IH.
    + exists []. rewrite app_nil_r. split; [done|]. split; [apply not_elem_of_nil|done].
Qed.

(** X30.  The handler of [KeyError] in the loops of the weight functions
    is never entered: whatever the rows are and however the function ends,
    [There was an error constructing the detector name.] is not among the
    lines it prints, and when it returns it has printed the two sums. *)
Theorem weights_never_report_a_name_error (pick : str → res (str * bool))
    (reader : list (gmap str str)) (σ : state W) :
  ∃ out, stdout (Weights.weights pick reader σ).1 = stdout σ ++ out
    ∧ (Weights.name_error ∉ out)
    ∧ ((Weights.weights pick reader σ).2 = Ret () →
       ∃ c s, drop (length out - 4) out
              = [[LF]; "Sum of cosine weights: " ++ Weights.str_of_num c;
                 "  Sum of sine weights: " ++ Weights.str_of_num s; [LF]]).
Proof.
  remember (Weights.weights pick reader σ) as r eqn:Hr.
  unfold Weights.weights in Hr. rewrite run_bind in Hr. unfold print at 1 in Hr.
  rewrite run_bind in Hr.
  destruct (weight_rows_quiet " mean_of_cos" pick reader (Weights.NInt 0)
              (mkState (self σ) (os σ) (stdout σ ++ [[LF] ++ "Cosine weights:"])))
    as (out1 & Hout1 & Hno1 & Hflow1).
  destruct (Weights.weight_rows " mean_of_cos" _ _ _ _) as [σ1 [[[] c]|e]];
    cbn [fst snd stdout] in *; [| done |].
  2:{ subst r. cbn [fst snd]. exists (([LF] ++ "Cosine weights:") :: out1).
      split; [by rewrite Hout1, <- app_assoc|]. split; [|done].
      apply not_elem_of_cons. split; [apply name_error_is_no_title|done]. }
  rewrite run_bind in Hr. unfold print at 1 in Hr. rewrite run_bind in Hr.
  destruct (weight_rows_quiet " mean_of_sin" pick reader (Weights.NInt 0)
              (mkState (self σ1) (os σ1) (stdout σ1 ++ [[LF; LF] ++ "Sine weights:"])))
    as (out2 & Hout2 & Hno2 & Hflow2).
  destruct (Weights.weight_rows " mean_of_sin" _ _ _ _) as [σ2 [[[] s]|e]];
    cbn [fst snd stdout] in *; [| done |].
  2:{ subst r. cbn [fst snd].
      exists ((([LF] ++ "Cosine weights:") :: out1) ++ ([LF; LF] ++ "Sine weights:") :: out2).
      split; [cbn [fst]; rewrite Hout2, Hout1; by rewrite <- !app_assoc|]. split; [|done].
      rewrite elem_of_app, !elem_of_cons.
      intros [[?%name_error_is_no_title|]|[?%name_error_is_no_title|]]; done. }
  rewrite run_bind in Hr. unfold print at 1 in Hr. cbn [self os stdout] in Hr.
  rewrite run_bind in Hr. unfold print at 1 in Hr. cbn [self os stdout] in Hr.
  rewrite run_bind in Hr. unfold print at 1 in Hr. cbn [self os stdout] in Hr.
  unfold print in Hr. cbn [self os stdout] in Hr. subst r. cbn [fst snd stdout].
  set (tail4 := [[LF]; "Sum of cosine weights: " ++ Weights.str_of_num c;
                 "  Sum of sine weights: " ++ Weights.str_of_num s; [LF]]).
  exists (((([LF] ++ "Cosine weights:") :: out1) ++ ([LF; LF] ++ "Sine weights:") :: out2)
          ++ tail4).
  split; [rewrite Hout2, Hout1; unfold tail4; by rewrite <- !app_assoc|]. split.
  - unfold tail4. rewrite !elem_of_app, !elem_of_cons, elem_of_nil.
    intros [[[?%name_error_is_no_title|]|[?%name_error_is_no_title|]]
            |[?%name_error_is_no_title|[|[|[?%name_error_is_no_title|[]]]]]]; done.
  - intros _. exists c, s. rewrite length_app.
    replace (length _ + length tail4 - 4) with (length ((([LF] ++ "Cosine weights:") :: out1)
      ++ ([LF; LF] ++ "Sine weights:") :: out2)) by (cbn [length tail4]; lia).
    by rewrite drop_app_length.
Qed.

End WeightLoops.

Lemma flavor_follows_segments_witness :
  Tile.decode "150851" = Ret (15%Z, "5"%char, "1"%char)
  ∧ (("o" = "t" ∧ 15 mod 2 = 0) ∨ ("o" = "c" ∧ 15 mod 4 = 1) ∨ ("o" = "o" ∧ 15 mod 4 = 3))%Z.
Proof. apply (flavor_follows_segments "150851" 15 "o" "5" "1"). reflexivity. Defined.

Lemma flavours_split_ring_5_witness :
  ∃ flavor, (flavor = "t" ∨ flavor = "c" ∨ flavor = "o")
    ∧ ∀ otc, Weights.pick_otc otc "110851" = Ret ("tq16_r5l", true && bool_decide (flavor = otc)).
Proof. apply (flavours_split_ring_5 "110851" "tq16_r5l" true). reflexivity. Defined.

Lemma weights_print_selected_witness :
  Weights.r5weights (float_text:=sample_float_text) (float_fixed:=sample_float_fixed)
    sample_weights (mkState blank sample_disk [])
  = (mkState blank sample_disk
       ([] ++ weights_output (float_text:=sample_float_text) (float_fixed:=sample_float_fixed)
                [("tq01_r5l", 0.5%float); ("tq02_r5c", 0.5%float); ("tq03_r5r", 0.5%float)]
                [("tq01_r5l", 0.5%float); ("tq02_r5c", 0.0123%float); ("tq03_r5r", 0.5%float)]),
     Ret ()).
Proof.
  apply (weights_print_selected (float_text:=sample_float_text)
           (float_fixed:=sample_float_fixed) (Weights.pick_ring "5") sample_weights
           (mkState blank sample_disk [])
           [("tq01_r5l", true, 0.5%float); ("tq02_r2", false, 0.5%float);
            ("tq02_r5c", true, 0.5%float); ("tq03_r5r", true, 0.5%float)]
           [("tq01_r5l", true, 0.5%float); ("tq02_r2", false, 0.5%float);
            ("tq02_r5c", true, 0.0123%float); ("tq03_r5r", true, 0.5%float)]);
    vm_compute; reflexivity.
Defined.

Lemma weights_never_report_a_name_error_witness :
  ∃ out,
    stdout (Weights.r5otcweights (float_text:=sample_float_text)
              (float_fixed:=sample_float_fixed) "t" sample_weights
              (mkState blank sample_disk [])).1
    = [] ++ out
    ∧ (Weights.name_error ∉ out)
    ∧ ∃ c s, drop (length out - 4) out
             = [[LF]; "Sum of cosine weights: " ++ Weights.str_of_num (float_text:=sample_float_text) c;
                "  Sum of sine weights: " ++ Weights.str_of_num (float_text:=sample_float_text) s;
                [LF]].
Proof.
  destruct (weights_never_report_a_name_error (float_text:=sample_float_text)
              (float_fixed:=sample_float_fixed) (Weights.pick_otc "t") sample_weights
              (mkState blank sample_disk [])) as (out & Hout & Hno & Hsums).
  exists out. split; [exact Hout|]. split; [exact Hno|]. apply Hsums. vm_compute. reflexivity.
Defined.
